(** * Receipt tracker: the extraction pipeline of [src/inngest/agent.ts]

    A shallow embedding of [validateReceiptData], [retryWithBackoff] and the
    two checkpointed steps of [extractAndSavePDF], with the properties the
    specification states about them.

    Conventions of the embedding.
    - A JavaScript number is an IEEE 754 binary64 value, [spec_float] with
      precision 53 and maximal exponent 1024.
    - A JavaScript string is the [string] of the UTF-8 bytes of its code
      points.
    - A value produced by [JSON.parse] is a [json] tree; [undefined] is the
      [None] of [option json].
    - An exception is a value of [exn]; a computation that may throw returns
      [exn + A], written in a small error monad. *)

From Stdlib Require Import ZArith List String Ascii Strings.Byte Bool Lia.
From Stdlib Require Import Floats.SpecFloat DecimalString.
Import ListNotations.

Local Open Scope string_scope.
Local Open Scope Z_scope.

(** ** Numbers *)

Module Num.

Definition prec : Z := 53.
Definition emax : Z := 1024.

Definition number := spec_float.

Definition nan : number := S754_nan.
Definition zero : number := S754_zero false.
Definition infinity (neg : bool) : number := S754_infinity neg.

(** The number nearest to an integer (ties to even). *)
Definition of_Z (z : Z) : number := binary_normalize prec emax z 0 false.

Definition one : number := of_Z 1.

(** The number nearest to [m * 10^e10], with the sign [neg]: the rounding
    of a decimal literal. *)
Definition of_decimal (neg : bool) (m : Z) (e10 : Z) : number :=
  match m with
  | Zpos p =>
      if 0 <=? e10
      then binary_normalize prec emax (cond_Zopp neg (Zpos p * 10 ^ e10)) 0 neg
      else SFdiv prec emax (S754_finite neg p 0)
                           (S754_finite false (Z.to_pos (10 ^ (- e10))) 0)
  | _ => S754_zero neg
  end.

(** ToBoolean on a number: [0], [-0] and [NaN] are falsy. *)
Definition truthy (x : number) : bool :=
  match x with
  | S754_zero _ | S754_nan => false
  | _ => true
  end.

Definition is_nan (x : number) : bool :=
  match x with S754_nan => true | _ => false end.

(** [x >= 0] in the sense of JavaScript's comparison. *)
Definition nonneg (x : number) : bool := SFleb zero x.

(** Number.isInteger. *)
Definition is_integer (x : number) : bool :=
  match x with
  | S754_zero _ => true
  | S754_finite _ m e =>
      if 0 <=? e then true else (Zpos m) mod (2 ^ (- e)) =? 0
  | _ => false
  end.

End Num.

(** ** Strings *)

Module Str.

Definition code (c : ascii) : Z := Z.of_nat (nat_of_ascii c).

Definition of_codes (l : list Z) : string :=
  string_of_list_ascii (map (fun z => ascii_of_nat (Z.to_nat z)) l).

(** WhiteSpace and LineTerminator code points whose UTF-8 form is one,
    two or three bytes long. *)
Definition ws1 (c : ascii) : bool :=
  let n := code c in ((9 <=? n) && (n <=? 13)) || (n =? 32).

(* U+00A0 *)
Definition ws2 (c1 c2 : ascii) : bool :=
  (code c1 =? 194) && (code c2 =? 160).

(* U+1680, U+2000..U+200A, U+2028, U+2029, U+202F, U+205F, U+3000, U+FEFF *)
Definition ws3 (c1 c2 c3 : ascii) : bool :=
  let a := code c1 in let b := code c2 in let c := code c3 in
  ((a =? 225) && (b =? 154) && (c =? 128))
  || ((a =? 226) && (b =? 128)
      && (((128 <=? c) && (c <=? 138)) || (c =? 168) || (c =? 169) || (c =? 175)))
  || ((a =? 226) && (b =? 129) && (c =? 159))
  || ((a =? 227) && (b =? 128) && (c =? 128))
  || ((a =? 239) && (b =? 187) && (c =? 191)).

Fixpoint trimStart (s : string) : string :=
  match s with
  | String c1 r1 =>
      if ws1 c1 then trimStart r1 else
      match r1 with
      | String c2 r2 =>
          if ws2 c1 c2 then trimStart r2 else
          match r2 with
          | String c3 r3 => if ws3 c1 c2 c3 then trimStart r3 else s
          | EmptyString => s
          end
      | EmptyString => s
      end
  | EmptyString => s
  end.

Definition rev (s : string) : string :=
  string_of_list_ascii (List.rev (list_ascii_of_string s)).

(** The same scan from the end, on the reversed bytes. *)
Fixpoint trimStart_rev (s : string) : string :=
  match s with
  | String c1 r1 =>
      if ws1 c1 then trimStart_rev r1 else
      match r1 with
      | String c2 r2 =>
          if ws2 c2 c1 then trimStart_rev r2 else
          match r2 with
          | String c3 r3 => if ws3 c3 c2 c1 then trimStart_rev r3 else s
          | EmptyString => s
          end
      | EmptyString => s
      end
  | EmptyString => s
  end.

Definition trimEnd (s : string) : string := rev (trimStart_rev (rev s)).

(** String.prototype.trim *)
Definition trim (s : string) : string := trimEnd (trimStart s).

(** String.prototype.includes *)
Fixpoint includes (pat s : string) : bool :=
  if prefix pat s then true
  else match s with
       | String _ r => includes pat r
       | EmptyString => false
       end.

Definition is_ascii (s : string) : bool :=
  forallb (fun c => code c <? 128) (list_ascii_of_string s).

Definition upper_ascii (c : ascii) : ascii :=
  let n := code c in
  if (97 <=? n) && (n <=? 122) then ascii_of_nat (Z.to_nat (n - 32)) else c.

Definition map_ascii (f : ascii -> ascii) (s : string) : string :=
  string_of_list_ascii (map f (list_ascii_of_string s)).

(** Decimal digits of an integer, as [String(n)] prints an integral number
    of magnitude below 10^21. *)
Definition of_Z (z : Z) : string := NilZero.string_of_int (Z.to_int z).

(** [width] characters wide, padded with zeros on the left. *)
Definition pad0 (width : nat) (s : string) : string :=
  string_of_list_ascii (repeat "0"%char (width - String.length s)) ++ s.

Definition truthy (s : string) : bool :=
  match s with EmptyString => false | _ => true end.

End Str.

(** ** StringToNumber

    The grammar StringNumericLiteral of ECMAScript: optional white space
    around a signed decimal literal, [Infinity], or an unsigned binary, octal
    or hexadecimal integer; the empty literal is [+0], anything else [NaN]. *)

Module Parse.

Definition digit_val (base : Z) (c : ascii) : option Z :=
  let n := Str.code c in
  let v := if (48 <=? n) && (n <=? 57) then n - 48
           else if (97 <=? n) && (n <=? 102) then n - 87
           else if (65 <=? n) && (n <=? 70) then n - 55
           else base in
  if v <? base then Some v else None.

(** Reads the longest run of digits: the accumulated value, the number of
    digits read and the rest of the string. *)
Fixpoint digits (base : Z) (acc : Z) (n : Z) (s : string) : Z * Z * string :=
  match s with
  | String c r =>
      match digit_val base c with
      | Some v => digits base (acc * base + v) (n + 1) r
      | None => (acc, n, s)
      end
  | EmptyString => (acc, n, s)
  end.

(** ExponentPart, or nothing, up to the end of the string. *)
Definition exponent (s : string) : option Z :=
  match s with
  | EmptyString => Some 0
  | String c r =>
      if (Str.code c =? 101) || (Str.code c =? 69) then
        let '(neg, r') :=
          match r with
          | String "+" r' => (false, r')
          | String "-" r' => (true, r')
          | _ => (false, r)
          end in
        match digits 10 0 0 r' with
        | (v, n, EmptyString) =>
            if 0 <? n then Some (if neg then - v else v) else None
        | _ => None
        end
      else None
  end.

(** StrUnsignedDecimalLiteral with the sign already read. *)
Definition unsigned_decimal (neg : bool) (s : string) : Num.number :=
  if String.eqb s "Infinity" then Num.infinity neg else
  let '(ip, ni, r1) := digits 10 0 0 s in
  let '(m, nf, r2) :=
    match r1 with
    | String "." r => digits 10 ip 0 r
    | _ => (ip, 0, r1)
    end in
  if 0 <? ni + nf then
    match exponent r2 with
    | Some e => Num.of_decimal neg m (e - nf)
    | None => Num.nan
    end
  else Num.nan.

(** NonDecimalIntegerLiteral: digits in base [base] up to the end. *)
Definition non_decimal (base : Z) (s : string) : Num.number :=
  match digits base 0 0 s with
  | (v, n, EmptyString) => if 0 <? n then Num.of_Z v else Num.nan
  | _ => Num.nan
  end.

Definition StringToNumber (s : string) : Num.number :=
  match Str.trim s with
  | EmptyString => Num.zero
  | String "0" (String "x" r) | String "0" (String "X" r) => non_decimal 16 r
  | String "0" (String "o" r) | String "0" (String "O" r) => non_decimal 8 r
  | String "0" (String "b" r) | String "0" (String "B" r) => non_decimal 2 r
  | String "+" r => unsigned_decimal false r
  | String "-" r => unsigned_decimal true r
  | t => unsigned_decimal false t
  end.

End Parse.

(** ** Values and exceptions *)

Set Warnings "-register-all".

(** A value as [JSON.parse] builds it.  An object is the list of its own
    properties; a property read takes the first binding of the key. *)
Inductive json : Type :=
| JNull
| JBool (b : bool)
| JNum (x : Num.number)
| JStr (s : string)
| JArr (elems : list json)
| JObj (props : list (string * json)).

(** What a [throw] carries: an [Error] object with its message (the subclass
    is recorded where the code tells them apart from the outside), or a value
    that is not an [Error], given by its [String(...)]. *)
Inductive exn : Type :=
| Error (message : string)
| TypeError (message : string)
| NotAnError (text : string).

Definition result (A : Type) : Type := (exn + A)%type.

Definition ret {A} (a : A) : result A := inr a.
Definition throw {A} (e : exn) : result A := inl e.
Definition bind {A B} (c : result A) (k : A -> result B) : result B :=
  match c with
  | inl e => inl e
  | inr a => k a
  end.

Declare Scope js_scope.
Delimit Scope js_scope with js.
Notation "x <- c ;; k" := (bind c (fun x => k))
  (at level 61, c at next level, right associativity) : js_scope.
Local Open Scope js_scope.

(** The built-in operations whose result is a table of the engine or of
    Unicode rather than something this repository defines. *)
Class Host : Type := {
  (** Number::toString in radix 10 *)
  Number_toString : Num.number -> string;
  (** String.prototype.toUpperCase on a string with a character outside
      ASCII *)
  unicode_toUpperCase : string -> string;
  (** JSON.parse, which throws a SyntaxError on a malformed text *)
  JSON_parse : string -> result json
}.

Module JS.
Section Coercions.

Context `{Host}.

Fixpoint lookup (k : string) (props : list (string * json)) : option json :=
  match props with
  | [] => None
  | (k', v) :: rest => if String.eqb k k' then Some v else lookup k rest
  end.

(** The own property [k] of a value, [undefined] when there is none. *)
Definition prop (v : json) (k : string) : option json :=
  match v with
  | JObj props => lookup k props
  | _ => None
  end.

(** [v.k] for one of the property names the code reads, none of which is
    defined on a prototype: [null] throws, any other value gives its own
    property. *)
Definition get (v : json) (k : string) : result (option json) :=
  match v with
  | JNull => throw (TypeError "Cannot read properties of null")
  | _ => ret (prop v k)
  end.

(** ToBoolean *)
Definition truthy (v : option json) : bool :=
  match v with
  | None | Some JNull => false
  | Some (JBool b) => b
  | Some (JNum x) => Num.truthy x
  | Some (JStr s) => Str.truthy s
  | Some (JArr _) | Some (JObj _) => true
  end.

(** [typeof v === "object"] *)
Definition typeof_object (v : json) : bool :=
  match v with
  | JNull | JArr _ | JObj _ => true
  | _ => false
  end.

Definition isArray (v : option json) : bool :=
  match v with Some (JArr _) => true | _ => false end.

(** An object made by [JSON.parse] converts to a primitive through
    [Object.prototype.toString], unless its own property [toString], which
    is never callable, hides that method: then the conversion throws. *)
Definition object_to_primitive (props : list (string * json)) : result string :=
  match lookup "toString" props with
  | Some _ => throw (TypeError "Cannot convert object to primitive value")
  | None => ret "[object Object]"
  end.

(** ToString.  An array is joined with commas, [null] elements printing as
    the empty string. *)
Fixpoint ToString (v : json) : result string :=
  match v with
  | JNull => ret "null"
  | JBool true => ret "true"
  | JBool false => ret "false"
  | JNum x => ret (Number_toString x)
  | JStr s => ret s
  | JArr elems =>
      (fix join (l : list json) : result string :=
         match l with
         | [] => ret EmptyString
         | x :: rest =>
             sx <- match x with JNull => ret EmptyString | _ => ToString x end ;;
             match rest with
             | [] => ret sx
             | _ => sr <- join rest ;; ret (sx ++ "," ++ sr)
             end
         end) elems
  | JObj props => object_to_primitive props
  end.

(** String(v) *)
Definition String_ (v : option json) : result string :=
  match v with
  | None => ret "undefined"
  | Some j => ToString j
  end.

(** Number(v) *)
Definition Number_ (v : option json) : result Num.number :=
  match v with
  | None => ret Num.nan
  | Some JNull => ret Num.zero
  | Some (JBool b) => ret (if b then Num.one else Num.zero)
  | Some (JNum x) => ret x
  | Some (JStr s) => ret (Parse.StringToNumber s)
  | Some (JArr elems) =>
      s <- ToString (JArr elems) ;; ret (Parse.StringToNumber s)
  | Some (JObj props) =>
      s <- object_to_primitive props ;; ret (Parse.StringToNumber s)
  end.

(** [String(v || dflt)] *)
Definition String_or (v : option json) (dflt : string) : result string :=
  if truthy v then String_ v else ret dflt.

(** [Number(v) || dflt] *)
Definition Number_or (v : option json) (dflt : Num.number) : result Num.number :=
  n <- Number_ v ;; ret (if Num.truthy n then n else dflt).

(** [(v as Record<string, any>) || {}] *)
Definition or_empty_object (v : option json) : json :=
  match v with
  | Some j => if truthy v then j else JObj []
  | None => JObj []
  end.

(** String.prototype.toUpperCase *)
Definition toUpperCase (s : string) : string :=
  if Str.is_ascii s then Str.map_ascii Str.upper_ascii s
  else unicode_toUpperCase s.

End Coercions.
End JS.

(** ** The clock *)

Module Date.

(** The civil date of a day number counted from 1970-01-01, in the
    proleptic Gregorian calendar: year, month (1..12), day (1..31). *)
Definition civil (day : Z) : Z * Z * Z :=
  let z := day + 719468 in
  let era := z / 146097 in
  let doe := z - era * 146097 in
  let yoe := (doe - doe / 1460 + doe / 36524 - doe / 146096) / 365 in
  let doy := doe - (365 * yoe + yoe / 4 - yoe / 100) in
  let mp := (5 * doy + 2) / 153 in
  let d := doy - (153 * mp + 2) / 5 + 1 in
  let m := if mp <? 10 then mp + 3 else mp - 9 in
  let y := yoe + era * 400 + (if m <=? 2 then 1 else 0) in
  (y, m, d).

Definition pad (width : nat) (z : Z) : string := Str.pad0 width (Str.of_Z z).

(** The year as [toISOString] prints it: four digits, or a sign and six
    digits outside 0..9999. *)
Definition iso_year (y : Z) : string :=
  if (0 <=? y) && (y <=? 9999) then pad 4 y
  else (if y <? 0 then "-" else "+") ++ pad 6 (Z.abs y).

(** [new Date(t).toISOString().split("T")[0]] for the time value [t], in
    milliseconds since the epoch. *)
Definition iso_date (t : Z) : string :=
  let '(y, m, d) := civil (t / 86400000) in
  iso_year y ++ "-" ++ pad 2 m ++ "-" ++ pad 2 d.

End Date.

(** What the system clock answers to the two reads [validateReceiptData] can
    make: the time value of [new Date()] and the one of [Date.now()]. *)
Record Clock : Type := {
  new_Date : Z;
  Date_now : Z
}.

(** ** validateReceiptData *)

Record ReceiptItem : Type := {
  item_name : string;
  quantity : Num.number;
  unitPrice : Num.number;
  totalPrice : Num.number
}.

Record Merchant : Type := {
  merchant_name : string;
  address : string;
  contact : string
}.

Record Transaction : Type := {
  date : string;
  receipt_number : string;
  payment_method : string
}.

Record Totals : Type := {
  subtotal : Num.number;
  tax : Num.number;
  total : Num.number;
  currency : string
}.

Record ReceiptData : Type := {
  merchant : Merchant;
  transaction : Transaction;
  items : list ReceiptItem;
  totals : Totals
}.

Definition InvalidShape : exn := Error "Invalid receipt data structure".

Section Validate.

Context `{Host}.

(** The callback of [d.items.map]. *)
Definition normalize_item (item : json) : result ReceiptItem :=
  n <- JS.get item "name" ;;
  name <- JS.String_or n "Item" ;;
  q <- JS.get item "quantity" ;;
  quantity <- JS.Number_or q Num.one ;;
  u <- JS.get item "unitPrice" ;;
  unitPrice <- JS.Number_or u Num.zero ;;
  t <- JS.get item "totalPrice" ;;
  totalPrice <- JS.Number_or t Num.zero ;;
  ret {| item_name := Str.trim name;
         quantity := quantity;
         unitPrice := unitPrice;
         totalPrice := totalPrice |}.

(** Array.prototype.map with a callback that may throw: elements are
    visited in order and the first exception ends the call. *)
Fixpoint map_items (l : list json) : result (list ReceiptItem) :=
  match l with
  | [] => ret []
  | x :: rest =>
      y <- normalize_item x ;;
      ys <- map_items rest ;;
      ret (y :: ys)
  end.

Definition validateReceiptData (clock : Clock) (data : json)
  : result ReceiptData :=
  if negb (JS.truthy (Some data)) || negb (JS.typeof_object data)
  then throw InvalidShape
  else
    dm <- JS.get data "merchant" ;;
    let merchant := JS.or_empty_object dm in
    dt <- JS.get data "transaction" ;;
    let transaction := JS.or_empty_object dt in
    dtot <- JS.get data "totals" ;;
    let totals := JS.or_empty_object dtot in
    (* merchant *)
    v <- JS.get merchant "name" ;;
    name <- JS.String_or v "Unknown Merchant" ;;
    v <- JS.get merchant "address" ;;
    address <- JS.String_or v EmptyString ;;
    v <- JS.get merchant "contact" ;;
    contact <- JS.String_or v EmptyString ;;
    (* transaction *)
    v <- JS.get transaction "date" ;;
    date <- (if JS.truthy v then JS.String_ v
             else ret (Date.iso_date (new_Date clock))) ;;
    v <- JS.get transaction "receipt_number" ;;
    receipt_number <- (if JS.truthy v then JS.String_ v
                       else ret ("REC" ++ Str.of_Z (Date_now clock))) ;;
    v <- JS.get transaction "payment_method" ;;
    payment_method <- JS.String_or v "Unknown" ;;
    (* items *)
    di <- JS.get data "items" ;;
    items <- match di with
             | Some (JArr elems) => map_items elems
             | _ => ret []
             end ;;
    (* totals *)
    v <- JS.get totals "subtotal" ;;
    subtotal <- JS.Number_or v Num.zero ;;
    v <- JS.get totals "tax" ;;
    tax <- JS.Number_or v Num.zero ;;
    v <- JS.get totals "total" ;;
    total <- JS.Number_or v Num.zero ;;
    v <- JS.get totals "currency" ;;
    currency <- JS.String_or v "USD" ;;
    ret {| merchant := {| merchant_name := Str.trim name;
                          address := Str.trim address;
                          contact := Str.trim contact |};
           transaction := {| date := Str.trim date;
                             receipt_number := Str.trim receipt_number;
                             payment_method := Str.trim payment_method |};
           items := items;
           totals := {| subtotal := subtotal;
                        tax := tax;
                        total := total;
                        currency := JS.toUpperCase currency |} |}.

End Validate.

(** A host for running the model on closed inputs: numbers print their exact
    decimal expansion, which is what [String] prints for an integer below
    10^21, upper-casing leaves characters outside ASCII alone, and the one
    text accepted as JSON is the empty object. *)
Module SampleHost.

Fixpoint fraction_digits (fuel : nat) (r d : Z) : string :=
  match fuel with
  | O => EmptyString
  | S f =>
      if r =? 0 then EmptyString
      else Str.of_Z (10 * r / d) ++ fraction_digits f ((10 * r) mod d) d
  end.

Definition print_number (x : Num.number) : string :=
  match x with
  | S754_nan => "NaN"
  | S754_zero _ => "0"
  | S754_infinity neg => if neg then "-Infinity" else "Infinity"
  | S754_finite neg m e =>
      let n := if 0 <=? e then Zpos m * 2 ^ e else Zpos m in
      let d := if 0 <=? e then 1 else 2 ^ (- e) in
      (if neg then "-" else EmptyString) ++ Str.of_Z (n / d)
      ++ (if n mod d =? 0 then EmptyString
          else "." ++ fraction_digits (Z.to_nat (- e)) (n mod d) d)
  end.

Definition host : Host := {|
  Number_toString := print_number;
  unicode_toUpperCase := Str.map_ascii Str.upper_ascii;
  JSON_parse := fun s => if String.eqb s "{}" then inr (JObj [])
                         else inl (Error "Unexpected token")
|}.

End SampleHost.

(** ** retryWithBackoff *)

Definition message (e : exn) : string :=
  match e with
  | Error m | TypeError m => m
  | NotAnError t => t
  end.

(** [error instanceof Error ? error : new Error(String(error))] *)
Definition as_Error (e : exn) : exn :=
  match e with
  | NotAnError t => Error t
  | _ => e
  end.

Definition isRateLimit (e : exn) : bool :=
  Str.includes "429" (message e)
  || Str.includes "rate" (message e)
  || Str.includes "quota" (message e).

(** The delay computed after the failure [e] of the attempt number
    [attempt].  The counts and delays of this function are whole numbers at
    every call site and are modelled in [Z]. *)
Definition delayMs (baseDelayMs attempt : Z) (e : exn) : Z :=
  let d := baseDelayMs * 2 ^ attempt in
  if isRateLimit e then Z.max d 10000 else d.

Definition retry_warning (maxRetries attempt delay : Z) (e : exn) : string :=
  if isRateLimit e
  then "Rate limited. Attempt " ++ Str.of_Z (attempt + 1) ++ "/"
       ++ Str.of_Z maxRetries ++ ". Waiting " ++ Str.of_Z delay ++ "ms..."
  else "Attempt " ++ Str.of_Z (attempt + 1) ++ "/" ++ Str.of_Z maxRetries
       ++ " failed. Retrying in " ++ Str.of_Z delay ++ "ms... " ++ message e.

Section Retry.

(** [W] is the state of the world the operation acts on; waiting and
    warning are two more actions on it. *)
Context {W T : Type}.
Variable sleep : Z -> W -> W.
Variable warn : string -> W -> W.
Variable fn : W -> result T * W.
Variable maxRetries baseDelayMs : Z.

(** The [for] loop, [remaining] being [maxRetries - attempt], the number of
    iterations still to run. *)
Fixpoint retry_loop (remaining : nat) (attempt : Z) (lastError : option exn)
         (w : W) : result T * W :=
  match remaining with
  | O =>
      (throw match lastError with
             | Some e => e
             | None => Error "Max retries exceeded"
             end, w)
  | S r =>
      match fn w with
      | (inr v, w1) => (ret v, w1)
      | (inl x, w1) =>
          let e := as_Error x in
          let w2 :=
            if attempt <? maxRetries - 1
            then let d := delayMs baseDelayMs attempt e in
                 sleep d (warn (retry_warning maxRetries attempt d e) w1)
            else w1 in
          retry_loop r (attempt + 1) (Some e) w2
      end
  end.

Definition retryWithBackoff (w : W) : result T * W :=
  retry_loop (Z.to_nat maxRetries) 0 None w.

End Retry.

(** The world seen by an operation that only counts: how often it was
    invoked and which delays were waited for, oldest first. *)
Record Meter : Type := {
  calls : nat;
  waits : list Z
}.

Definition meter0 : Meter := {| calls := 0; waits := [] |}.

Definition meter_sleep (d : Z) (w : Meter) : Meter :=
  {| calls := calls w; waits := (waits w ++ [d])%list |}.

(** An operation whose invocation number [i] (from 0) ends as [outcome i]. *)
Definition scripted {T} (outcome : nat -> result T) (w : Meter)
  : result T * Meter :=
  (outcome (calls w), {| calls := S (calls w); waits := waits w |}).

Definition run_metered {T} (outcome : nat -> result T)
           (maxRetries baseDelayMs : Z) : result T * Meter :=
  retryWithBackoff meter_sleep (fun _ w => w) (scripted outcome)
                   maxRetries baseDelayMs meter0.

Definition total_wait (w : Meter) : Z := fold_right Z.add 0 (waits w).

(** The exception of a failed invocation. *)
Definition failure {T} (r : result T) : exn :=
  match r with
  | inl e => e
  | inr _ => Error EmptyString
  end.

(** The delay computed after the failure of the invocation number [i], and
    the delays computed after the [k] invocations from number [a] on. *)
Definition delay_after {T} (outcome : nat -> result T) (baseDelayMs : Z)
           (i : nat) : Z :=
  delayMs baseDelayMs (Z.of_nat i) (as_Error (failure (outcome i))).

Definition delays {T} (outcome : nat -> result T) (baseDelayMs : Z)
           (a k : nat) : list Z :=
  map (delay_after outcome baseDelayMs) (seq a k).

(** ** The two steps of extractAndSavePDF *)

Inductive level : Type := Log | Warn | Err.

(** The arguments of the mutation [api.receipts.updateReceiptWithExtractedData]. *)
Record MutationArgs : Type := {
  id : string;
  fileDisplayName : string;
  merchantName : string;
  merchantAddress : string;
  merchantContact : string;
  transactionDate : string;
  transactionAmount : Num.number;
  receiptSummary : string;
  arg_currency : string;
  arg_items : list ReceiptItem
}.

(** What a run does to the outside, in the order it does it. *)
Inductive event : Type :=
| FetchDocument (url : string)
| ImportSdk
| ProbeProvider (key : string)
| GenerateContent (model : string) (pdf : list byte)
| Sleep (ms : Z)
| Console (l : level) (text : string)
| Mutation (args : MutationArgs)
| Track (eventName : string) (userId : string).

(** The answer to [fetch]: a rejection (a network failure, or the abort of
    the timer), or a response with what reading its body gives. *)
Inductive response (A : Type) : Type :=
| Rejects (e : exn)
| Responds (ok : bool) (status : Z) (statusText : string) (body : A).
Arguments Rejects {A} e.
Arguments Responds {A} ok status statusText body.

(** Everything a run reads from the outside.  The request number [i] (from
    0) to the document URL is answered by [document i], the call number [i]
    of [generateContent] by [generation i], whose success carries what
    [response.text()] then gives. *)
Record Env : Type := {
  url : string;
  receiptId : string;
  GEMINI_API_KEY : option string;
  GEMINI_MODEL : option string;
  clock : Clock;
  document : nat -> response (result (list byte));
  sdk : result unit;
  models : response unit;
  generation : nat -> result (result string);
  mutation : MutationArgs -> result string;
  track : string -> result unit
}.

Record World : Type := {
  trace : list event;
  fetched : nat;
  generated : nat
}.

Definition world0 : World := {| trace := []; fetched := 0; generated := 0 |}.

Definition emit (ev : event) (w : World) : World :=
  {| trace := (trace w ++ [ev])%list;
     fetched := fetched w;
     generated := generated w |}.

(** A computation of a step: it may throw and it changes the world. *)
Definition Step (A : Type) : Type := World -> result A * World.

Module StepM.

Definition ret {A} (a : A) : Step A := fun w => (inr a, w).
Definition throw {A} (e : exn) : Step A := fun w => (inl e, w).
Definition bind {A B} (c : Step A) (k : A -> Step B) : Step B :=
  fun w => match c w with
           | (inl e, w1) => (inl e, w1)
           | (inr a, w1) => k a w1
           end.
Definition try_catch {A} (c : Step A) (handler : exn -> Step A) : Step A :=
  fun w => match c w with
           | (inl e, w1) => handler e w1
           | r => r
           end.
Definition do (ev : event) : Step unit := fun w => (inr tt, emit ev w).
Definition lift {A} (r : result A) : Step A := fun w => (r, w).

End StepM.

Declare Scope step_scope.
Delimit Scope step_scope with step.
Notation "x <- c ;; k" := (StepM.bind c (fun x => k))
  (at level 61, c at next level, right associativity) : step_scope.
Notation "c ;; k" := (StepM.bind c (fun _ => k))
  (at level 61, right associativity) : step_scope.

(** [!process.env.X]: the variable is unset or empty. *)
Definition unset (v : option string) : bool :=
  match v with
  | Some s => negb (Str.truthy s)
  | None => true
  end.

Definition env_value (v : option string) : string :=
  match v with Some s => s | None => EmptyString end.

Module Fence.

Inductive state : Type := Copy | Skip (n : nat) | Newline.

(** [s.replace(/pat\n?/g, empty)] for a literal [pat]: every occurrence
    of [pat], with the line feed that may follow it, is deleted, scanning
    from the left. *)
Fixpoint remove (pat : string) (st : state) (s : string) : string :=
  match s with
  | EmptyString => EmptyString
  | String c r =>
      let copy :=
        if prefix pat s
        then match String.length pat with
             | S (S n) => remove pat (Skip n) r
             | _ => remove pat Newline r
             end
        else String c (remove pat Copy r) in
      match st with
      | Skip (S n) => remove pat (Skip n) r
      | Skip O => remove pat Newline r
      | Newline => if Str.code c =? 10 then remove pat Copy r else copy
      | Copy => copy
      end
  end.

Definition fence_json : string := "```json".
Definition fence : string := "```".

Definition clean (text : string) : string :=
  Str.trim (remove fence Copy (remove fence_json Copy text)).

End Fence.

(** The value of the second step. *)
Record SaveResult : Type := {
  success : bool;
  userId : string;
  saved_receiptId : string;
  saved_merchantName : string;
  totalAmount : Num.number;
  saved_currency : string;
  itemCount : Z
}.

Section Steps.

Context `{Host}.
Variable env : Env.

Local Open Scope step_scope.

Definition console (l : level) (text : string) : Step unit :=
  StepM.do (Console l text).

(** Both call sites use the default [maxRetries = 5], [baseDelayMs = 2000]. *)
Definition retry {A} (fn : Step A) : Step A :=
  retryWithBackoff (fun d => emit (Sleep d)) (fun t => emit (Console Warn t))
                   fn 5 2000.

(** The operation of the first [retryWithBackoff]: one GET of the document. *)
Definition fetch_document : Step (list byte) :=
  fun w =>
    let w1 := {| trace := (trace w ++ [FetchDocument (url env)])%list;
                 fetched := S (fetched w);
                 generated := generated w |} in
    match document env (fetched w) with
    | Rejects e => (inl e, w1)
    | Responds ok status statusText body =>
        if ok then (body, w1)
        else (inl (Error ("PDF fetch failed: " ++ Str.of_Z status ++ " "
                          ++ statusText)), w1)
    end.

(** [pdfSignature.startsWith("%PDF")] *)
Definition pdf_signature (pdf : list byte) : bool :=
  match pdf with
  | x25 :: x50 :: x44 :: x46 :: _ => true
  | _ => false
  end.

(** The connectivity test; whatever happens in it is only logged. *)
Definition probe : Step unit :=
  console Log "Testing Gemini API connectivity and quota..." ;;
  StepM.try_catch
    (StepM.do (ProbeProvider (env_value (GEMINI_API_KEY env))) ;;
     match models env with
     | Rejects e => StepM.throw e
     | Responds ok status statusText _ =>
         if ok then console Log "Gemini API connectivity confirmed"
         else
           console Warn ("Gemini API returned " ++ Str.of_Z status ++ ": "
                         ++ statusText) ;;
           if (status =? 401) || (status =? 403)
           then StepM.throw (Error ("API Key issue (" ++ Str.of_Z status
                  ++ "): Check your GEMINI_API_KEY in .env.local"))
           else if status =? 429
           then console Warn "Rate limited (429): Free tier quota exceeded. Waiting before retry..." ;;
                StepM.do (Sleep 5000)
           else StepM.ret tt
     end)
    (fun e =>
       let errorMsg := message e in
       (if Str.includes "timeout" errorMsg || Str.includes "ENOTFOUND" errorMsg
        then console Err "Network error: Cannot reach generativelanguage.googleapis.com" ;;
             console Err "   - Check your internet connection" ;;
             console Err "   - Check firewall/proxy settings"
        else StepM.ret tt) ;;
       console Warn ("Connectivity test warning: " ++ errorMsg)).

(** The operation of the second [retryWithBackoff]: one call of
    [model.generateContent] with the document, base64-encoded, and the
    prompt. *)
Definition generate_content (model : string) (pdf : list byte)
  : Step (result string) :=
  fun w =>
    (generation env (generated w),
     {| trace := (trace w ++ [GenerateContent model pdf])%list;
        fetched := fetched w;
        generated := S (generated w) |}).

(** The error thrown in place of a failure of the extraction call. *)
Definition explain (e : exn) : exn :=
  let errorMsg := message e in
  if Str.includes "401" errorMsg || Str.includes "Unauthorized" errorMsg
  then Error "GEMINI_API_KEY is invalid or expired. Get a new key from https://makersuite.google.com/app/apikey"
  else if Str.includes "403" errorMsg || Str.includes "Forbidden" errorMsg
  then Error "GEMINI_API_KEY lacks permissions or quota is exhausted. Check your API quota."
  else if Str.includes "429" errorMsg || Str.includes "Rate limit" errorMsg
  then Error "Rate limited by Gemini API. Waiting before retry..."
  else if Str.includes "Error fetching" errorMsg
  then Error "Cannot reach Gemini API. Check firewall/network access to generativelanguage.googleapis.com"
  else e.

Definition ConfigurationError : exn :=
  Error "GEMINI_API_KEY environment variable is not configured. Set it in .env.local".

(** Step 1, [step.run("extract-pdf-data", ...)]. *)
Definition extract_pdf_data : Step ReceiptData :=
  StepM.try_catch
    (console Log ("Fetching PDF from: " ++ url env) ;;
     pdfBuffer <- retry fetch_document ;;
     console Log "PDF fetched successfully" ;;
     (if (List.length pdfBuffer =? 0)%nat
      then StepM.throw (Error "PDF file is empty") else StepM.ret tt) ;;
     (if pdf_signature pdfBuffer then StepM.ret tt
      else console Warn "PDF header invalid. File may be corrupted or not a valid PDF.") ;;
     StepM.do ImportSdk ;;
     StepM.lift (sdk env) ;;
     (if unset (GEMINI_API_KEY env)
      then StepM.throw ConfigurationError else StepM.ret tt) ;;
     probe ;;
     let modelName :=
       if unset (GEMINI_MODEL env) then "models/gemini-2.5-flash"
       else env_value (GEMINI_MODEL env) in
     console Log ("Using Gemini model: " ++ modelName) ;;
     console Log ("Model " ++ modelName ++ " initialized") ;;
     console Log ("Extracting receipt data with model: " ++ modelName) ;;
     response <- StepM.try_catch
                   (retry (generate_content modelName pdfBuffer))
                   (fun e =>
                      console Err ("Gemini extraction failed: " ++ message e) ;;
                      StepM.throw (explain e)) ;;
     text <- StepM.lift response ;;
     console Log "Raw AI response length" ;;
     let cleanedText := Fence.clean text in
     parsedData <- match JSON_parse cleanedText with
                   | inr v => StepM.ret v
                   | inl parseError =>
                       console Err "JSON parse failed" ;;
                       StepM.throw (Error ("AI response is not valid JSON: "
                                           ++ message parseError))
                   end ;;
     receiptData <- StepM.lift (validateReceiptData (clock env) parsedData) ;;
     console Log "Receipt data extracted successfully" ;;
     StepM.ret receiptData)
    (fun e =>
       console Err ("PDF extraction step failed: " ++ message e) ;;
       StepM.throw e).

Definition mutation_args (extractedData : ReceiptData) : MutationArgs :=
  let m := merchant extractedData in
  let t := totals extractedData in
  {| id := receiptId env;
     fileDisplayName := if Str.truthy (merchant_name m)
                        then merchant_name m else "Receipt";
     merchantName := merchant_name m;
     merchantAddress := address m;
     merchantContact := contact m;
     transactionDate := date (transaction extractedData);
     transactionAmount := total t;
     receiptSummary :=
       "Receipt from " ++ merchant_name m ++ " on "
       ++ date (transaction extractedData) ++ " for " ++ currency t ++ " "
       ++ Number_toString (total t) ++ ". "
       ++ Str.of_Z (Z.of_nat (List.length (items extractedData)))
       ++ " item(s) purchased.";
     arg_currency := currency t;
     arg_items := items extractedData |}.

(** Step 2, [step.run("save-to-database", ...)]. *)
Definition save_to_database (extractedData : ReceiptData) : Step SaveResult :=
  StepM.try_catch
    (console Log "Saving extracted data to database..." ;;
     let args := mutation_args extractedData in
     StepM.do (Mutation args) ;;
     userId <- StepM.lift (mutation env args) ;;
     console Log ("Data saved to database for user: " ++ userId) ;;
     StepM.do (Track "scan" userId) ;;
     StepM.lift (track env userId) ;;
     console Log "Event tracked in Schematic" ;;
     StepM.ret {| success := true;
                  userId := userId;
                  saved_receiptId := receiptId env;
                  saved_merchantName := merchant_name (merchant extractedData);
                  totalAmount := total (totals extractedData);
                  saved_currency := currency (totals extractedData);
                  itemCount := Z.of_nat (List.length (items extractedData)) |})
    (fun e =>
       console Err ("Error saving to database: " ++ message e) ;;
       StepM.throw e).

End Steps.

(** ** Predicates of the specification *)

(** The root is an object in the sense of the specification: neither a
    primitive, nor [null], nor an array. *)
Definition object_root (d : json) : bool :=
  match d with JObj _ => true | _ => false end.

(** The root is a primitive or [null]. *)
Definition primitive_root (d : json) : bool :=
  match d with JObj _ | JArr _ => false | _ => true end.

(** The nested section [d.transaction || {}]. *)
Definition transaction_of (d : json) : json :=
  JS.or_empty_object (JS.prop d "transaction").

(** The only exception a computation can end with is a TypeError. *)
Definition only_TypeError {A} (r : result A) : Prop :=
  forall e, r = inl e -> exists m, e = TypeError m.

Definition is_zero (x : Num.number) : bool :=
  match x with S754_zero _ => true | _ => false end.

(** [n] is [Number(v) || dflt]. *)
Definition coerced `{Host} (v : option json) (dflt n : Num.number) : Prop :=
  exists x, JS.Number_ v = inr x /\ n = if Num.truthy x then x else dflt.

(** The three numbers of [it] are those the fields of [item] coerce to, or
    the defaults. *)
Definition numbers_of `{Host} (item : json) (it : ReceiptItem) : Prop :=
  coerced (JS.prop item "quantity") Num.one (quantity it)
  /\ coerced (JS.prop item "unitPrice") Num.zero (unitPrice it)
  /\ coerced (JS.prop item "totalPrice") Num.zero (totalPrice it).

(** No number of [it] is NaN, and its quantity is not zero. *)
Definition numeric_item (it : ReceiptItem) : Prop :=
  Num.truthy (quantity it) = true
  /\ Num.is_nan (unitPrice it) = false
  /\ Num.is_nan (totalPrice it) = false.

(** A result with the two fields the clock can fill blanked. *)
Definition without_clock_fields (r : ReceiptData) : ReceiptData :=
  {| merchant := merchant r;
     transaction := {| date := EmptyString;
                       receipt_number := EmptyString;
                       payment_method := payment_method (transaction r) |};
     items := items r;
     totals := totals r |}.

Definition map_result {A B} (f : A -> B) (r : result A) : result B :=
  match r with
  | inl e => inl e
  | inr a => inr (f a)
  end.

(** An event that is a request to the AI provider. *)
Definition provider_request (ev : event) : bool :=
  match ev with
  | ProbeProvider _ | GenerateContent _ _ => true
  | _ => false
  end.

Definition is_track (ev : event) : bool :=
  match ev with Track _ _ => true | _ => false end.

(** The world after some more events. *)
Definition emits (evs : list event) (w : World) : World :=
  {| trace := (trace w ++ evs)%list;
     fetched := fetched w;
     generated := generated w |}.

(** No request has gone to the AI provider. *)
Definition no_provider_request (w : World) : Prop :=
  Forall (fun ev => provider_request ev = false) (trace w).

(** The document has been requested. *)
Definition document_requested (env : Env) (w : World) : Prop :=
  In (FetchDocument (url env)) (trace w).

(** ** Closed inputs *)

Module Sample.

Definition clock1 : Clock :=
  {| new_Date := 1762128000000; Date_now := 1762128000456 |}.
Definition clock2 : Clock :=
  {| new_Date := 1762214400000; Date_now := 1762214400789 |}.

Definition minus_one_and_a_half : Num.number :=
  Eval vm_compute in Num.of_decimal true 15 (-1).

Definition pdf : list byte := [x25; x50; x44; x46; x2d].

Definition receipt : ReceiptData :=
  {| merchant := {| merchant_name := "Acme";
                    address := EmptyString;
                    contact := EmptyString |};
     transaction := {| date := "2025-11-03";
                       receipt_number := "R-17";
                       payment_method := "Cash" |};
     items := [];
     totals := {| subtotal := Num.zero; tax := Num.zero;
                  total := Num.of_Z 12; currency := "USD" |} |}.

(** A run whose document arrives at once, with a key or without, and with
    the given answers of the database and of the usage report. *)
Definition env (key : option string) (db : result string)
           (usage : result unit) : Env :=
  {| url := "https://x/receipt.pdf";
     receiptId := "r1";
     GEMINI_API_KEY := key;
     GEMINI_MODEL := None;
     clock := clock1;
     document := fun _ => Responds true 200 "OK" (inr pdf);
     sdk := inr tt;
     models := Responds true 200 "OK" tt;
     generation := fun _ => inr (inr "```json{}```");
     mutation := fun _ => db;
     track := fun _ => usage |}.

(** An input with its own date and receipt number. *)
Definition dated : json :=
  JObj [("transaction", JObj [("date", JStr "2025-11-03");
                              ("receipt_number", JStr "R-17")])].

(** An input whose [items] is a number and what it is normalized to at
    [clock1]. *)
Definition no_items : json :=
  JObj [("merchant", JObj [("name", JStr " Acme ")]);
        ("items", JNum Num.one);
        ("totals", JObj [("total", JStr "108.5"); ("currency", JStr "usd")])].

Definition no_items_normalized : ReceiptData :=
  Eval vm_compute in
    match validateReceiptData (H := SampleHost.host) clock1 no_items with
    | inr r => r
    | inl _ => receipt
    end.

(** An input with two items and what it is normalized to at [clock1]. *)
Definition two_items : json :=
  JObj [("items", JArr [JObj [("quantity", JStr "2"); ("unitPrice", JStr "abc")];
                        JObj [("quantity", JStr "0")]])].

Definition two_items_normalized : ReceiptData :=
  Eval vm_compute in
    match validateReceiptData (H := SampleHost.host) clock1 two_items with
    | inr r => r
    | inl _ => receipt
    end.

Definition fails_then (k : nat) (e : exn) (v : Z) (i : nat) : result Z :=
  if (i <? k)%nat then inl e else inr v.

End Sample.

(** ** The summary and the whole job *)

Module Fixed.

(** The magnitude of a finite number as a fraction, numerator and
    denominator. *)
Definition fraction (x : Num.number) : Z * Z :=
  match x with
  | S754_finite _ m e =>
      if 0 <=? e then (Zpos m * 2 ^ e, 1) else (Zpos m, 2 ^ (- e))
  | _ => (0, 1)
  end.

(** [x < 0] *)
Definition negative (x : Num.number) : bool :=
  match x with
  | S754_finite neg _ _ => neg
  | _ => false
  end.

(** The integer [n] for which [n / 100] is nearest to [num / den], the
    larger one of two. *)
Definition hundredths (num den : Z) : Z := (200 * num + den) / (2 * den).

(** The digits of [n], at least three, with a point before the last two. *)
Definition point2 (n : Z) : string :=
  Str.of_Z (n / 100) ++ "." ++ Str.pad0 2 (Str.of_Z (n mod 100)).

End Fixed.

(** [x.toFixed(2)] *)
Definition toFixed2 `{Host} (x : Num.number) : string :=
  match x with
  | S754_nan => "NaN"
  | S754_infinity neg => if neg then "-Infinity" else "Infinity"
  | _ =>
      let '(num, den) := Fixed.fraction x in
      (if Fixed.negative x then "-" else EmptyString)
      ++ (if 10 ^ 21 * den <=? num
          then Number_toString (SFabs x)
          else Fixed.point2 (Fixed.hundredths num den))
  end.

Record FinancialBreakdown : Type := {
  fb_subtotal : string;
  fb_tax : string;
  fb_total : string;
  description : string
}.

Record AiSummary : Type := {
  overview : string;
  merchantInfo : string;
  transactionDetails : string;
  itemsSummary : string;
  financialBreakdown : FinancialBreakdown;
  quickSummary : string
}.

(** What the job returns. *)
Record JobResult : Type := {
  status : string;
  job_extractedData : ReceiptData;
  saveResult : SaveResult;
  job_aiSummary : AiSummary
}.

(** Array.prototype.join on strings. *)
Fixpoint join (sep : string) (l : list string) : string :=
  match l with
  | [] => EmptyString
  | [x] => x
  | x :: rest => x ++ sep ++ join sep rest
  end.

Section Job.

Context `{Host}.

Definition count (extractedData : ReceiptData) : string :=
  Str.of_Z (Z.of_nat (List.length (items extractedData))).

(** The object [aiSummary] built once both steps have succeeded. *)
Definition aiSummary (extractedData : ReceiptData) : AiSummary :=
  let m := merchant extractedData in
  let tr := transaction extractedData in
  let t := totals extractedData in
  {| overview := "Receipt from " ++ merchant_name m ++ " dated " ++ date tr;
     merchantInfo :=
       merchant_name m
       ++ (if Str.truthy (address m) then " located at " ++ address m
           else EmptyString)
       ++ (if Str.truthy (contact m) then " (Contact: " ++ contact m ++ ")"
           else EmptyString);
     transactionDetails :=
       "Transaction #" ++ receipt_number tr ++ " paid via " ++ payment_method tr;
     itemsSummary :=
       if (0 <? List.length (items extractedData))%nat
       then "Purchased " ++ count extractedData ++ " item(s): "
            ++ join ", "
                 (map (fun item =>
                         item_name item ++ " (Qty: "
                         ++ Number_toString (quantity item) ++ ", Price: "
                         ++ currency t ++ " "
                         ++ Number_toString (totalPrice item) ++ ")")
                      (items extractedData))
       else "No items listed";
     financialBreakdown :=
       {| fb_subtotal := currency t ++ " " ++ toFixed2 (subtotal t);
          fb_tax := currency t ++ " " ++ toFixed2 (tax t);
          fb_total := currency t ++ " " ++ toFixed2 (total t);
          description :=
            "Subtotal: " ++ currency t ++ " " ++ toFixed2 (subtotal t)
            ++ ", Tax: " ++ currency t ++ " " ++ toFixed2 (tax t)
            ++ ", Grand Total: " ++ currency t ++ " " ++ toFixed2 (total t) |};
     quickSummary :=
       merchant_name m ++ " - " ++ count extractedData
       ++ " item(s) totaling " ++ currency t ++ " " ++ toFixed2 (total t)
       ++ " on " ++ date tr |}.

Local Open Scope step_scope.

(** The handler of [extractAndSavePDF].  [step.run] is taken to run its
    callback once and to hand its value on; what the scheduler adds, the
    replay of finished steps and its own retries, is not part of it. *)
Definition extractAndSavePDF (env : Env) : Step JobResult :=
  extractedData <- extract_pdf_data env ;;
  saveResult <- save_to_database env extractedData ;;
  console Log "PDF extraction and save completed successfully!" ;;
  let summary := aiSummary extractedData in
  console Log ("AI Summary generated: " ++ quickSummary summary) ;;
  StepM.ret {| status := "completed";
               job_extractedData := extractedData;
               saveResult := saveResult;
               job_aiSummary := summary |}.

(** How one request for the document ends for [retryWithBackoff]. *)
Definition fetch_outcome (env : Env) (i : nat) : result (list byte) :=
  match document env i with
  | Rejects e => inl e
  | Responds ok status statusText body =>
      if ok then body
      else inl (Error ("PDF fetch failed: " ++ Str.of_Z status ++ " "
                       ++ statusText))
  end.

End Job.

(** ** Counting what a run does *)

Definition is_fetch (ev : event) : bool :=
  match ev with FetchDocument _ => true | _ => false end.

Definition is_probe (ev : event) : bool :=
  match ev with ProbeProvider _ => true | _ => false end.

Definition is_generate (ev : event) : bool :=
  match ev with GenerateContent _ _ => true | _ => false end.

Definition is_mutation (ev : event) : bool :=
  match ev with Mutation _ => true | _ => false end.

Definition is_import (ev : event) : bool :=
  match ev with ImportSdk => true | _ => false end.

(** How many events of a kind a world has seen. *)
Definition seen (kind : event -> bool) (w : World) : nat :=
  List.length (filter kind (trace w)).

(** The delays of the [Sleep] events, oldest first. *)
Fixpoint sleeps (evs : list event) : list Z :=
  match evs with
  | [] => []
  | Sleep ms :: rest => ms :: sleeps rest
  | _ :: rest => sleeps rest
  end.

(** The world as the meter of the document requests sees it. *)
Definition fetch_meter (w : World) : Meter :=
  {| calls := fetched w; waits := sleeps (trace w) |}.

(** The world as the meter of the extraction calls sees it. *)
Definition generate_meter (w : World) : Meter :=
  {| calls := generated w; waits := sleeps (trace w) |}.

(** The two counters that index the answers of the outside. *)
Definition counters (w : World) : nat * nat := (fetched w, generated w).

(** A number [toFixed] prints in positional notation: finite and of magnitude
    below 10^21. *)
Definition positional (x : Num.number) : bool :=
  match x with
  | S754_nan | S754_infinity _ => false
  | _ => let '(num, den) := Fixed.fraction x in num <? 10 ^ 21 * den
  end.

(** [s] is a sign, the digits of an integer, a point and two digits, and
    reads as a number of hundredths within half a hundredth of [x]. *)
Definition two_decimals (x : Num.number) (s : string) : Prop :=
  let '(num, den) := Fixed.fraction x in
  exists n cents,
    s = (if Fixed.negative x then "-" else EmptyString)
        ++ Str.of_Z (n / 100) ++ "." ++ cents
    /\ cents = Str.pad0 2 (Str.of_Z (n mod 100))
    /\ String.length cents = 2%nat
    /\ 0 <= n
    /\ Z.abs (200 * num - 2 * den * n) <= den.

(** An event that reaches nothing outside the process but the console and
    the timer. *)
Definition chatter (ev : event) : bool :=
  match ev with
  | Console _ _ | Sleep _ => true
  | _ => false
  end.

Section AfterProbe.

Context `{Host}.
Variable env : Env.

Local Open Scope step_scope.

(** The handler of the [catch] that encloses the first step. *)
Definition failed (e : exn) : Step ReceiptData :=
  console Err ("PDF extraction step failed: " ++ message e) ;;
  StepM.throw e.

(** The first step from the choice of the model on, with the [catch] that
    encloses it. *)
Definition after_probe (pdfBuffer : list byte) : Step ReceiptData :=
  StepM.try_catch
    (let modelName :=
       if unset (GEMINI_MODEL env) then "models/gemini-2.5-flash"
       else env_value (GEMINI_MODEL env) in
     console Log ("Using Gemini model: " ++ modelName) ;;
     console Log ("Model " ++ modelName ++ " initialized") ;;
     console Log ("Extracting receipt data with model: " ++ modelName) ;;
     response <- StepM.try_catch
                   (retry (generate_content env modelName pdfBuffer))
                   (fun e =>
                      console Err ("Gemini extraction failed: " ++ message e) ;;
                      StepM.throw (explain e)) ;;
     text <- StepM.lift response ;;
     console Log "Raw AI response length" ;;
     let cleanedText := Fence.clean text in
     parsedData <- match JSON_parse cleanedText with
                   | inr v => StepM.ret v
                   | inl parseError =>
                       console Err "JSON parse failed" ;;
                       StepM.throw (Error ("AI response is not valid JSON: "
                                           ++ message parseError))
                   end ;;
     receiptData <- StepM.lift (validateReceiptData (clock env) parsedData) ;;
     console Log "Receipt data extracted successfully" ;;
     StepM.ret receiptData)
    failed.

(** The model the extraction call names. *)
Definition model_name : string :=
  if unset (GEMINI_MODEL env) then "models/gemini-2.5-flash"
  else env_value (GEMINI_MODEL env).

End AfterProbe.

(** The same run with another answer to the connectivity test, and with the
    clock reading [readings] when [validateReceiptData] is reached: a test
    that is rate limited waits five seconds, so the clock is read later. *)
Definition with_models (env : Env) (answer : response unit) (readings : Clock)
  : Env :=
  {| url := url env;
     receiptId := receiptId env;
     GEMINI_API_KEY := GEMINI_API_KEY env;
     GEMINI_MODEL := GEMINI_MODEL env;
     clock := readings;
     document := document env;
     sdk := sdk env;
     models := answer;
     generation := generation env;
     mutation := mutation env;
     track := track env |}.

(** ** Closed runs *)

Module Runs.

(** A run with a key, given by the answers to the document requests and to
    the extraction calls. *)
Definition run (doc : nat -> response (result (list byte)))
           (gen : nat -> result (result string)) : Env :=
  {| url := "https://x/receipt.pdf";
     receiptId := "r1";
     GEMINI_API_KEY := Some "k";
     GEMINI_MODEL := None;
     clock := Sample.clock1;
     document := doc;
     sdk := inr tt;
     models := Responds false 429 "Too Many Requests" tt;
     generation := gen;
     mutation := fun _ => inr "user_1";
     track := fun _ => inr tt |}.

Definition arrives (_ : nat) : response (result (list byte)) :=
  Responds true 200 "OK" (inr Sample.pdf).

(** Two refusals, then the document. *)
Definition arrives_late (i : nat) : response (result (list byte)) :=
  if (i <? 2)%nat then Responds false 503 "Service Unavailable" (inr [])
  else Responds true 200 "OK" (inr Sample.pdf).

Definition arrives_empty (_ : nat) : response (result (list byte)) :=
  Responds true 200 "OK" (inr []).

Definition never_arrives (_ : nat) : response (result (list byte)) :=
  Rejects (Error "fetch failed").

Definition answers (_ : nat) : result (result string) :=
  inr (inr "```json{}```").

(** One rate-limited call, then the answer. *)
Definition answers_late (i : nat) : result (result string) :=
  if (i <? 1)%nat then inl (Error "[429 Too Many Requests] quota")
  else inr (inr "```json{}```").

Definition refuses (_ : nat) : result (result string) :=
  inl (Error "[403 Forbidden] API key not valid").

End Runs.

(** ** Inputs that convert without an exception *)

(** No object in the value hides [Object.prototype.toString] behind an own
    property [toString]. *)
Fixpoint tame (v : json) : bool :=
  match v with
  | JArr elems => forallb tame elems
  | JObj props =>
      match JS.lookup "toString" props with
      | Some _ => false
      | None => forallb (fun kv => tame (snd kv)) props
      end
  | _ => true
  end.

Definition is_null (v : json) : bool :=
  match v with JNull => true | _ => false end.

(** No element of [d.items], when that is an array, is [null]. *)
Definition items_not_null (d : json) : bool :=
  match JS.prop d "items" with
  | Some (JArr elems) => forallb (fun x => negb (is_null x)) elems
  | _ => true
  end.

(** The nested section [d.totals || {}]. *)
Definition totals_of (d : json) : json :=
  JS.or_empty_object (JS.prop d "totals").

(** The nested section [d.merchant || {}]. *)
Definition merchant_of (d : json) : json :=
  JS.or_empty_object (JS.prop d "merchant").

Definition tame_opt (v : option json) : bool :=
  match v with
  | Some x => tame x
  | None => true
  end.

(** The most a call can wait in all: after each attempt but the last, the
    delay of a rate-limited error. *)
Definition longest_wait (maxRetries baseDelayMs : Z) : Z :=
  fold_right Z.add 0
    (map (fun i => Z.max (baseDelayMs * 2 ^ Z.of_nat i) 10000)
         (seq 0 (Z.to_nat (maxRetries - 1)))).

(** * The upload: [uploadPDF], [getFileDownloadUrl] and the drop zone *)

(** String.prototype.toLowerCase on a string with a character outside ASCII
    is a table of Unicode. *)
Class Casing : Type := {
  unicode_toLowerCase : string -> string
}.

Module Text.

Definition lower_ascii (c : ascii) : ascii :=
  let n := Str.code c in
  if (65 <=? n) && (n <=? 90) then ascii_of_nat (Z.to_nat (n + 32)) else c.

(** String.prototype.toLowerCase *)
Definition toLowerCase `{Casing} (s : string) : string :=
  if Str.is_ascii s then Str.map_ascii lower_ascii s
  else unicode_toLowerCase s.

(** String.prototype.endsWith *)
Definition endsWith (suffix s : string) : bool :=
  prefix (Str.rev suffix) (Str.rev s).

End Text.

Record File : Type := {
  file_name : string;
  file_type : string;
  file_size : Z;
  (** what [file.arrayBuffer()] gives *)
  arrayBuffer : result (list byte)
}.

(** A value of a form field: a file or a string. *)
Inductive entry : Type :=
| FileEntry (f : File)
| TextEntry (s : string).

Record User : Type := { user_id : string }.

Record StoreArgs : Type := {
  store_userId : string;
  fileId : option json;
  fileName : string;
  size : Z;
  mimeType : string
}.

(** What an action does to the outside, in order. *)
Inductive call : Type :=
| GenerateUploadUrl
| Post (uploadUrl contentType : string) (body : list byte)
| StoreReceipt (args : StoreArgs)
| GetReceiptDownloadUrl (fileId : option json)
| SendEvent (downloadUrl : option string) (receiptId : string)
| Say (l : level) (text : string).

(** Everything [uploadPDF] reads from the outside: the signed-in user, the
    answers of the database, of the storage and of the event service. *)
Record Upstream : Type := {
  currentUser : result (option User);
  generateUploadUrl : result string;
  post : string -> string -> list byte -> response (result json);
  storeReceipt : StoreArgs -> result string;
  getReceiptDownloadUrl : option json -> result (option string);
  send : option string -> string -> result unit
}.

(** The two shapes of the value of [uploadPDF]. *)
Inductive UploadResult : Type :=
| Uploaded (receiptId fileName : string)
| NotUploaded (error : string).

(** The value of [getFileDownloadUrl]. *)
Inductive DownloadUrl : Type :=
| Found (downloadUrl : string)
| NotFound (error : string).

(** A computation of an action: it may throw and it leaves a trail of
    calls. *)
Definition Action (A : Type) : Type := list call -> result A * list call.

Module ActM.

Definition ret {A} (a : A) : Action A := fun t => (inr a, t).
Definition throw {A} (e : exn) : Action A := fun t => (inl e, t).
Definition bind {A B} (c : Action A) (k : A -> Action B) : Action B :=
  fun t => match c t with
           | (inl e, t1) => (inl e, t1)
           | (inr a, t1) => k a t1
           end.
Definition try_catch {A} (c : Action A) (handler : exn -> Action A) : Action A :=
  fun t => match c t with
           | (inl e, t1) => handler e t1
           | r => r
           end.
(** One call to the outside and its answer. *)
Definition ask {A} (c : call) (answer : result A) : Action A :=
  fun t => (answer, (t ++ [c])%list).
Definition say (l : level) (text : string) : Action unit :=
  fun t => (inr tt, (t ++ [Say l text])%list).

End ActM.

Declare Scope action_scope.
Delimit Scope action_scope with action.
Notation "x <- c ;; k" := (ActM.bind c (fun x => k))
  (at level 61, c at next level, right associativity) : action_scope.
Notation "c ;; k" := (ActM.bind c (fun _ => k))
  (at level 61, right associativity) : action_scope.

(** [error instanceof Error ? error.message : "An unknown error occurred"] *)
Definition message_or (unknown : string) (e : exn) : string :=
  match e with
  | Error m | TypeError m => m
  | NotAnError _ => unknown
  end.

Section Upload.

Context `{Casing}.
Variable up : Upstream.

Local Open Scope action_scope.

(** [getFileDownloadUrl(fileId)] *)
Definition getFileDownloadUrl (fileId : option json) : Action DownloadUrl :=
  ActM.try_catch
    (downloadUrl <- ActM.ask (GetReceiptDownloadUrl fileId)
                             (getReceiptDownloadUrl up fileId) ;;
     match downloadUrl with
     | Some u =>
         if Str.truthy u then ActM.ret (Found u)
         else ActM.throw (Error "Download URL not found")
     | None => ActM.throw (Error "Download URL not found")
     end)
    (fun e =>
       ActM.say Err ("Error getting file download URL: " ++ message e) ;;
       ActM.ret (NotFound (message_or "An unknown error occurred" e))).

(** The check of the file type in [uploadPDF]. *)
Definition is_pdf_on_server (file : File) : bool :=
  Str.includes "pdf" (file_type file)
  || Text.endsWith ".pdf" (Text.toLowerCase (file_name file)).

(** [fileUrl.downloadUrl] *)
Definition downloadUrl_of (fileUrl : DownloadUrl) : option string :=
  match fileUrl with
  | Found u => Some u
  | NotFound _ => None
  end.

(** [uploadPDF(formData)], [file] being [formData.get("file")]. *)
Definition uploadPDF (file : option entry) : Action UploadResult :=
  fun t =>
    match currentUser up with
    | inl e => (inl e, t)
    | inr None => (inr (NotUploaded "User not authenticated"), t)
    | inr (Some user) =>
        ActM.try_catch
          (match file with
           | None => ActM.ret (NotUploaded "No file provided")
           | Some (TextEntry EmptyString) =>
               ActM.ret (NotUploaded "No file provided")
           | Some (TextEntry _) =>
               ActM.throw (TypeError "Cannot read properties of undefined (reading 'includes')")
           | Some (FileEntry file) =>
               if negb (is_pdf_on_server file)
               then ActM.ret (NotUploaded "Only PDF files are allowed")
               else
                 uploadUrl <- ActM.ask GenerateUploadUrl (generateUploadUrl up) ;;
                 bytes <- (fun t => (arrayBuffer file, t)) ;;
                 uploadResponse <-
                   ActM.ask (Post uploadUrl (file_type file) bytes)
                            (match post up uploadUrl (file_type file) bytes with
                             | Rejects e => inl e
                             | Responds ok status statusText body =>
                                 if ok then inr body
                                 else inl (Error ("Failed to upload file :"
                                                  ++ statusText))
                             end) ;;
                 body <- (fun t => (uploadResponse, t)) ;;
                 storageId <- (fun t => (JS.get body "storageId", t)) ;;
                 let args := {| store_userId := user_id user;
                                fileId := storageId;
                                fileName := file_name file;
                                size := file_size file;
                                mimeType := file_type file |} in
                 receiptId <- ActM.ask (StoreReceipt args) (storeReceipt up args) ;;
                 fileUrl <- getFileDownloadUrl storageId ;;
                 ActM.try_catch
                   (ActM.ask (SendEvent (downloadUrl_of fileUrl) receiptId)
                             (send up (downloadUrl_of fileUrl) receiptId))
                   (fun inngestError =>
                      ActM.say Warn ("Inngest event failed (this is expected if INNGEST_SIGNING_KEY is not configured): "
                                     ++ message inngestError)) ;;
                 ActM.ret (Uploaded receiptId (file_name file))
           end)
          (fun e =>
             ActM.say Err ("Server action upload error: " ++ message e) ;;
             ActM.ret (NotUploaded (message_or "An unknown error occurred" e)))
          t
    end.

End Upload.

(** ** PDFDropzone

    The handlers of the component, as the list of what they do in order:
    the state updates they request, the dialogs, the calls of the server
    action and the navigation. *)

Inductive effect : Type :=
| PreventDefault
| SetIsDraggingOver (b : bool)
| SetIsUploading (b : bool)
| Alert (text : string)
| CallUploadPDF (file : File)
| AppendUploadedFiles (names : list string)
| ClearUploadedFilesAfter (ms : Z)
| RouterPush (path : string)
| ConsoleError (text : string).

Section Dropzone.

Context `{Casing}.

(** The signed-in user of [useUser()]. *)
Variable user : option User.
(** What the call number [i] (from 0) of the server action gives. *)
Variable uploadPDF_result : nat -> File -> result UploadResult.

(** The filter of [handleUpload]. *)
Definition is_pdf_on_client (file : File) : bool :=
  String.eqb (file_type file) "application/pdf"
  || Text.endsWith ".pdf" (Text.toLowerCase (file_name file)).

(** The loop over [pdfFiles], from the call number [i]. *)
Fixpoint upload_each (i : nat) (pdfFiles : list File)
         (newUploadedFiles : list string) : result (list string) * list effect :=
  match pdfFiles with
  | [] => (inr newUploadedFiles, [])
  | file :: rest =>
      match uploadPDF_result i file with
      | inl e => (inl e, [CallUploadPDF file])
      | inr (NotUploaded error) => (inl (Error error), [CallUploadPDF file])
      | inr (Uploaded _ _) =>
          let (r, effects) :=
            upload_each (S i) rest (newUploadedFiles ++ [file_name file])%list in
          (r, CallUploadPDF file :: effects)
      end
  end.

Definition handleUpload (files : list File) : list effect :=
  match user with
  | None => [Alert "Please sign in to upload files"]
  | Some _ =>
      let pdfFiles := filter is_pdf_on_client files in
      match pdfFiles with
      | [] => [Alert "Please drop only PDF files."]
      | _ =>
          (SetIsUploading true ::
           match upload_each 0 pdfFiles [] with
           | (inr newUploadedFiles, effects) =>
               effects ++ [AppendUploadedFiles newUploadedFiles;
                           ClearUploadedFilesAfter 5000;
                           RouterPush "/receipts"]
           | (inl error, effects) =>
               effects ++ [ConsoleError ("Upload failed: " ++ message error);
                           Alert ("Upload failed: "
                                  ++ message_or "Unknown error" error)]
           end ++ [SetIsUploading false])%list
      end
  end.

Definition handleDrop (files : list File) : list effect :=
  (PreventDefault :: SetIsDraggingOver false ::
   match user with
   | None => [Alert "Please sign in to upload files"]
   | Some _ =>
       match files with
       | [] => []
       | _ => handleUpload files
       end
   end)%list.

(** The [onDrop] of the zone. *)
Definition onDrop (isFeatureEnabled : bool) (files : list File) : list effect :=
  let isUserAuthenticated := match user with Some _ => true | None => false end in
  let canUpload := isUserAuthenticated && isFeatureEnabled in
  if canUpload then handleDrop files else [PreventDefault].

End Dropzone.

(** The files that a run of a handler sent to the server action. *)
Definition sent_files (effects : list effect) : list File :=
  flat_map (fun e => match e with CallUploadPDF f => [f] | _ => [] end) effects.

Definition navigates (effects : list effect) : bool :=
  existsb (fun e => match e with RouterPush _ => true | _ => false end) effects.

Definition lists_files (effects : list effect) : bool :=
  existsb (fun e => match e with AppendUploadedFiles _ => true | _ => false end)
          effects.

Definition alerts (effects : list effect) : list string :=
  flat_map (fun e => match e with Alert t => [t] | _ => [] end) effects.

(** The calls of an action that reach the storage, the database or the
    event service. *)
Definition outbound (c : call) : bool :=
  match c with
  | Say _ _ => false
  | _ => true
  end.


Definition sends (c : call) : bool :=
  match c with SendEvent _ _ => true | _ => false end.

Module Upload.

#[export] Instance casing : Casing := {|
  unicode_toLowerCase := fun s => s
|}.

Definition scan : File := {|
  file_name := "Scan.PDF";
  file_type := EmptyString;
  file_size := 8;
  arrayBuffer := inr Sample.pdf
|}.

Definition notes : File := {|
  file_name := "notes.txt";
  file_type := "text/plain";
  file_size := 5;
  arrayBuffer := inr []
|}.

Definition invoice : File := {|
  file_name := "invoice";
  file_type := "application/pdf";
  file_size := 8;
  arrayBuffer := inr Sample.pdf
|}.

Definition ada : User := {| user_id := "user_1" |}.

(** A deployment where the storage and the database answer, the download
    URL is not found and the event service refuses the event. *)
Definition upstream : Upstream := {|
  currentUser := inr (Some ada);
  generateUploadUrl := inr "https://storage.test/upload";
  post := fun _ _ _ =>
    Responds true 200 "OK" (inr (JObj [("storageId", JStr "kg2")]));
  storeReceipt := fun _ => inr "receipt_1";
  getReceiptDownloadUrl := fun _ => inr None;
  send := fun _ _ => inl (Error "signing key missing")
|}.

(** The storage refuses the bytes. *)
Definition refusing : Upstream := {|
  currentUser := inr (Some ada);
  generateUploadUrl := inr "https://storage.test/upload";
  post := fun _ _ _ => Responds false 413 "Payload Too Large" (inr JNull);
  storeReceipt := fun _ => inr "receipt_1";
  getReceiptDownloadUrl := fun _ => inr (Some "https://storage.test/kg2");
  send := fun _ _ => inr tt
|}.

(** The server action takes the first file and refuses the second. *)
Definition second_fails (i : nat) (f : File) : result UploadResult :=
  match i with
  | O => inr (Uploaded "receipt_1" (file_name f))
  | _ => inr (NotUploaded "Failed to upload file :Payload Too Large")
  end.

Definition all_pass (i : nat) (f : File) : result UploadResult :=
  inr (Uploaded "receipt_1" (file_name f)).

End Upload.

(** [up] with other answers of the download URL query and of the event
    service. *)
Definition with_dispatch (up : Upstream)
           (query : option json -> result (option string))
           (event_service : option string -> string -> result unit) : Upstream := {|
  currentUser := currentUser up;
  generateUploadUrl := generateUploadUrl up;
  post := post up;
  storeReceipt := storeReceipt up;
  getReceiptDownloadUrl := query;
  send := event_service
|}.

(** [fileUrl.downloadUrl] for the answer [found] of the query. *)
Definition found_url (found : result (option string)) : option string :=
  match found with
  | inr (Some u) => if Str.truthy u then Some u else None
  | _ => None
  end.

(** The server action took the file. *)
Definition accepted (r : result UploadResult) : bool :=
  match r with
  | inr (Uploaded _ _) => true
  | _ => false
  end.

(** What the loop of [handleUpload] throws on the answer [r]. *)
Definition refusal (r : result UploadResult) : option exn :=
  match r with
  | inl e => Some e
  | inr (NotUploaded error) => Some (Error error)
  | inr (Uploaded _ _) => None
  end.

(** No grave accent in [s]. *)
Definition no_backtick (s : string) : bool :=
  forallb (fun c => negb (Str.code c =? 96)) (list_ascii_of_string s).

(** [s] begins with a white space or a line terminator of JavaScript. *)
Definition starts_with_space (s : string) : bool :=
  match s with
  | String c1 r1 =>
      Str.ws1 c1
      || match r1 with
         | String c2 r2 =>
             Str.ws2 c1 c2
             || match r2 with
                | String c3 _ => Str.ws3 c1 c2 c3
                | EmptyString => false
                end
         | EmptyString => false
         end
  | EmptyString => false
  end.

(** [s] ends with one; the bytes are read from the end. *)
Definition ends_with_space (s : string) : bool :=
  match Str.rev s with
  | String c1 r1 =>
      Str.ws1 c1
      || match r1 with
         | String c2 r2 =>
             Str.ws2 c2 c1
             || match r2 with
                | String c3 _ => Str.ws3 c3 c2 c1
                | EmptyString => false
                end
         | EmptyString => false
         end
  | EmptyString => false
  end.

(** The text fields of a receipt that [validateReceiptData] trims. *)
Definition trimmed_texts (r : ReceiptData) : list string :=
  ([merchant_name (merchant r); address (merchant r); contact (merchant r);
    date (transaction r); receipt_number (transaction r);
    payment_method (transaction r)]
   ++ map item_name (items r))%list.

(** [env] without the credential. *)
Definition without_key (env : Env) : Env :=
  {| url := url env;
     receiptId := receiptId env;
     GEMINI_API_KEY := None;
     GEMINI_MODEL := GEMINI_MODEL env;
     clock := clock env;
     document := document env;
     sdk := sdk env;
     models := models env;
     generation := generation env;
     mutation := mutation env;
     track := track env |}.

(** * Properties *)

(** ** The error monad *)

Lemma bind_inr {A B} (c : result A) (k : A -> result B) (b : B) :
  bind c k = inr b -> exists a, c = inr a /\ k a = inr b.
Proof.
  destruct c as [e | a]; simpl; intros E; [discriminate | eauto].
Qed.

Lemma bind_inl {A B} (c : result A) (k : A -> result B) (e : exn) :
  bind c k = inl e -> c = inl e \/ exists a, c = inr a /\ k a = inl e.
Proof.
  destruct c as [e' | a]; simpl; intros E; [left; congruence | right; eauto].
Qed.

Lemma only_TypeError_ret {A} (a : A) : only_TypeError (ret a).
Proof. intros e E; discriminate. Qed.

Lemma only_TypeError_bind {A B} (c : result A) (k : A -> result B) :
  only_TypeError c -> (forall a, c = inr a -> only_TypeError (k a)) ->
  only_TypeError (bind c k).
Proof.
  intros Hc Hk e E. apply bind_inl in E as [E | (a & Ea & E)].
  - exact (Hc e E).
  - exact (Hk a Ea e E).
Qed.

Ltac inv_bind H :=
  let a := fresh "v" in
  let Ea := fresh "E" in
  apply bind_inr in H as (a & Ea & H).

(** ** Values *)

(** Number(...) on some strings: numeric text with white space around it,
    signed zero, the empty string, a hexadecimal integer, and text that is
    not a numeric literal. *)
Example StringToNumber_examples :
  map Parse.StringToNumber [ "0"; "-0"; " 12 "; "0x1F"; "1e-400"; "1,2"; "12px" ]
  = [ Num.zero; S754_zero true; Num.of_Z 12; Num.of_Z 31; Num.zero;
      Num.nan; Num.nan ]
  /\ Parse.StringToNumber EmptyString = Num.zero
  /\ Parse.StringToNumber "108.5" = S754_finite false 7635008743276544 (-46).
Proof. repeat split. Qed.

Example iso_date_examples :
  map Date.iso_date [ 0; -1; 951782400000; 1762128000000 ]
  = [ "1970-01-01"; "1969-12-31"; "2000-02-29"; "2025-11-03" ].
Proof. reflexivity. Qed.

Lemma json_ind' (P : json -> Prop) :
  P JNull -> (forall b, P (JBool b)) -> (forall x, P (JNum x)) ->
  (forall s, P (JStr s)) ->
  (forall elems, Forall P elems -> P (JArr elems)) ->
  (forall props, P (JObj props)) ->
  forall v, P v.
Proof.
  intros HN HB HX HS HA HO. fix IH 1.
  intros [ | b | x | s | elems | props ];
    [ exact HN | apply HB | apply HX | apply HS | apply HA | apply HO ].
  induction elems as [ | v rest IHrest ]; constructor;
    [ apply IH | exact IHrest ].
Qed.

Section ValueFacts.

Context `{Host}.

Lemma get_not_null v k : v <> JNull -> JS.get v k = ret (JS.prop v k).
Proof. destruct v; simpl; congruence. Qed.

Lemma or_empty_object_not_null v : JS.or_empty_object v <> JNull.
Proof.
  destruct v as [ [ | b | x | s | l | p ] | ]; simpl; try discriminate.
  - destruct b; discriminate.
  - destruct (Num.truthy x); discriminate.
  - destruct (Str.truthy s); discriminate.
Qed.

Lemma only_TypeError_get v k : only_TypeError (JS.get v k).
Proof.
  destruct v; simpl; try apply only_TypeError_ret.
  intros e E. injection E as <-. eauto.
Qed.

Lemma only_TypeError_object props :
  only_TypeError (JS.object_to_primitive props).
Proof.
  unfold JS.object_to_primitive. destruct (JS.lookup _ props).
  - intros e E. injection E as <-. eauto.
  - apply only_TypeError_ret.
Qed.

Lemma only_TypeError_ToString v : only_TypeError (JS.ToString v).
Proof.
  induction v as [ | b | x | s | elems IH | props ] using json_ind';
    try apply only_TypeError_ret.
  - destruct b; apply only_TypeError_ret.
  - simpl. induction IH as [ | v rest Hv _ IHrest ].
    + apply only_TypeError_ret.
    + apply only_TypeError_bind.
      * destruct v; try exact Hv. apply only_TypeError_ret.
      * intros sx _. destruct rest as [ | v' rest' ].
        -- apply only_TypeError_ret.
        -- apply only_TypeError_bind; [ exact IHrest | ].
           intros; apply only_TypeError_ret.
  - apply only_TypeError_object.
Qed.

Lemma only_TypeError_String v : only_TypeError (JS.String_ v).
Proof.
  destruct v; simpl; [ apply only_TypeError_ToString | apply only_TypeError_ret ].
Qed.

Lemma only_TypeError_Number v : only_TypeError (JS.Number_ v).
Proof.
  destruct v as [ [ | b | x | s | l | p ] | ]; simpl JS.Number_;
    try apply only_TypeError_ret.
  - apply only_TypeError_bind;
      [ apply (only_TypeError_ToString (JArr l)) | intros; apply only_TypeError_ret ].
  - apply only_TypeError_bind;
      [ apply only_TypeError_object | intros; apply only_TypeError_ret ].
Qed.

Lemma only_TypeError_String_or v dflt : only_TypeError (JS.String_or v dflt).
Proof.
  unfold JS.String_or. destruct (JS.truthy v);
    [ apply only_TypeError_String | apply only_TypeError_ret ].
Qed.

Lemma only_TypeError_Number_or v dflt : only_TypeError (JS.Number_or v dflt).
Proof.
  unfold JS.Number_or. apply only_TypeError_bind;
    [ apply only_TypeError_Number | intros; apply only_TypeError_ret ].
Qed.

End ValueFacts.

Create HintDb type_error.

#[local] Hint Resolve only_TypeError_ret only_TypeError_get
  only_TypeError_String only_TypeError_String_or only_TypeError_Number_or
  : type_error.

Ltac only_type_error :=
  repeat (first
    [ solve [ auto with type_error ]
    | apply only_TypeError_bind; [ | intros ? _ ]
    | match goal with
      | |- only_TypeError (if ?b then _ else _) => destruct b
      | |- only_TypeError (match ?x with _ => _ end) => destruct x
      end ]).

(** ** validateReceiptData *)

Section ValidateFacts.

Context `{Host}.

Lemma only_TypeError_item item : only_TypeError (normalize_item item).
Proof. unfold normalize_item. only_type_error. Qed.

Lemma only_TypeError_items l : only_TypeError (map_items l).
Proof.
  induction l as [ | x rest IH ]; simpl; [ apply only_TypeError_ret | ].
  apply only_TypeError_bind; [ apply only_TypeError_item | intros y _ ].
  apply only_TypeError_bind; [ exact IH | intros; apply only_TypeError_ret ].
Qed.

Lemma validate_primitive_root c d :
  primitive_root d = true -> validateReceiptData c d = inl InvalidShape.
Proof.
  destruct d as [ | b | x | s | l | p ]; try discriminate; intros _;
    unfold validateReceiptData; simpl.
  - reflexivity.
  - destruct b; reflexivity.
  - destruct (Num.truthy x); reflexivity.
  - destruct (Str.truthy s); reflexivity.
Qed.

Lemma validate_structured_root c d :
  primitive_root d = false -> only_TypeError (validateReceiptData c d).
Proof.
  intros Hd. unfold validateReceiptData.
  replace (negb (JS.truthy (Some d)) || negb (JS.typeof_object d)) with false
    by (destruct d; try discriminate; reflexivity).
  pose proof only_TypeError_items.
  only_type_error.
Qed.

(** An array root has none of the properties read: it is normalized like
    the empty object. *)
Lemma validate_array_root c l :
  validateReceiptData c (JArr l) = validateReceiptData c (JObj []).
Proof. reflexivity. Qed.

Lemma validate_empty_object c :
  validateReceiptData c (JObj []) =
  inr {| merchant := {| merchant_name := "Unknown Merchant";
                        address := EmptyString;
                        contact := EmptyString |};
         transaction :=
           {| date := Str.trim (Date.iso_date (new_Date c));
              receipt_number := Str.trim ("REC" ++ Str.of_Z (Date_now c));
              payment_method := "Unknown" |};
         items := [];
         totals := {| subtotal := Num.zero; tax := Num.zero;
                      total := Num.zero; currency := "USD" |} |}.
Proof. reflexivity. Qed.

Lemma validate_root c d r :
  validateReceiptData c d = inr r -> primitive_root d = false.
Proof.
  intros E. destruct (primitive_root d) eqn:P; [ | reflexivity ].
  rewrite (validate_primitive_root c d P) in E. discriminate.
Qed.

(** The [items] of a result are the images of the elements of [d.items]
    when that is an array, and empty otherwise. *)
Lemma validate_items c d r :
  validateReceiptData c d = inr r ->
  match JS.prop d "items" with
  | Some (JArr elems) => map_items elems = inr (items r)
  | _ => items r = []
  end.
Proof.
  intros E. pose proof (validate_root c d r E) as P.
  assert (d <> JNull) as Hd by (destruct d; discriminate).
  unfold validateReceiptData in E.
  replace (negb (JS.truthy (Some d)) || negb (JS.typeof_object d)) with false
    in E by (destruct d; try discriminate; reflexivity).
  repeat inv_bind E.
  injection E as <-. cbn [items].
  match goal with
  | Hi : JS.get d "items" = inr ?di |- _ =>
      rewrite (get_not_null d "items" Hd) in Hi; injection Hi as <-
  end.
  match goal with
  | Hm : match JS.prop d "items" with _ => _ end = inr _ |- _ =>
      destruct (JS.prop d "items") as [ [ | | | | elems | ] | ];
      first [ exact Hm | injection Hm as <-; reflexivity ]
  end.
Qed.

Lemma map_items_Forall2 l its :
  map_items l = inr its ->
  Forall2 (fun item it => normalize_item item = inr it) l its.
Proof.
  revert its. induction l as [ | x rest IH ]; simpl; intros its E.
  - injection E as <-. constructor.
  - inv_bind E. inv_bind E. injection E as <-. constructor; auto.
Qed.

(** What [normalize_item] returns, field by field. *)
Lemma normalize_item_inr item it :
  normalize_item item = inr it ->
  item <> JNull /\
  (exists s, JS.String_or (JS.prop item "name") "Item" = inr s
             /\ item_name it = Str.trim s) /\
  JS.Number_or (JS.prop item "quantity") Num.one = inr (quantity it) /\
  JS.Number_or (JS.prop item "unitPrice") Num.zero = inr (unitPrice it) /\
  JS.Number_or (JS.prop item "totalPrice") Num.zero = inr (totalPrice it).
Proof.
  intros E.
  assert (item <> JNull) as Hi by (intros ->; discriminate).
  unfold normalize_item in E. rewrite !(get_not_null item _ Hi) in E.
  cbn [bind ret] in E.
  repeat inv_bind E. injection E as <-. cbn.
  repeat split; eauto.
Qed.

Lemma Number_or_inr v dflt n :
  JS.Number_or v dflt = inr n ->
  exists x, JS.Number_ v = inr x /\ n = if Num.truthy x then x else dflt.
Proof.
  unfold JS.Number_or. intros E. inv_bind E. injection E as <-. eauto.
Qed.

Lemma Forall2_nth_error {A B} (R : A -> B -> Prop) l l' i a :
  Forall2 R l l' -> nth_error l i = Some a ->
  exists b, nth_error l' i = Some b /\ R a b.
Proof.
  intros F. revert i. induction F as [ | x y l l' Hxy _ IH ]; intros [ | i ] E;
    simpl in *; try discriminate.
  - injection E as <-. eauto.
  - eauto.
Qed.

Lemma validate_structured d :
  primitive_root d = false ->
  negb (JS.truthy (Some d)) || negb (JS.typeof_object d) = false /\ d <> JNull.
Proof. destruct d; try discriminate; split; (reflexivity || discriminate). Qed.

(** Two reads of the clock are all that [validateReceiptData] takes from
    outside its argument. *)
Lemma validate_two_clocks c1 c2 d :
  map_result without_clock_fields (validateReceiptData c1 d)
  = map_result without_clock_fields (validateReceiptData c2 d)
  /\ (JS.truthy (JS.prop (transaction_of d) "date") = true ->
      JS.truthy (JS.prop (transaction_of d) "receipt_number") = true ->
      validateReceiptData c1 d = validateReceiptData c2 d).
Proof.
  destruct (primitive_root d) eqn:P.
  { rewrite !(validate_primitive_root _ d P). split; reflexivity. }
  destruct (validate_structured d P) as [G Hd].
  unfold validateReceiptData, transaction_of. rewrite G.
  rewrite !(get_not_null d _ Hd). cbn [bind ret].
  rewrite !(get_not_null _ _ (or_empty_object_not_null _)). cbn [bind ret].
  destruct (JS.truthy (JS.prop (JS.or_empty_object (JS.prop d "transaction")) "date"));
  destruct (JS.truthy (JS.prop (JS.or_empty_object (JS.prop d "transaction")) "receipt_number"));
  repeat match goal with
         | |- context [bind ?c _] => destruct c; cbn [bind ret map_result]
         end;
  split; solve [ reflexivity | discriminate | intros; discriminate ].
Qed.

End ValidateFacts.

(** ** retryWithBackoff *)

Lemma message_as_Error e : message (as_Error e) = message e.
Proof. destruct e; reflexivity. Qed.

Lemma isRateLimit_as_Error e : isRateLimit (as_Error e) = isRateLimit e.
Proof. unfold isRateLimit. rewrite message_as_Error. reflexivity. Qed.

Lemma delayMs_rate_limited base attempt e :
  isRateLimit e = true ->
  delayMs base attempt e = Z.max (base * 2 ^ attempt) 10000.
Proof. unfold delayMs. intros ->. reflexivity. Qed.

Lemma delayMs_other base attempt e :
  isRateLimit e = false -> delayMs base attempt e = base * 2 ^ attempt.
Proof. unfold delayMs. intros ->. reflexivity. Qed.

Section RetryFacts.

Context {T : Type}.
Variable outcome : nat -> result T.
Variables maxRetries base : Z.

Local Abbreviation loop :=
  (retry_loop meter_sleep (fun _ w => w) (scripted outcome) maxRetries base).

Lemma delays_cons a k :
  delays outcome base a (S k)
  = delay_after outcome base a :: delays outcome base (S a) k.
Proof. reflexivity. Qed.

Lemma delays_nth_error k :
  forall a i d,
    nth_error (delays outcome base a k) i = Some d ->
    (i < k)%nat /\ d = delay_after outcome base (a + i).
Proof.
  induction k as [ | k IH ]; intros a i d E.
  - destruct i; discriminate.
  - rewrite delays_cons in E. destruct i as [ | i ]; cbn in E.
    + injection E as <-. rewrite Nat.add_0_r. split; [ lia | reflexivity ].
    + apply IH in E as [Hi ->].
      replace (S a + i)%nat with (a + S i)%nat by lia. split; [ lia | reflexivity ].
Qed.

(** [k] failures, then a success, with attempts to spare. *)
Lemma loop_succeeds v :
  forall k r a ws last,
    (k < r)%nat -> Z.of_nat (a + k) < maxRetries ->
    (forall i, (i < k)%nat -> exists e, outcome (a + i)%nat = inl e) ->
    outcome (a + k)%nat = inr v ->
    loop r (Z.of_nat a) last {| calls := a; waits := ws |}
    = (inr v, {| calls := S (a + k);
                 waits := (ws ++ delays outcome base a k)%list |}).
Proof.
  induction k as [ | k IH ]; intros r a ws last Hr Hm Hfail Hok;
    (destruct r as [ | r ]; [ lia | ]); cbn [retry_loop scripted calls waits].
  - rewrite Nat.add_0_r in Hok |- *. rewrite Hok. cbn.
    rewrite app_nil_r. reflexivity.
  - destruct (Hfail 0%nat ltac:(lia)) as [e He].
    rewrite Nat.add_0_r in He. rewrite He.
    replace (Z.of_nat a <? maxRetries - 1) with true
      by (symmetry; apply Z.ltb_lt; lia).
    replace (Z.of_nat a + 1) with (Z.of_nat (S a)) by lia.
    unfold meter_sleep; cbn [calls waits].
    rewrite (IH r (S a)); try lia.
    + rewrite delays_cons, <- app_assoc. unfold delay_after.
      rewrite He. cbn [failure app].
      replace (S a + k)%nat with (a + S k)%nat by lia. reflexivity.
    + intros i Hi. replace (S a + i)%nat with (a + S i)%nat by lia.
      apply Hfail. lia.
    + replace (S a + k)%nat with (a + S k)%nat by lia. exact Hok.
Qed.

(** Every attempt fails. *)
Lemma loop_exhausts :
  forall r a ws last,
    Z.of_nat (a + r) = maxRetries ->
    (forall i, (i < r)%nat -> exists e, outcome (a + i)%nat = inl e) ->
    loop r (Z.of_nat a) last {| calls := a; waits := ws |}
    = (inl match r with
           | O => match last with
                  | Some e => e
                  | None => Error "Max retries exceeded"
                  end
           | S r' => as_Error (failure (outcome (a + r')%nat))
           end,
       {| calls := (a + r)%nat;
          waits := (ws ++ delays outcome base a (pred r))%list |}).
Proof.
  induction r as [ | r IH ]; intros a ws last Hm Hfail;
    cbn [retry_loop scripted calls waits].
  - cbn. rewrite Nat.add_0_r, app_nil_r. reflexivity.
  - destruct (Hfail 0%nat ltac:(lia)) as [e He].
    rewrite Nat.add_0_r in He. rewrite He.
    replace (Z.of_nat a + 1) with (Z.of_nat (S a)) by lia.
    destruct r as [ | r ].
    + replace (Z.of_nat a <? maxRetries - 1) with false
        by (symmetry; apply Z.ltb_ge; lia).
      cbn. rewrite Nat.add_0_r, He, app_nil_r.
      replace (a + 1)%nat with (S a) by lia. reflexivity.
    + replace (Z.of_nat a <? maxRetries - 1) with true
        by (symmetry; apply Z.ltb_lt; lia).
      unfold meter_sleep; cbn [calls waits].
      rewrite (IH (S a)); try lia.
      * cbn [pred]. rewrite delays_cons, <- app_assoc.
        unfold delay_after. rewrite He. cbn [failure app].
        replace (S a + r)%nat with (a + S r)%nat by lia.
        replace (S a + S r)%nat with (a + S (S r))%nat by lia. reflexivity.
      * intros i Hi. replace (S a + i)%nat with (a + S i)%nat by lia.
        apply Hfail. lia.
Qed.

(** From the last attempt on, nothing is waited for. *)
Lemma loop_last_attempts :
  forall r a last w,
    maxRetries - 1 <= a ->
    waits (snd (loop r a last w)) = waits w.
Proof.
  induction r as [ | r IH ]; intros a last w Ha; cbn [retry_loop].
  - reflexivity.
  - unfold scripted at 1. destruct (outcome (calls w)); [ | reflexivity ].
    replace (a <? maxRetries - 1) with false by (symmetry; apply Z.ltb_ge; lia).
    rewrite IH by lia. reflexivity.
Qed.

(** Whatever the operation does, the delays waited for are those computed
    after its first failures, in order. *)
Lemma loop_waits :
  forall r a ws last,
  exists m,
    waits (snd (loop r (Z.of_nat a) last {| calls := a; waits := ws |}))
    = (ws ++ delays outcome base a m)%list
    /\ (forall i, (i < m)%nat -> exists e, outcome (a + i)%nat = inl e).
Proof.
  induction r as [ | r IH ]; intros a ws last.
  - exists 0%nat. cbn. rewrite app_nil_r. split; [ reflexivity | lia ].
  - destruct (Z.of_nat a <? maxRetries - 1) eqn:Ha.
    + cbn [retry_loop scripted calls waits]. rewrite Ha.
      destruct (outcome a) as [ e | v ] eqn:Ea.
      * replace (Z.of_nat a + 1) with (Z.of_nat (S a)) by lia.
        unfold meter_sleep; cbn [calls waits]; cbv beta.
        destruct (IH (S a) (ws ++ [delayMs base (Z.of_nat a) (as_Error e)])%list
                     (Some (as_Error e))) as (m & Hw & Hf).
        exists (S m). split.
        -- etransitivity; [ exact Hw | ].
           rewrite delays_cons, <- app_assoc. unfold delay_after.
           rewrite Ea. reflexivity.
        -- intros [ | i ] Hi.
           ++ rewrite Nat.add_0_r. eauto.
           ++ replace (a + S i)%nat with (S a + i)%nat by lia. apply Hf. lia.
      * exists 0%nat. cbn. rewrite app_nil_r. split; [ reflexivity | lia ].
    + exists 0%nat. rewrite loop_last_attempts by (apply Z.ltb_ge in Ha; lia).
      cbn. rewrite app_nil_r. split; [ reflexivity | lia ].
Qed.

End RetryFacts.

Section RetryInvariant.

Context {W T : Type}.
Variable sleep : Z -> W -> W.
Variable warn : string -> W -> W.
Variable fn : W -> result T * W.
Variables maxRetries base : Z.
Variable P : W -> Prop.
Hypothesis P_sleep : forall d w, P w -> P (sleep d w).
Hypothesis P_warn : forall t w, P w -> P (warn t w).
Hypothesis P_fn : forall w, P w -> P (snd (fn w)).

(** What the operation, the waits and the warnings preserve, the retries
    preserve. *)
Lemma retry_loop_preserves :
  forall r a last w,
    P w -> P (snd (retry_loop sleep warn fn maxRetries base r a last w)).
Proof.
  induction r as [ | r IH ]; intros a last w Hw; cbn [retry_loop].
  - exact Hw.
  - specialize (P_fn w Hw). destruct (fn w) as [ [ e | v ] w1 ]; cbn [snd] in *.
    + apply IH. destruct (a <? maxRetries - 1); auto.
    + exact P_fn.
Qed.

(** What every invocation establishes holds after a call with at least
    one attempt. *)
Lemma retry_loop_establishes :
  (forall w, P (snd (fn w))) ->
  forall r a last w,
    P (snd (retry_loop sleep warn fn maxRetries base (S r) a last w)).
Proof.
  intros P_est r a last w. cbn [retry_loop].
  specialize (P_est w). destruct (fn w) as [ [ e | v ] w1 ]; cbn [snd] in *.
  - apply retry_loop_preserves. destruct (a <? maxRetries - 1); auto.
  - exact P_est.
Qed.

End RetryInvariant.

(** ** The steps *)

Lemma emit_emits ev w : emit ev w = emits [ev] w.
Proof. reflexivity. Qed.

Lemma emits_emits evs evs' w : emits evs' (emits evs w) = emits (evs ++ evs') w.
Proof. unfold emits; cbn. rewrite app_assoc. reflexivity. Qed.

Lemma no_provider_request_emit ev w :
  provider_request ev = false ->
  no_provider_request w -> no_provider_request (emit ev w).
Proof.
  unfold no_provider_request; cbn. intros Hev Hw.
  apply Forall_app. split; [ exact Hw | constructor; [ exact Hev | constructor ] ].
Qed.

Lemma document_requested_emit env ev w :
  document_requested env w -> document_requested env (emit ev w).
Proof. unfold document_requested; cbn. intros Hw. apply in_or_app. auto. Qed.

Section StepFacts.

Context `{Host}.
Variable env : Env.

Lemma fetch_document_quiet w :
  no_provider_request w -> no_provider_request (snd (fetch_document env w)).
Proof.
  intros Hw. unfold fetch_document.
  assert (no_provider_request
            {| trace := (trace w ++ [FetchDocument (url env)])%list;
               fetched := S (fetched w); generated := generated w |}) as Hw1
    by (apply (no_provider_request_emit (FetchDocument (url env)) w eq_refl Hw)).
  destruct (document env (fetched w)) as [ e | [ | ] st stt body ]; exact Hw1.
Qed.

Lemma fetch_document_requests w :
  document_requested env (snd (fetch_document env w)).
Proof.
  unfold fetch_document, document_requested.
  destruct (document env (fetched w)) as [ e | [ | ] st stt body ]; cbn;
    apply in_or_app; right; left; reflexivity.
Qed.

Lemma fetch_document_keeps_request w :
  document_requested env w ->
  document_requested env (snd (fetch_document env w)).
Proof. intros _. apply fetch_document_requests. Qed.

Lemma retry_fetch_quiet w :
  no_provider_request w ->
  no_provider_request (snd (retry (fetch_document env) w)).
Proof.
  intros Hw. unfold retry, retryWithBackoff.
  apply (retry_loop_preserves _ _ _ _ _ no_provider_request); auto.
  - intros d w'. apply no_provider_request_emit. reflexivity.
  - intros t w'. apply no_provider_request_emit. reflexivity.
  - apply fetch_document_quiet.
Qed.

(** The retried fetch asks for the document at least once. *)
Lemma retry_fetch_requests w :
  document_requested env (snd (retry (fetch_document env) w)).
Proof.
  unfold retry, retryWithBackoff.
  change (Z.to_nat 5) with 5%nat.
  apply (retry_loop_establishes _ _ _ _ _ (document_requested env));
    auto using document_requested_emit, fetch_document_keeps_request,
               fetch_document_requests.
Qed.

Ltac quiet_and_requested :=
  repeat first
    [ assumption
    | apply no_provider_request_emit; [ reflexivity | ]
    | apply document_requested_emit ].

Ltac ends_quietly :=
  repeat split; first [ eexists; reflexivity | solve [ quiet_and_requested ] ].

(** Without a key the first step ends in an exception, after asking for
    the document and before asking the provider for anything. *)
Lemma extract_without_key w :
  unset (GEMINI_API_KEY env) = true ->
  no_provider_request w ->
  (exists e, fst (extract_pdf_data env w) = inl e)
  /\ no_provider_request (snd (extract_pdf_data env w))
  /\ document_requested env (snd (extract_pdf_data env w)).
Proof.
  intros Hkey Hw.
  unfold extract_pdf_data, StepM.try_catch, StepM.bind, console, StepM.do,
    StepM.throw, StepM.ret, StepM.lift.
  set (w1 := emit (Console Log ("Fetching PDF from: " ++ url env)) w).
  assert (no_provider_request w1) as Hw1 by (subst w1; quiet_and_requested).
  pose proof (retry_fetch_quiet w1 Hw1) as Hq.
  pose proof (retry_fetch_requests w1) as Hr.
  destruct (retry (fetch_document env) w1) as [ [ e | pdf ] w2 ];
    cbn [fst snd] in *.
  { ends_quietly. }
  rewrite Hkey.
  destruct (List.length pdf =? 0)%nat; cbn [fst snd];
    [ ends_quietly | ].
  destruct (pdf_signature pdf), (sdk env) as [ e | [] ]; cbn [fst snd];
    ends_quietly.
Qed.

(** When the document arrives at the first request and the SDK loads, the
    exception is the configuration error. *)
Lemma extract_configuration_error w status statusText pdf :
  unset (GEMINI_API_KEY env) = true ->
  document env (fetched w) = Responds true status statusText (inr pdf) ->
  pdf <> [] ->
  sdk env = inr tt ->
  fst (extract_pdf_data env w) = inl ConfigurationError.
Proof.
  intros Hkey Hdoc Hpdf Hsdk.
  unfold extract_pdf_data, StepM.try_catch, StepM.bind, console, StepM.do,
    StepM.throw, StepM.ret, StepM.lift, retry, retryWithBackoff.
  change (Z.to_nat 5) with 5%nat. cbn [retry_loop].
  unfold fetch_document at 1. cbn [emit fetched]. rewrite Hdoc, Hkey, Hsdk.
  destruct pdf as [ | b pdf ]; [ congruence | ].
  cbv beta iota delta [ret List.length Nat.eqb fst].
  destruct (pdf_signature (b :: pdf)); reflexivity.
Qed.

(** The three ways the second step can go. *)
Lemma save_to_database_run extractedData w :
  let args := mutation_args env extractedData in
  save_to_database env extractedData w =
  match mutation env args with
  | inl e =>
      (inl e,
       emits [ Console Log "Saving extracted data to database...";
               Mutation args;
               Console Err ("Error saving to database: " ++ message e) ] w)
  | inr u =>
      match track env u with
      | inl e =>
          (inl e,
           emits [ Console Log "Saving extracted data to database...";
                   Mutation args;
                   Console Log ("Data saved to database for user: " ++ u);
                   Track "scan" u;
                   Console Err ("Error saving to database: " ++ message e) ] w)
      | inr _ =>
          (inr {| success := true;
                  userId := u;
                  saved_receiptId := receiptId env;
                  saved_merchantName := merchant_name (merchant extractedData);
                  totalAmount := total (totals extractedData);
                  saved_currency := currency (totals extractedData);
                  itemCount := Z.of_nat (List.length (items extractedData)) |},
           emits [ Console Log "Saving extracted data to database...";
                   Mutation args;
                   Console Log ("Data saved to database for user: " ++ u);
                   Track "scan" u;
                   Console Log "Event tracked in Schematic" ] w)
      end
  end.
Proof.
  intros args. subst args.
  unfold save_to_database, StepM.try_catch, StepM.bind, console, StepM.do,
    StepM.throw, StepM.ret, StepM.lift.
  destruct (mutation env (mutation_args env extractedData)) as [ e | u ].
  - rewrite !emit_emits, !emits_emits. reflexivity.
  - destruct (track env u) as [ e | [] ];
      rewrite !emit_emits, !emits_emits; reflexivity.
Qed.

End StepFacts.

(** * The claims of the specification *)

(** ** Schema normalizer *)

(** C1, as amended: [validateReceiptData] throws "Invalid receipt data
    structure" exactly when the root is [null] or a primitive (a number, a
    string, a boolean); a root that is an array is accepted and normalized
    like the empty object. *)
Theorem C1_invalid_shape_iff_primitive_root {H : Host} (c : Clock) (d : json) :
  (validateReceiptData c d = inl InvalidShape <-> primitive_root d = true)
  /\ (forall l, d = JArr l ->
      exists r, validateReceiptData c d = inr r
                /\ validateReceiptData c (JObj []) = inr r).
Proof.
  split; [ split | ].
  - intros E. destruct (primitive_root d) eqn:P; [ reflexivity | ].
    destruct (validate_structured_root c d P _ E) as [m Hm]. discriminate.
  - apply validate_primitive_root.
  - intros l ->. rewrite validate_array_root, validate_empty_object. eauto.
Qed.

Lemma C1_witness :
  (primitive_root (JNum Num.one) = true
   /\ validateReceiptData (H := SampleHost.host) Sample.clock1 (JNum Num.one)
      = inl InvalidShape)
  /\ exists r,
       validateReceiptData (H := SampleHost.host) Sample.clock1 (JArr [JNull])
       = inr r
       /\ validateReceiptData (H := SampleHost.host) Sample.clock1 (JObj [])
          = inr r.
Proof.
  split.
  - split; [ reflexivity | ].
    exact (proj2 (proj1 (C1_invalid_shape_iff_primitive_root
                           (H := SampleHost.host) Sample.clock1 (JNum Num.one)))
                 eq_refl).
  - exact (proj2 (C1_invalid_shape_iff_primitive_root
                    (H := SampleHost.host) Sample.clock1 (JArr [JNull]))
                 [JNull] eq_refl).
Defined.

(** C1 as stated fails on a plain array: its root is not an object, and no
    exception is thrown. *)
Lemma C1_counterexample :
  object_root (JArr []) = false
  /\ exists r,
       validateReceiptData (H := SampleHost.host) Sample.clock1 (JArr []) = inr r.
Proof. split; [ reflexivity | eexists; reflexivity ]. Qed.

(** C2, at the failing input: on the object [{"items": [null]}], whose root
    is an object, [validateReceiptData] throws a TypeError. *)
Theorem C2_null_item_throws {H : Host} (c : Clock) :
  object_root (JObj [("items", JArr [JNull])]) = true
  /\ validateReceiptData c (JObj [("items", JArr [JNull])])
     = inl (TypeError "Cannot read properties of null").
Proof. split; reflexivity. Qed.

(** C3: on the empty object the result has the merchant name "Unknown
    Merchant", the currency "USD", no items and the payment method
    "Unknown"; an object with only an [items] that is not an array, such as
    the string "not-a-list", is normalized with no items; and whatever the
    input, a result built from an [items] that is not an array has no
    items. *)
Theorem C3_defaults_and_items {H : Host} (c : Clock) :
  (exists r, validateReceiptData c (JObj []) = inr r
             /\ merchant_name (merchant r) = "Unknown Merchant"
             /\ currency (totals r) = "USD"
             /\ items r = []
             /\ payment_method (transaction r) = "Unknown")
  /\ (forall v, JS.isArray (Some v) = false ->
       exists r, validateReceiptData c (JObj [("items", v)]) = inr r
                 /\ items r = [])
  /\ (forall d r, JS.isArray (JS.prop d "items") = false ->
       validateReceiptData c d = inr r -> items r = []).
Proof.
  split; [ | split ].
  - rewrite validate_empty_object. eexists. repeat split.
  - intros v Hv. destruct v; try discriminate; eexists; split; reflexivity.
  - intros d r Hd E. apply validate_items in E.
    destruct (JS.prop d "items") as [ [ | | | | elems | ] | ];
      first [ exact E | discriminate ].
Qed.

Lemma C3_witness :
  (JS.isArray (Some (JStr "not-a-list")) = false
   /\ exists r,
        validateReceiptData (H := SampleHost.host) Sample.clock1
                            (JObj [("items", JStr "not-a-list")]) = inr r
        /\ items r = [])
  /\ (JS.isArray (JS.prop Sample.no_items "items") = false
      /\ validateReceiptData (H := SampleHost.host) Sample.clock1 Sample.no_items
         = inr Sample.no_items_normalized
      /\ items Sample.no_items_normalized = []).
Proof.
  split.
  - split; [ reflexivity | ].
    exact (proj1 (proj2 (C3_defaults_and_items (H := SampleHost.host) Sample.clock1))
                 (JStr "not-a-list") eq_refl).
  - split; [ reflexivity | split; [ reflexivity | ] ].
    exact (proj2 (proj2 (C3_defaults_and_items (H := SampleHost.host) Sample.clock1))
                 Sample.no_items Sample.no_items_normalized eq_refl eq_refl).
Defined.

(** What the two fields of the transaction that the clock can fill hold in
    a result. *)
Lemma validate_clock_fields {H : Host} (c : Clock) (d : json) (r : ReceiptData) :
  validateReceiptData c d = inr r ->
  (if JS.truthy (JS.prop (transaction_of d) "date")
   then exists s, JS.String_ (JS.prop (transaction_of d) "date") = inr s
                  /\ date (transaction r) = Str.trim s
   else date (transaction r) = Str.trim (Date.iso_date (new_Date c)))
  /\ (if JS.truthy (JS.prop (transaction_of d) "receipt_number")
      then exists s,
          JS.String_ (JS.prop (transaction_of d) "receipt_number") = inr s
          /\ receipt_number (transaction r) = Str.trim s
      else receipt_number (transaction r)
           = Str.trim ("REC" ++ Str.of_Z (Date_now c))).
Proof.
  intros E. pose proof (validate_root c d r E) as P.
  destruct (validate_structured d P) as [G Hd].
  unfold validateReceiptData in E. rewrite G in E.
  rewrite !(get_not_null d _ Hd) in E. cbn [bind ret] in E.
  rewrite !(get_not_null _ _ (or_empty_object_not_null _)) in E.
  cbn [bind ret] in E.
  unfold transaction_of.
  repeat inv_bind E. injection E as <-.
  cbn [transaction date receipt_number].
  split.
  - destruct (JS.truthy (JS.prop (JS.or_empty_object (JS.prop d "transaction"))
                                 "date")).
    + eexists; split; [ eassumption | reflexivity ].
    + match goal with
      | Hd' : ret (Date.iso_date _) = inr _ |- _ => injection Hd' as <-
      end. reflexivity.
  - destruct (JS.truthy (JS.prop (JS.or_empty_object (JS.prop d "transaction"))
                                 "receipt_number")).
    + eexists; split; [ eassumption | reflexivity ].
    + match goal with
      | Hn : ret ("REC" ++ _) = inr _ |- _ => injection Hn as <-
      end. reflexivity.
Qed.

(** C4, as amended: the result of [validateReceiptData] is determined by
    its argument and by two reads of the system clock.  When the input has
    no [transaction.date], the date of the result is the day of
    [new Date()], as [toISOString] prints it before the "T", and when it has
    no [transaction.receipt_number], the receipt number is "REC" followed
    by the time value of [Date.now()]; a field that the input carries is
    the trimmed text of its value, whatever the clock.  So two runs at
    different times differ in these two fields at most: every other field,
    and whether an exception is thrown, does not depend on the clock, and
    nothing at all does when the input carries both. *)
Theorem C4_clock_fills_date_and_receipt_number {H : Host} (c1 c2 : Clock) (d : json) :
  map_result without_clock_fields (validateReceiptData c1 d)
  = map_result without_clock_fields (validateReceiptData c2 d)
  /\ (JS.truthy (JS.prop (transaction_of d) "date") = true ->
      JS.truthy (JS.prop (transaction_of d) "receipt_number") = true ->
      validateReceiptData c1 d = validateReceiptData c2 d)
  /\ (forall r,
         validateReceiptData c1 d = inr r ->
         (JS.truthy (JS.prop (transaction_of d) "date") = false ->
          date (transaction r) = Str.trim (Date.iso_date (new_Date c1)))
         /\ (JS.truthy (JS.prop (transaction_of d) "receipt_number") = false ->
             receipt_number (transaction r)
             = Str.trim ("REC" ++ Str.of_Z (Date_now c1)))
         /\ (JS.truthy (JS.prop (transaction_of d) "date") = true ->
             exists s, JS.String_ (JS.prop (transaction_of d) "date") = inr s
                       /\ date (transaction r) = Str.trim s)
         /\ (JS.truthy (JS.prop (transaction_of d) "receipt_number") = true ->
             exists s,
               JS.String_ (JS.prop (transaction_of d) "receipt_number") = inr s
               /\ receipt_number (transaction r) = Str.trim s)).
Proof.
  split; [ apply validate_two_clocks | ].
  split; [ apply validate_two_clocks | ].
  intros r E. destruct (validate_clock_fields c1 d r E) as [Hdate Hnumber].
  destruct (JS.truthy (JS.prop (transaction_of d) "date"));
    destruct (JS.truthy (JS.prop (transaction_of d) "receipt_number"));
    repeat split; intros; solve [ assumption | discriminate ].
Qed.

(** The empty object at two times: the date is the day of each clock and
    the receipt number carries its time value; an input with both fields is
    normalized alike at both. *)
Lemma C4_witness :
  (exists r,
      validateReceiptData (H := SampleHost.host) Sample.clock1 (JObj []) = inr r
      /\ date (transaction r) = "2025-11-03"
      /\ receipt_number (transaction r) = "REC1762128000456")
  /\ (exists r,
         validateReceiptData (H := SampleHost.host) Sample.clock2 (JObj []) = inr r
         /\ date (transaction r) = "2025-11-04"
         /\ receipt_number (transaction r) = "REC1762214400789")
  /\ validateReceiptData (H := SampleHost.host) Sample.clock1 Sample.dated
     = validateReceiptData (H := SampleHost.host) Sample.clock2 Sample.dated.
Proof.
  split; [ | split ].
  - eexists. split; [ reflexivity | ].
    destruct (proj2 (proj2 (C4_clock_fills_date_and_receipt_number
                              (H := SampleHost.host) Sample.clock1 Sample.clock2
                              (JObj [])))
                    _ eq_refl) as (Hdate & Hnumber & _).
    split.
    + exact (eq_trans (Hdate eq_refl) eq_refl).
    + exact (eq_trans (Hnumber eq_refl) eq_refl).
  - eexists. split; [ reflexivity | ].
    destruct (proj2 (proj2 (C4_clock_fills_date_and_receipt_number
                              (H := SampleHost.host) Sample.clock2 Sample.clock1
                              (JObj [])))
                    _ eq_refl) as (Hdate & Hnumber & _).
    split.
    + exact (eq_trans (Hdate eq_refl) eq_refl).
    + exact (eq_trans (Hnumber eq_refl) eq_refl).
  - exact (proj1 (proj2 (C4_clock_fills_date_and_receipt_number
                           (H := SampleHost.host) Sample.clock1 Sample.clock2
                           Sample.dated))
                 eq_refl eq_refl).
Defined.

(** C4 as stated fails on the empty object: two runs at different times
    return different results. *)
Lemma C4_counterexample :
  validateReceiptData (H := SampleHost.host) Sample.clock1 (JObj [])
  <> validateReceiptData (H := SampleHost.host) Sample.clock2 (JObj []).
Proof. vm_compute. discriminate. Qed.

(** C8, as amended: in every result, each item has a [quantity] that is
    neither zero nor NaN and a [unitPrice] and a [totalPrice] that are not
    NaN; each is the number its field of the input item coerces to, with its
    sign and its fraction, unless that is zero or NaN, which is replaced by
    the default 1, 0 and 0. *)
Theorem C8_items_carry_the_coerced_numbers {H : Host} (c : Clock) (d : json)
        (r : ReceiptData) :
  validateReceiptData c d = inr r ->
  Forall numeric_item (items r)
  /\ (forall elems, JS.prop d "items" = Some (JArr elems) ->
      Forall2 numbers_of elems (items r)).
Proof.
  intros E. apply validate_items in E.
  assert (forall elems its, map_items elems = inr its ->
                            Forall2 numbers_of elems its) as Hmap.
  { intros elems its Em. apply map_items_Forall2 in Em.
    induction Em as [ | item it l its' Hit _ IH ];
      [ constructor | constructor; [ | exact IH ] ].
    apply normalize_item_inr in Hit as (_ & _ & Hq & Hu & Ht).
    apply Number_or_inr in Hq, Hu, Ht. repeat split; assumption. }
  split.
  - destruct (JS.prop d "items") as [ [ | | | | elems | ] | ];
      try (rewrite E; constructor).
    specialize (Hmap elems (items r) E). clear E.
    induction Hmap as [ | item it l its' Hit _ IH ];
      [ constructor | constructor; [ | exact IH ] ].
    destruct Hit as ((q & _ & Hq) & (u & _ & Hu) & (t & _ & Ht)).
    unfold numeric_item. rewrite Hq, Hu, Ht. repeat split.
    + destruct q; reflexivity.
    + destruct u; reflexivity.
    + destruct t; reflexivity.
  - intros elems Hd. rewrite Hd in E. exact (Hmap elems (items r) E).
Qed.

Lemma C8_witness :
  validateReceiptData (H := SampleHost.host) Sample.clock1 Sample.two_items
  = inr Sample.two_items_normalized
  /\ Forall numeric_item (items Sample.two_items_normalized)
  /\ (forall elems,
        JS.prop Sample.two_items "items" = Some (JArr elems) ->
        Forall2 (numbers_of (H := SampleHost.host)) elems
                (items Sample.two_items_normalized)).
Proof.
  split; [ reflexivity | ].
  exact (C8_items_carry_the_coerced_numbers
           (H := SampleHost.host) Sample.clock1 Sample.two_items
           Sample.two_items_normalized eq_refl).
Defined.

(** C8 as stated fails on an item whose quantity and unit price are -1.5:
    the result keeps both, a quantity that is negative and not an integer
    and a unit price that is negative. *)
Lemma C8_counterexample :
  exists r it,
    validateReceiptData (H := SampleHost.host) Sample.clock1
      (JObj [("items",
              JArr [JObj [("quantity", JNum Sample.minus_one_and_a_half);
                          ("unitPrice", JNum Sample.minus_one_and_a_half)]])])
    = inr r
    /\ items r = [it]
    /\ Num.nonneg (quantity it) = false
    /\ Num.is_integer (quantity it) = false
    /\ Num.nonneg (unitPrice it) = false.
Proof. do 2 eexists. repeat split. Qed.

(** C10: when the [quantity] of an item of the input is present and coerces
    to zero, as [0] and ["0"] do, the item of the result has the quantity
    1. *)
Theorem C10_zero_quantity_becomes_one {H : Host} (c : Clock) (d : json)
        (r : ReceiptData) (elems : list json) (i : nat) (item v : json)
        (q : Num.number) :
  validateReceiptData c d = inr r ->
  JS.prop d "items" = Some (JArr elems) ->
  nth_error elems i = Some item ->
  JS.prop item "quantity" = Some v ->
  JS.Number_ (Some v) = inr q ->
  is_zero q = true ->
  exists it, nth_error (items r) i = Some it /\ quantity it = Num.one.
Proof.
  intros E Hd Hi Hv Hq Hz. apply validate_items in E. rewrite Hd in E.
  apply map_items_Forall2 in E.
  destruct (Forall2_nth_error _ _ _ _ _ E Hi) as (it & Hit & Hn).
  exists it. split; [ exact Hit | ].
  apply normalize_item_inr in Hn as (_ & _ & Hn & _).
  apply Number_or_inr in Hn as (x & Hx & ->).
  rewrite Hv, Hq in Hx. injection Hx as <-.
  destruct q; try discriminate. reflexivity.
Qed.

Lemma C10_witness :
  validateReceiptData (H := SampleHost.host) Sample.clock1 Sample.two_items
  = inr Sample.two_items_normalized
  /\ JS.Number_ (H := SampleHost.host) (Some (JStr "0")) = inr Num.zero
  /\ exists it, nth_error (items Sample.two_items_normalized) 1 = Some it
                /\ quantity it = Num.one.
Proof.
  split; [ reflexivity | split; [ reflexivity | ] ].
  exact (C10_zero_quantity_becomes_one
           (H := SampleHost.host) Sample.clock1 Sample.two_items
           Sample.two_items_normalized _ 1 _ (JStr "0") Num.zero
           eq_refl eq_refl eq_refl eq_refl eq_refl eq_refl).
Defined.

(** ** Backoff executor *)



(** C6: after an error whose message contains "429", "rate" or "quota" the
    delay computed is [max (baseDelayMs * 2^attempt) 10000], which is at
    least 10000 ms however small [baseDelayMs * 2^attempt] is; and when
    every failure of the operation is such an error, so is every delay the
    call waits for. *)
Theorem C6_rate_limited_delay_floor {T : Type} (outcome : nat -> result T)
        (maxRetries baseDelayMs : Z) :
  (forall e attempt,
      Str.includes "429" (message e) || Str.includes "rate" (message e)
      || Str.includes "quota" (message e) = true ->
      delayMs baseDelayMs attempt (as_Error e)
      = Z.max (baseDelayMs * 2 ^ attempt) 10000
      /\ 10000 <= delayMs baseDelayMs attempt (as_Error e))
  /\ ((forall i e, outcome i = inl e -> isRateLimit e = true) ->
      forall i d,
        nth_error (waits (snd (run_metered outcome maxRetries baseDelayMs))) i
        = Some d ->
        d = Z.max (baseDelayMs * 2 ^ Z.of_nat i) 10000 /\ 10000 <= d).
Proof.
  split.
  - intros e attempt He.
    rewrite delayMs_rate_limited
      by (rewrite isRateLimit_as_Error; exact He).
    split; [ reflexivity | lia ].
  - intros Hrate i d Hd.
    unfold run_metered, retryWithBackoff, meter0 in Hd.
    destruct (loop_waits outcome maxRetries baseDelayMs
                (Z.to_nat maxRetries) 0%nat [] None) as (m & Hw & Hf).
    change (Z.of_nat 0) with 0 in Hw. rewrite Hw in Hd. cbn [app] in Hd.
    apply delays_nth_error in Hd as [Hi ->]. cbn [Nat.add].
    destruct (Hf i Hi) as [e He]. cbn [Nat.add] in He.
    unfold delay_after. rewrite He. cbn [failure].
    rewrite delayMs_rate_limited
      by (rewrite isRateLimit_as_Error; eauto).
    split; [ reflexivity | lia ].
Qed.

Lemma C6_witness :
  let e := Error "[429 Too Many Requests] Resource has been exhausted" in
  delayMs 2000 0 (as_Error e) = 10000
  /\ nth_error (waits (snd (run_metered (Sample.fails_then 2 e 7) 5 2000))) 1
     = Some 10000
  /\ 10000 <= 10000.
Proof.
  split.
  - exact (proj1 (proj1 (C6_rate_limited_delay_floor
                           (Sample.fails_then 2 (Error "[429 Too Many Requests] Resource has been exhausted") 7)
                           5 2000)
                        (Error "[429 Too Many Requests] Resource has been exhausted")
                        0 eq_refl)).
  - split; [ reflexivity | ].
    assert (forall i e,
              Sample.fails_then 2 (Error "[429 Too Many Requests] Resource has been exhausted") 7 i
              = inl e -> isRateLimit e = true) as Hrate.
    { intros i e. unfold Sample.fails_then.
      destruct (i <? 2)%nat; intros E; [ injection E as <-; reflexivity | discriminate ]. }
    exact (proj2 (proj2 (C6_rate_limited_delay_floor
                           (Sample.fails_then 2 (Error "[429 Too Many Requests] Resource has been exhausted") 7)
                           5 2000)
                        Hrate 1%nat 10000 eq_refl)).
Defined.

(** ** Persistence writer *)

(** C7, as amended: when the mutation succeeds and the usage report fails,
    the error of the report is logged and thrown again, so the step fails
    and is left to the retries of the host scheduler; the step itself has
    called the mutation once and calls nothing that would undo it; and when
    the mutation fails, its error is logged and thrown and no usage event is
    reported. *)
Theorem C7_save_step_outcomes {H : Host} (env : Env) (extractedData : ReceiptData)
        (w : World) :
  let args := mutation_args env extractedData in
  (forall u e,
      mutation env args = inr u -> track env u = inl e ->
      save_to_database env extractedData w
      = (inl e,
         emits [ Console Log "Saving extracted data to database...";
                 Mutation args;
                 Console Log ("Data saved to database for user: " ++ u);
                 Track "scan" u;
                 Console Err ("Error saving to database: " ++ message e) ] w))
  /\ (forall e,
      mutation env args = inl e ->
      save_to_database env extractedData w
      = (inl e,
         emits [ Console Log "Saving extracted data to database...";
                 Mutation args;
                 Console Err ("Error saving to database: " ++ message e) ] w)).
Proof.
  intros args. split.
  - intros u e Hm Ht. rewrite save_to_database_run. fold args.
    rewrite Hm, Ht. reflexivity.
  - intros e Hm. rewrite save_to_database_run. fold args.
    rewrite Hm. reflexivity.
Qed.

Lemma C7_witness :
  (let env := Sample.env None (inr "user_1") (inl (Error "usage service unavailable")) in
   mutation env (mutation_args (H := SampleHost.host) env Sample.receipt)
   = inr "user_1"
   /\ track env "user_1" = inl (Error "usage service unavailable")
   /\ fst (save_to_database (H := SampleHost.host) env Sample.receipt world0)
      = inl (Error "usage service unavailable"))
  /\ (let env := Sample.env None (inl (Error "write conflict")) (inr tt) in
      mutation env (mutation_args (H := SampleHost.host) env Sample.receipt)
      = inl (Error "write conflict")
      /\ filter is_track
           (trace (snd (save_to_database (H := SampleHost.host) env
                                         Sample.receipt world0))) = []).
Proof.
  split.
  - split; [ reflexivity | split; [ reflexivity | ] ].
    exact (f_equal fst
             (proj1 (C7_save_step_outcomes
                       (H := SampleHost.host)
                       (Sample.env None (inr "user_1")
                                   (inl (Error "usage service unavailable")))
                       Sample.receipt world0)
                    "user_1" (Error "usage service unavailable") eq_refl eq_refl)).
  - split; [ reflexivity | ].
    exact (f_equal (fun rw => filter is_track (trace (snd rw)))
             (proj2 (C7_save_step_outcomes
                       (H := SampleHost.host)
                       (Sample.env None (inl (Error "write conflict")) (inr tt))
                       Sample.receipt world0)
                    (Error "write conflict") eq_refl)).
Defined.

(** C7 as stated fails when the database answers and the usage report does
    not: the save step ends with the exception of the report instead of
    succeeding. *)
Lemma C7_counterexample :
  let env := Sample.env None (inr "user_1") (inl (Error "usage service unavailable")) in
  mutation env (mutation_args (H := SampleHost.host) env Sample.receipt)
  = inr "user_1"
  /\ track env "user_1" = inl (Error "usage service unavailable")
  /\ forall v,
       fst (save_to_database (H := SampleHost.host) env Sample.receipt world0)
       <> inr v.
Proof. repeat split. intros v. vm_compute. discriminate. Qed.

(** ** Extraction step *)

(** With a credential the same run goes on to the provider: the
    connectivity test, then the extraction call. *)
Example extract_with_key :
  exists r w,
    extract_pdf_data (H := SampleHost.host) (Sample.env (Some "k") (inr "user_1") (inr tt)) world0
    = (inr r, w)
    /\ filter provider_request (trace w)
       = [ ProbeProvider "k";
           GenerateContent "models/gemini-2.5-flash" Sample.pdf ].
Proof. do 2 eexists. split; reflexivity. Qed.

(** * Further properties *)

(** ** The summary *)

Lemma fraction_positive x :
  0 <= fst (Fixed.fraction x) /\ 0 < snd (Fixed.fraction x).
Proof.
  destruct x as [ s | s | | s m e ]; cbn [Fixed.fraction fst snd]; try lia.
  destruct (0 <=? e) eqn:He; cbn [fst snd].
  - apply Z.leb_le in He. split; [ | lia ].
    apply Z.mul_nonneg_nonneg; [ lia | apply Z.pow_nonneg; lia ].
  - apply Z.leb_gt in He. split; [ lia | apply Z.pow_pos_nonneg; lia ].
Qed.

Lemma hundredths_nearest num den :
  0 <= num -> 0 < den ->
  0 <= Fixed.hundredths num den
  /\ Z.abs (200 * num - 2 * den * Fixed.hundredths num den) <= den.
Proof.
  intros Hn Hd. unfold Fixed.hundredths.
  pose proof (Z.div_mod (200 * num + den) (2 * den) ltac:(lia)) as E.
  pose proof (Z.mod_pos_bound (200 * num + den) (2 * den) ltac:(lia)) as B.
  split.
  - apply Z.div_pos; lia.
  - lia.
Qed.

Lemma two_digits k :
  0 <= k < 100 -> String.length (Str.pad0 2 (Str.of_Z k)) = 2%nat.
Proof.
  intros Hk.
  assert (forallb (fun i => (String.length (Str.pad0 2 (Str.of_Z (Z.of_nat i)))
                             =? 2)%nat) (seq 0 100) = true) as All
    by (vm_compute; reflexivity).
  rewrite forallb_forall in All.
  specialize (All (Z.to_nat k)). rewrite Z2Nat.id in All by lia.
  apply Nat.eqb_eq, All, in_seq. lia.
Qed.

Lemma toFixed2_two_decimals {H : Host} x :
  positional x = true -> two_decimals x (toFixed2 x).
Proof.
  intros Hx. unfold two_decimals, toFixed2.
  pose proof (fraction_positive x) as [Hn Hd].
  destruct (Fixed.fraction x) as [num den] eqn:F; cbn [fst snd] in *.
  assert ((10 ^ 21 * den <=? num) = false) as Hbig.
  { apply Z.leb_gt. unfold positional in Hx. rewrite F in Hx.
    destruct x; try discriminate; apply Z.ltb_lt in Hx; exact Hx. }
  destruct (hundredths_nearest num den Hn Hd) as [Hpos Hnear].
  exists (Fixed.hundredths num den),
         (Str.pad0 2 (Str.of_Z (Fixed.hundredths num den mod 100))).
  repeat split; try assumption.
  - destruct x; try discriminate; rewrite Hbig; reflexivity.
  - apply two_digits. apply Z.mod_pos_bound. lia.
Qed.

(** ** Retries seen from two worlds *)

Section RetryRelated.

Context {W1 W2 T : Type}.
Variable sleep1 : Z -> W1 -> W1.
Variable warn1 : string -> W1 -> W1.
Variable fn1 : W1 -> result T * W1.
Variable sleep2 : Z -> W2 -> W2.
Variable warn2 : string -> W2 -> W2.
Variable fn2 : W2 -> result T * W2.
Variables maxRetries base : Z.
Variable R : W1 -> W2 -> Prop.
Hypothesis R_sleep : forall d w1 w2, R w1 w2 -> R (sleep1 d w1) (sleep2 d w2).
Hypothesis R_warn : forall t w1 w2, R w1 w2 -> R (warn1 t w1) (warn2 t w2).
Hypothesis R_fn :
  forall w1 w2, R w1 w2 ->
                fst (fn1 w1) = fst (fn2 w2) /\ R (snd (fn1 w1)) (snd (fn2 w2)).

(** Two operations that answer alike in related worlds are retried alike. *)
Lemma retry_loop_related :
  forall r a last w1 w2,
    R w1 w2 ->
    fst (retry_loop sleep1 warn1 fn1 maxRetries base r a last w1)
    = fst (retry_loop sleep2 warn2 fn2 maxRetries base r a last w2)
    /\ R (snd (retry_loop sleep1 warn1 fn1 maxRetries base r a last w1))
         (snd (retry_loop sleep2 warn2 fn2 maxRetries base r a last w2)).
Proof.
  induction r as [ | r IH ]; intros a last w1 w2 Hw; cbn [retry_loop].
  - split; [ reflexivity | exact Hw ].
  - destruct (R_fn w1 w2 Hw) as [Hr Hs].
    destruct (fn1 w1) as [ r1 v1 ], (fn2 w2) as [ r2 v2 ]; cbn [fst snd] in *.
    subst r2. destruct r1 as [ e | v ].
    + apply IH. destruct (a <? maxRetries - 1); auto.
    + split; [ reflexivity | exact Hs ].
Qed.

End RetryRelated.

Section RetryMeasure.

Context {W T : Type}.
Variable sleep : Z -> W -> W.
Variable warn : string -> W -> W.
Variable fn : W -> result T * W.
Variables maxRetries base : Z.
Variable mu : W -> nat.
Hypothesis mu_sleep : forall d w, mu (sleep d w) = mu w.
Hypothesis mu_warn : forall t w, mu (warn t w) = mu w.
Hypothesis mu_fn : forall w, (mu (snd (fn w)) <= S (mu w))%nat.

(** What each invocation raises by at most one, the retries raise by at most
    the number of attempts. *)
Lemma retry_loop_measure :
  forall r a last w,
    (mu (snd (retry_loop sleep warn fn maxRetries base r a last w))
     <= mu w + r)%nat.
Proof.
  induction r as [ | r IH ]; intros a last w; cbn [retry_loop].
  - cbn. lia.
  - specialize (mu_fn w). destruct (fn w) as [ [ e | v ] w1 ]; cbn [snd] in *.
    + etransitivity; [ apply IH | ].
      destruct (a <? maxRetries - 1); rewrite ?mu_sleep, ?mu_warn; lia.
    + lia.
Qed.

End RetryMeasure.

(** ** The first step, piece by piece *)

Lemma seen_emit kind ev w :
  seen kind (emit ev w) = (seen kind w + if kind ev then 1 else 0)%nat.
Proof.
  unfold seen, emit; cbn [trace]. rewrite filter_app, length_app.
  cbn [filter]. destruct (kind ev); reflexivity.
Qed.

Lemma seen_emits kind evs w :
  seen kind (emits evs w) = (seen kind w + List.length (filter kind evs))%nat.
Proof.
  unfold seen, emits; cbn [trace]. rewrite filter_app, length_app. reflexivity.
Qed.

Lemma filter_chatter kind evs :
  (forall ev, kind ev = true -> chatter ev = false) ->
  forallb chatter evs = true -> filter kind evs = [].
Proof.
  intros Hk. induction evs as [ | ev evs IH ]; cbn; [ reflexivity | ].
  intros Hc. apply andb_true_iff in Hc as [Hev Hc].
  destruct (kind ev) eqn:K; [ rewrite (Hk ev K) in Hev; discriminate | auto ].
Qed.

Section FirstStep.

Context `{Host}.
Variable env : Env.

(** The connectivity test always returns, and all it does besides its one
    request is to log and, when rate limited, to wait. *)
Lemma probe_run w :
  exists evs,
    probe env w
    = (inr tt,
       emits (Console Log "Testing Gemini API connectivity and quota..."
              :: ProbeProvider (env_value (GEMINI_API_KEY env)) :: evs) w)
    /\ forallb chatter evs = true.
Proof.
  unfold probe, StepM.try_catch, StepM.bind, console, StepM.do, StepM.throw,
    StepM.ret.
  destruct (models env) as [ e | [ | ] status statusText [] ].
  - destruct (Str.includes "timeout" (message e)
              || Str.includes "ENOTFOUND" (message e));
      eexists; rewrite !emit_emits, !emits_emits; cbn [app]; split; reflexivity.
  - eexists; rewrite !emit_emits, !emits_emits; cbn [app]; split; reflexivity.
  - destruct ((status =? 401) || (status =? 403)).
    + match goal with
      | |- context [Str.includes "timeout" ?m || Str.includes "ENOTFOUND" ?m] =>
          destruct (Str.includes "timeout" m || Str.includes "ENOTFOUND" m)
      end;
        eexists; rewrite !emit_emits, !emits_emits; cbn [app]; split; reflexivity.
    + destruct (status =? 429);
        eexists; rewrite !emit_emits, !emits_emits; cbn [app]; split; reflexivity.
Qed.

Lemma probe_counters w : counters (snd (probe env w)) = counters w.
Proof. destruct (probe_run w) as (evs & -> & _). reflexivity. Qed.

Lemma probe_seen kind w :
  (forall ev, kind ev = true -> chatter ev = false) ->
  seen kind (snd (probe env w))
  = (seen kind w
     + if kind (ProbeProvider (env_value (GEMINI_API_KEY env))) then 1 else 0)%nat.
Proof.
  intros Hk. destruct (probe_run w) as (evs & -> & Hc). cbn [snd].
  rewrite seen_emits. cbn [filter].
  replace (kind (Console Log "Testing Gemini API connectivity and quota..."))
    with false by (symmetry; destruct (kind (Console Log _)) eqn:K;
                   [ apply Hk in K; discriminate | reflexivity ]).
  destruct (kind (ProbeProvider _)); cbn [List.length];
    rewrite (filter_chatter kind evs Hk Hc); reflexivity.
Qed.

(** The first step, with its monad unfolded up to the connectivity test. *)
Lemma extract_unfold w :
  extract_pdf_data env w =
  match retry (fetch_document env)
              (emit (Console Log ("Fetching PDF from: " ++ url env)) w) with
  | (inl e, w2) => failed e w2
  | (inr pdf, w2) =>
      let w3 := emit (Console Log "PDF fetched successfully") w2 in
      if (List.length pdf =? 0)%nat then failed (Error "PDF file is empty") w3
      else
        let w4 :=
          emit ImportSdk
               (if pdf_signature pdf then w3
                else emit (Console Warn "PDF header invalid. File may be corrupted or not a valid PDF.") w3) in
        match sdk env with
        | inl e => failed e w4
        | inr _ =>
            if unset (GEMINI_API_KEY env) then failed ConfigurationError w4
            else after_probe env pdf (snd (probe env w4))
        end
  end.
Proof.
  unfold extract_pdf_data, after_probe, failed, StepM.try_catch at 1,
    StepM.bind at 1 2.
  unfold console at 1, StepM.do at 1.
  destruct (retry (fetch_document env) _) as [ [ e | pdf ] w2 ];
    [ reflexivity | ].
  unfold StepM.bind at 1 2, console at 1, StepM.do at 1.
  destruct (List.length pdf =? 0)%nat; [ reflexivity | ].
  unfold StepM.ret at 1, StepM.bind at 1 2.
  destruct (pdf_signature pdf).
  - unfold StepM.ret at 1, StepM.bind at 1 2, StepM.do at 1, StepM.lift at 1.
    destruct (sdk env) as [ e | [] ]; [ reflexivity | ].
    unfold StepM.bind at 1 2.
    destruct (unset (GEMINI_API_KEY env)); [ reflexivity | ].
    unfold StepM.ret at 1, StepM.bind at 1.
    destruct (probe_run (emit ImportSdk (emit (Console Log "PDF fetched successfully") w2)))
      as (evs & -> & _).
    reflexivity.
  - unfold console at 1, StepM.do at 1, StepM.bind at 1 2, StepM.do at 1,
      StepM.lift at 1.
    destruct (sdk env) as [ e | [] ]; [ reflexivity | ].
    unfold StepM.bind at 1 2.
    destruct (unset (GEMINI_API_KEY env)); [ reflexivity | ].
    unfold StepM.ret at 1, StepM.bind at 1.
    match goal with
    | |- context [probe env ?w] => destruct (probe_run w) as (evs & -> & _)
    end.
    reflexivity.
Qed.

End FirstStep.

Lemma sleeps_app evs evs' : sleeps (evs ++ evs') = (sleeps evs ++ sleeps evs')%list.
Proof.
  induction evs as [ | ev evs IH ]; cbn; [ reflexivity | ].
  destruct ev; cbn; rewrite IH; reflexivity.
Qed.

Section FirstStepRetries.

Context `{Host}.
Variable env : Env.

Lemma failed_run e w :
  failed e w
  = (inl e, emit (Console Err ("PDF extraction step failed: " ++ message e)) w).
Proof. reflexivity. Qed.

(** The first step from the choice of the model on, with its monad
    unfolded. *)
Lemma after_probe_unfold pdf w :
  after_probe env pdf w =
  let w3 :=
    emit (Console Log ("Extracting receipt data with model: " ++ model_name env))
      (emit (Console Log ("Model " ++ model_name env ++ " initialized"))
         (emit (Console Log ("Using Gemini model: " ++ model_name env)) w)) in
  match retry (generate_content env (model_name env) pdf) w3 with
  | (inl e, w4) =>
      failed (explain e)
             (emit (Console Err ("Gemini extraction failed: " ++ message e)) w4)
  | (inr (inl e), w4) => failed e w4
  | (inr (inr text), w4) =>
      let w5 := emit (Console Log "Raw AI response length") w4 in
      match JSON_parse (Fence.clean text) with
      | inl parseError =>
          failed (Error ("AI response is not valid JSON: " ++ message parseError))
                 (emit (Console Err "JSON parse failed") w5)
      | inr v =>
          match validateReceiptData (clock env) v with
          | inl e => failed e w5
          | inr r =>
              (inr r, emit (Console Log "Receipt data extracted successfully") w5)
          end
      end
  end.
Proof.
  unfold after_probe, model_name, failed, StepM.try_catch, StepM.bind, console,
    StepM.do, StepM.throw, StepM.ret, StepM.lift.
  cbv zeta.
  destruct (retry (generate_content env _ pdf) _) as [ [ e | [ e | text ] ] w4 ];
    try reflexivity.
  destruct (JSON_parse (Fence.clean text)) as [ pe | v ]; [ reflexivity | ].
  destruct (validateReceiptData (clock env) v); reflexivity.
Qed.

(** The retried fetch, seen by the meter of the document requests. *)
Lemma retry_fetch_metered w :
  let run := retry_loop meter_sleep (fun _ m => m)
                        (scripted (fetch_outcome env)) 5 2000 5 0 None
                        (fetch_meter w) in
  fst (retry (fetch_document env) w) = fst run
  /\ fetch_meter (snd (retry (fetch_document env) w)) = snd run.
Proof.
  unfold retry, retryWithBackoff. change (Z.to_nat 5) with 5%nat.
  apply (retry_loop_related _ _ _ _ _ _ _ _ (fun w m => fetch_meter w = m));
    [ | | | reflexivity ].
  - intros d w1 m <-. unfold fetch_meter, meter_sleep; cbn.
    rewrite sleeps_app. reflexivity.
  - intros t w1 m <-. unfold fetch_meter; cbn.
    rewrite sleeps_app, app_nil_r. reflexivity.
  - intros w1 m <-. unfold fetch_document, fetch_outcome, scripted, fetch_meter.
    cbn [calls waits].
    destruct (document env (fetched w1)) as [ e | [ | ] st stt body ];
      cbn [fst snd trace fetched]; rewrite sleeps_app, app_nil_r; split; reflexivity.
Qed.

(** The retried extraction call, seen by the meter of these calls. *)
Lemma retry_generate_metered model pdf w :
  let run := retry_loop meter_sleep (fun _ m => m)
                        (scripted (generation env)) 5 2000 5 0 None
                        (generate_meter w) in
  fst (retry (generate_content env model pdf) w) = fst run
  /\ generate_meter (snd (retry (generate_content env model pdf) w)) = snd run.
Proof.
  unfold retry, retryWithBackoff. change (Z.to_nat 5) with 5%nat.
  apply (retry_loop_related _ _ _ _ _ _ _ _ (fun w m => generate_meter w = m));
    [ | | | reflexivity ].
  - intros d w1 m <-. unfold generate_meter, meter_sleep; cbn.
    rewrite sleeps_app. reflexivity.
  - intros t w1 m <-. unfold generate_meter; cbn.
    rewrite sleeps_app, app_nil_r. reflexivity.
  - intros w1 m <-. unfold generate_content, scripted, generate_meter.
    cbn [calls waits fst snd trace generated].
    rewrite sleeps_app, app_nil_r; split; reflexivity.
Qed.

(** Counting through the two retried operations. *)
Lemma retry_fetch_seen kind w :
  (forall ev, kind ev = true -> chatter ev = false) ->
  (seen kind (snd (retry (fetch_document env) w)) <= seen kind w + 5)%nat
  /\ (kind (FetchDocument (url env)) = false ->
      seen kind (snd (retry (fetch_document env) w)) = seen kind w).
Proof.
  intros Hk.
  assert (forall l t, kind (Console l t) = false) as Hc
    by (intros l t; destruct (kind (Console l t)) eqn:K;
        [ apply Hk in K; discriminate | reflexivity ]).
  assert (forall d, kind (Sleep d) = false) as Hs
    by (intros d; destruct (kind (Sleep d)) eqn:K;
        [ apply Hk in K; discriminate | reflexivity ]).
  unfold retry, retryWithBackoff. change (Z.to_nat 5) with 5%nat. split.
  - apply (retry_loop_measure _ _ _ _ _ (seen kind)).
    + intros d w1. rewrite seen_emit, Hs. lia.
    + intros t w1. rewrite seen_emit, Hc. lia.
    + intros w1. unfold fetch_document.
      change {| trace := (trace w1 ++ [FetchDocument (url env)])%list;
                fetched := S (fetched w1); generated := generated w1 |}
        with (snd (@pair unit World tt
               {| trace := (trace w1 ++ [FetchDocument (url env)])%list;
                  fetched := S (fetched w1); generated := generated w1 |})).
      assert (seen kind {| trace := (trace w1 ++ [FetchDocument (url env)])%list;
                           fetched := S (fetched w1); generated := generated w1 |}
              <= S (seen kind w1))%nat as B.
      { unfold seen; cbn [trace]. rewrite filter_app, length_app. cbn [filter].
        destruct (kind (FetchDocument (url env))); cbn; lia. }
      destruct (document env (fetched w1)) as [ e | [ | ] st stt body ]; exact B.
  - intros Hf.
    apply (retry_loop_preserves _ _ _ _ _ (fun w' => seen kind w' = seen kind w));
      [ | | | reflexivity ].
    + intros d w1 <-. rewrite seen_emit, Hs. lia.
    + intros t w1 <-. rewrite seen_emit, Hc. lia.
    + intros w1 <-. unfold fetch_document.
      assert (seen kind {| trace := (trace w1 ++ [FetchDocument (url env)])%list;
                           fetched := S (fetched w1); generated := generated w1 |}
              = seen kind w1) as B.
      { unfold seen; cbn [trace]. rewrite filter_app, length_app. cbn [filter].
        rewrite Hf. cbn. lia. }
      destruct (document env (fetched w1)) as [ e | [ | ] st stt body ]; exact B.
Qed.

Lemma retry_generate_seen kind model pdf w :
  (forall ev, kind ev = true -> chatter ev = false) ->
  (seen kind (snd (retry (generate_content env model pdf) w)) <= seen kind w + 5)%nat
  /\ (kind (GenerateContent model pdf) = false ->
      seen kind (snd (retry (generate_content env model pdf) w)) = seen kind w).
Proof.
  intros Hk.
  assert (forall l t, kind (Console l t) = false) as Hc
    by (intros l t; destruct (kind (Console l t)) eqn:K;
        [ apply Hk in K; discriminate | reflexivity ]).
  assert (forall d, kind (Sleep d) = false) as Hs
    by (intros d; destruct (kind (Sleep d)) eqn:K;
        [ apply Hk in K; discriminate | reflexivity ]).
  unfold retry, retryWithBackoff. change (Z.to_nat 5) with 5%nat. split.
  - apply (retry_loop_measure _ _ _ _ _ (seen kind)).
    + intros d w1. rewrite seen_emit, Hs. lia.
    + intros t w1. rewrite seen_emit, Hc. lia.
    + intros w1. unfold generate_content, seen; cbn [snd trace].
      rewrite filter_app, length_app. cbn [filter].
      destruct (kind (GenerateContent model pdf)); cbn; lia.
  - intros Hg.
    apply (retry_loop_preserves _ _ _ _ _ (fun w' => seen kind w' = seen kind w));
      [ | | | reflexivity ].
    + intros d w1 <-. rewrite seen_emit, Hs. lia.
    + intros t w1 <-. rewrite seen_emit, Hc. lia.
    + intros w1 <-. unfold generate_content, seen; cbn [snd trace].
      rewrite filter_app, length_app. cbn [filter]. rewrite Hg. cbn. lia.
Qed.

(** The retried operations leave the other counter alone. *)
Lemma retry_fetch_generated w :
  generated (snd (retry (fetch_document env) w)) = generated w.
Proof.
  unfold retry, retryWithBackoff.
  apply (retry_loop_preserves _ _ _ _ _ (fun w' => generated w' = generated w));
    [ | | | reflexivity ]; try (intros ? w1 <-; reflexivity).
  intros w1 <-. unfold fetch_document.
  destruct (document env (fetched w1)) as [ e | [ | ] st stt body ]; reflexivity.
Qed.

End FirstStepRetries.

Section FirstStepFacts.

Context `{Host}.
Variable env : Env.

(** How many events of a kind the first step adds, at most. *)
Lemma extract_seen kind (f i p g : bool) w :
  (forall ev, kind ev = true -> chatter ev = false) ->
  (forall u, kind (FetchDocument u) = f) ->
  kind ImportSdk = i ->
  (forall k, kind (ProbeProvider k) = p) ->
  (forall m b, kind (GenerateContent m b) = g) ->
  (seen kind (snd (extract_pdf_data env w))
   <= seen kind w + (if f then 5 else 0) + (if i then 1 else 0)
      + (if p then 1 else 0) + (if g then 5 else 0))%nat.
Proof.
  intros Hk Hf Hi Hp Hg.
  assert (forall l t, kind (Console l t) = false) as Hc
    by (intros l t; destruct (kind (Console l t)) eqn:K;
        [ apply Hk in K; discriminate | reflexivity ]).
  rewrite extract_unfold.
  set (w1 := emit (Console Log ("Fetching PDF from: " ++ url env)) w).
  assert (seen kind w1 = seen kind w) as E1
    by (subst w1; rewrite seen_emit, Hc; lia).
  pose proof (retry_fetch_seen env kind w1 Hk) as [Fle Feq].
  rewrite Hf in Feq.
  assert (seen kind (snd (retry (fetch_document env) w1))
          <= seen kind w + if f then 5 else 0)%nat as F
    by (destruct f; [ lia | rewrite Feq by reflexivity; lia ]).
  clear Fle Feq. clearbody w1.
  destruct (retry (fetch_document env) w1) as [ [ e | pdf ] w2 ]; cbn [snd] in F.
  { rewrite failed_run; cbn [snd]. rewrite seen_emit, Hc.
    destruct i, p, g; lia. }
  cbv zeta.
  destruct (List.length pdf =? 0)%nat.
  { rewrite failed_run; cbn [snd]. rewrite !seen_emit, !Hc.
    destruct i, p, g; lia. }
  set (w4 := emit ImportSdk _).
  assert (seen kind w4 <= seen kind w + (if f then 5 else 0)
                          + if i then 1 else 0)%nat as E4.
  { subst w4. rewrite seen_emit, Hi.
    destruct (pdf_signature pdf); rewrite ?seen_emit, ?Hc; lia. }
  clearbody w4.
  destruct (sdk env) as [ e | [] ].
  { rewrite failed_run; cbn [snd]. rewrite seen_emit, Hc. destruct p, g; lia. }
  destruct (unset (GEMINI_API_KEY env)).
  { rewrite failed_run; cbn [snd]. rewrite seen_emit, Hc. destruct p, g; lia. }
  pose proof (probe_seen env kind w4 Hk) as P. rewrite Hp in P.
  set (wp := snd (probe env w4)) in *. clearbody wp.
  rewrite after_probe_unfold. cbv zeta.
  set (w5 := emit _ (emit _ (emit _ wp))).
  assert (seen kind w5 = seen kind wp) as E5
    by (subst w5; rewrite !seen_emit, !Hc; lia).
  pose proof (retry_generate_seen env kind (model_name env) pdf w5 Hk) as [Gle Geq].
  rewrite Hg in Geq.
  assert (seen kind (snd (retry (generate_content env (model_name env) pdf) w5))
          <= seen kind wp + if g then 5 else 0)%nat as G
    by (destruct g; [ lia | rewrite Geq by reflexivity; lia ]).
  clear Gle Geq. clearbody w5.
  destruct (retry (generate_content env (model_name env) pdf) w5)
    as [ [ e | [ e | text ] ] w6 ]; cbn [snd] in G.
  - rewrite failed_run; cbn [snd]. rewrite !seen_emit, !Hc. lia.
  - rewrite failed_run; cbn [snd]. rewrite !seen_emit, !Hc. lia.
  - destruct (JSON_parse (Fence.clean text)) as [ pe | v ].
    + rewrite failed_run; cbn [snd]. rewrite !seen_emit, !Hc. lia.
    + destruct (validateReceiptData (clock env) v);
        rewrite ?failed_run; cbn [snd]; rewrite !seen_emit, !Hc; lia.
Qed.

(** Two worlds with the same counters give the rest of the step the same
    answers. *)
Lemma after_probe_counters pdf w w' :
  counters w = counters w' ->
  fst (after_probe env pdf w) = fst (after_probe env pdf w').
Proof.
  intros Hw. rewrite !after_probe_unfold. cbv zeta.
  set (w3 := emit _ (emit _ (emit _ w))).
  set (w3' := emit _ (emit _ (emit _ w'))).
  assert (counters w3 = counters w3') as H3 by exact Hw.
  clearbody w3 w3'.
  destruct (retry_loop_related
              (fun d => emit (Sleep d)) (fun t => emit (Console Warn t))
              (generate_content env (model_name env) pdf)
              (fun d => emit (Sleep d)) (fun t => emit (Console Warn t))
              (generate_content env (model_name env) pdf)
              5 2000 (fun a b => counters a = counters b)
              ltac:(intros d a b E; exact E)
              ltac:(intros t a b E; exact E)
              ltac:(intros a b E; injection E as Ef Eg;
                    unfold generate_content, counters; cbn; rewrite Ef, Eg;
                    split; reflexivity)
              5%nat 0 None w3 w3' H3) as [Er _].
  change (retry_loop _ _ _ 5 2000 5 0 None w3)
    with (retry (generate_content env (model_name env) pdf) w3) in Er.
  change (retry_loop _ _ _ 5 2000 5 0 None w3')
    with (retry (generate_content env (model_name env) pdf) w3') in Er.
  destruct (retry (generate_content env (model_name env) pdf) w3)
    as [ r4 w4 ],
    (retry (generate_content env (model_name env) pdf) w3') as [ r4' w4' ].
  cbn [fst] in Er. subst r4'.
  destruct r4 as [ e | [ e | text ] ]; try reflexivity.
  destruct (JSON_parse (Fence.clean text)) as [ pe | v ]; [ reflexivity | ].
  destruct (validateReceiptData (clock env) v); reflexivity.
Qed.

End FirstStepFacts.

Section FirstStepPhases.

Context `{Host}.
Variable env : Env.

(** A kind of event the first step never adds. *)
Lemma extract_unseen kind w :
  (forall ev, kind ev = true -> chatter ev = false) ->
  (forall u, kind (FetchDocument u) = false) ->
  kind ImportSdk = false ->
  (forall k, kind (ProbeProvider k) = false) ->
  (forall m b, kind (GenerateContent m b) = false) ->
  seen kind (snd (extract_pdf_data env w)) = seen kind w.
Proof.
  intros Hk Hf Hi Hp Hg.
  assert (forall l t, kind (Console l t) = false) as Hc
    by (intros l t; destruct (kind (Console l t)) eqn:K;
        [ apply Hk in K; discriminate | reflexivity ]).
  rewrite extract_unfold.
  set (w1 := emit (Console Log ("Fetching PDF from: " ++ url env)) w).
  assert (seen kind w1 = seen kind w) as E1
    by (subst w1; rewrite seen_emit, Hc; lia).
  pose proof (proj2 (retry_fetch_seen env kind w1 Hk) (Hf _)) as F.
  rewrite E1 in F. clear E1. clearbody w1.
  destruct (retry (fetch_document env) w1) as [ [ e | pdf ] w2 ]; cbn [snd] in F.
  { rewrite failed_run; cbn [snd]. rewrite seen_emit, Hc. lia. }
  cbv zeta.
  destruct (List.length pdf =? 0)%nat.
  { rewrite failed_run; cbn [snd]. rewrite !seen_emit, !Hc. lia. }
  set (w4 := emit ImportSdk _).
  assert (seen kind w4 = seen kind w) as E4.
  { subst w4. rewrite seen_emit, Hi.
    destruct (pdf_signature pdf); rewrite ?seen_emit, ?Hc; lia. }
  clearbody w4.
  destruct (sdk env) as [ e | [] ].
  { rewrite failed_run; cbn [snd]. rewrite seen_emit, Hc. lia. }
  destruct (unset (GEMINI_API_KEY env)).
  { rewrite failed_run; cbn [snd]. rewrite seen_emit, Hc. lia. }
  pose proof (probe_seen env kind w4 Hk) as P. rewrite Hp in P.
  set (wp := snd (probe env w4)) in *. clearbody wp.
  rewrite after_probe_unfold. cbv zeta.
  set (w5 := emit _ (emit _ (emit _ wp))).
  assert (seen kind w5 = seen kind wp) as E5
    by (subst w5; rewrite !seen_emit, !Hc; lia).
  pose proof (proj2 (retry_generate_seen env kind (model_name env) pdf w5 Hk)
                    (Hg _ _)) as G.
  clearbody w5.
  destruct (retry (generate_content env (model_name env) pdf) w5)
    as [ [ e | [ e | text ] ] w6 ]; cbn [snd] in G.
  - rewrite failed_run; cbn [snd]. rewrite !seen_emit, !Hc. lia.
  - rewrite failed_run; cbn [snd]. rewrite !seen_emit, !Hc. lia.
  - destruct (JSON_parse (Fence.clean text)) as [ pe | v ].
    + rewrite failed_run; cbn [snd]. rewrite !seen_emit, !Hc. lia.
    + destruct (validateReceiptData (clock env) v);
        rewrite ?failed_run; cbn [snd]; rewrite !seen_emit, !Hc; lia.
Qed.

(** The fetch of a document that arrives at the request number [k]. *)
Lemma fetch_phase_succeeds w k pdf :
  fetched w = 0%nat -> (k < 5)%nat ->
  (forall i, (i < k)%nat -> exists e, fetch_outcome env i = inl e) ->
  fetch_outcome env k = inr pdf ->
  exists w2,
    retry (fetch_document env) w = (inr pdf, w2)
    /\ fetched w2 = S k
    /\ sleeps (trace w2)
       = (sleeps (trace w) ++ delays (fetch_outcome env) 2000 0 k)%list.
Proof.
  intros Hw Hk Hfail Hok.
  destruct (retry_fetch_metered env w) as [Hr Hm]. cbv zeta in Hr, Hm.
  unfold fetch_meter at 1 in Hr. unfold fetch_meter at 2 in Hm.
  rewrite Hw in Hr, Hm.
  assert (L := loop_succeeds (fetch_outcome env) 5 2000 pdf k 5 0%nat
                 (sleeps (trace w)) None Hk ltac:(cbn [Nat.add]; lia)
                 Hfail Hok).
  change (Z.of_nat 0) with 0 in L. rewrite L in Hr, Hm. cbn [fst snd] in Hr, Hm.
  destruct (retry (fetch_document env) w) as [ r w2 ]; cbn [fst snd] in *.
  subst r. exists w2. injection Hm as Hc Hs. auto.
Qed.

(** The fetch of a document that none of the five requests brings. *)
Lemma fetch_phase_exhausted w :
  fetched w = 0%nat ->
  (forall i, (i < 5)%nat -> exists e, fetch_outcome env i = inl e) ->
  exists w2,
    retry (fetch_document env) w
    = (inl (as_Error (failure (fetch_outcome env 4))), w2)
    /\ fetched w2 = 5%nat
    /\ sleeps (trace w2)
       = (sleeps (trace w) ++ delays (fetch_outcome env) 2000 0 4)%list.
Proof.
  intros Hw Hfail.
  destruct (retry_fetch_metered env w) as [Hr Hm]. cbv zeta in Hr, Hm.
  unfold fetch_meter at 1 in Hr. unfold fetch_meter at 2 in Hm.
  rewrite Hw in Hr, Hm.
  assert (L := loop_exhausts (fetch_outcome env) 5 2000 5 0%nat
                 (sleeps (trace w)) None eq_refl Hfail).
  change (Z.of_nat 0) with 0 in L. rewrite L in Hr, Hm. cbn [fst snd] in Hr, Hm.
  destruct (retry (fetch_document env) w) as [ r w2 ]; cbn [fst snd] in *.
  subst r. exists w2. injection Hm as Hc Hs. auto.
Qed.

(** The extraction call that answers at the call number [j]. *)
Lemma generate_phase_succeeds model pdf w j response :
  generated w = 0%nat -> (j < 5)%nat ->
  (forall i, (i < j)%nat -> exists e, generation env i = inl e) ->
  generation env j = inr response ->
  exists w2,
    retry (generate_content env model pdf) w = (inr response, w2)
    /\ generated w2 = S j
    /\ sleeps (trace w2)
       = (sleeps (trace w) ++ delays (generation env) 2000 0 j)%list.
Proof.
  intros Hw Hj Hfail Hok.
  destruct (retry_generate_metered env model pdf w) as [Hr Hm].
  cbv zeta in Hr, Hm.
  unfold generate_meter at 1 in Hr. unfold generate_meter at 2 in Hm.
  rewrite Hw in Hr, Hm.
  assert (L := loop_succeeds (generation env) 5 2000 response j 5 0%nat
                 (sleeps (trace w)) None Hj ltac:(cbn [Nat.add]; lia)
                 Hfail Hok).
  change (Z.of_nat 0) with 0 in L. rewrite L in Hr, Hm. cbn [fst snd] in Hr, Hm.
  destruct (retry (generate_content env model pdf) w) as [ r w2 ];
    cbn [fst snd] in *.
  subst r. exists w2. injection Hm as Hc Hs. auto.
Qed.

(** The extraction call that fails five times. *)
Lemma generate_phase_exhausted model pdf w :
  generated w = 0%nat ->
  (forall i, (i < 5)%nat -> exists e, generation env i = inl e) ->
  exists w2,
    retry (generate_content env model pdf) w
    = (inl (as_Error (failure (generation env 4))), w2)
    /\ generated w2 = 5%nat
    /\ sleeps (trace w2)
       = (sleeps (trace w) ++ delays (generation env) 2000 0 4)%list.
Proof.
  intros Hw Hfail.
  destruct (retry_generate_metered env model pdf w) as [Hr Hm].
  cbv zeta in Hr, Hm.
  unfold generate_meter at 1 in Hr. unfold generate_meter at 2 in Hm.
  rewrite Hw in Hr, Hm.
  assert (L := loop_exhausts (generation env) 5 2000 5 0%nat
                 (sleeps (trace w)) None eq_refl Hfail).
  change (Z.of_nat 0) with 0 in L. rewrite L in Hr, Hm. cbn [fst snd] in Hr, Hm.
  destruct (retry (generate_content env model pdf) w) as [ r w2 ];
    cbn [fst snd] in *.
  subst r. exists w2. injection Hm as Hc Hs. auto.
Qed.

End FirstStepPhases.

(** ** The extraction step without the credential *)

Section FirstStepShifted.

Context `{Host}.
Variable env : Env.

(** The retried fetch in a world that has counted requests before: the
    request number [i] of this call is answered as the request number
    [fetched w + i] of the run. *)
Lemma retry_fetch_shifted w :
  let run := retry_loop meter_sleep (fun _ m => m)
                        (scripted (fun i => fetch_outcome env (fetched w + i)))
                        5 2000 5 0 None meter0 in
  fst (retry (fetch_document env) w) = fst run
  /\ fetched (snd (retry (fetch_document env) w))
     = (fetched w + calls (snd run))%nat.
Proof.
  unfold retry, retryWithBackoff. change (Z.to_nat 5) with 5%nat.
  apply (retry_loop_related
           _ _ _ _ _ _ _ _
           (fun w1 m => fetched w1 = (fetched w + calls m)%nat)).
  - intros d w1 m E. exact E.
  - intros t w1 m E. exact E.
  - intros w1 m E. unfold fetch_document, fetch_outcome, scripted. split.
    + cbn [fst calls]. rewrite <- E.
      destruct (document env (fetched w1)) as [ e | [ | ] st stt body ];
        reflexivity.
    + destruct (document env (fetched w1)) as [ e | [ | ] st stt body ];
        cbn [fst snd fetched calls]; lia.
  - cbn [calls meter0]. lia.
Qed.

(** The fetch of a document that arrives at the request number [k] of the
    call. *)
Lemma fetch_arrives w k pdf :
  (k < 5)%nat ->
  (forall i, (i < k)%nat ->
             exists e, fetch_outcome env (fetched w + i) = inl e) ->
  fetch_outcome env (fetched w + k) = inr pdf ->
  exists w2,
    retry (fetch_document env) w = (inr pdf, w2)
    /\ fetched w2 = (fetched w + S k)%nat.
Proof.
  intros Hk Hfail Hok.
  destruct (retry_fetch_shifted w) as [Hr Hm]. cbv zeta in Hr, Hm.
  assert (L := loop_succeeds (fun i => fetch_outcome env (fetched w + i))
                 5 2000 pdf k 5 0%nat [] None Hk
                 ltac:(cbn [Nat.add]; lia) Hfail Hok).
  change (Z.of_nat 0) with 0 in L.
  change {| calls := 0; waits := [] |} with meter0 in L.
  rewrite L in Hr, Hm. cbn [fst snd calls Nat.add] in Hr, Hm.
  destruct (retry (fetch_document env) w) as [ r w2 ]; cbn [fst snd] in *.
  subst r. exists w2. split; [ reflexivity | exact Hm ].
Qed.

(** Without the credential, a document that arrives within the five
    requests, is not empty and finds the SDK ends the step in the
    configuration error. *)
Lemma extract_configuration_error_late w k pdf :
  unset (GEMINI_API_KEY env) = true ->
  (k < 5)%nat ->
  (forall i, (i < k)%nat ->
             exists e, fetch_outcome env (fetched w + i) = inl e) ->
  fetch_outcome env (fetched w + k) = inr pdf ->
  pdf <> [] ->
  sdk env = inr tt ->
  fst (extract_pdf_data env w) = inl ConfigurationError
  /\ fetched (snd (extract_pdf_data env w)) = (fetched w + S k)%nat.
Proof.
  intros Hkey Hk Hfail Hok Hpdf Hsdk.
  rewrite extract_unfold.
  destruct (fetch_arrives
              (emit (Console Log ("Fetching PDF from: " ++ url env)) w) k pdf Hk
              Hfail Hok) as (w2 & -> & Hw2).
  cbn [emit fetched] in Hw2.
  replace (List.length pdf =? 0)%nat with false
    by (destruct pdf; [ congruence | reflexivity ]).
  rewrite Hsdk, Hkey, failed_run. cbn [fst snd].
  split; [ reflexivity | ].
  destruct (pdf_signature pdf); cbn [emit fetched]; exact Hw2.
Qed.

End FirstStepShifted.

(** C9, as amended: when the credential is unset or empty, the step throws
    before any request is made to the AI provider, neither the connectivity
    test nor the extraction call; the document has been requested by then,
    and when it arrives at one of the five requests of the retried fetch,
    after as many failed requests as it takes, is not empty, and the SDK
    loads, what is thrown is the configuration error, after exactly that
    many requests. *)
Theorem C9_no_provider_request_without_key {H : Host} (env : Env) (w : World) :
  unset (GEMINI_API_KEY env) = true ->
  no_provider_request w ->
  (exists e, fst (extract_pdf_data env w) = inl e)
  /\ no_provider_request (snd (extract_pdf_data env w))
  /\ document_requested env (snd (extract_pdf_data env w))
  /\ (forall k pdf,
         (k < 5)%nat ->
         (forall i, (i < k)%nat ->
                    exists e, fetch_outcome env (fetched w + i) = inl e) ->
         fetch_outcome env (fetched w + k) = inr pdf ->
         pdf <> [] -> sdk env = inr tt ->
         fst (extract_pdf_data env w) = inl ConfigurationError
         /\ fetched (snd (extract_pdf_data env w)) = (fetched w + S k)%nat).
Proof.
  intros Hkey Hw.
  destruct (extract_without_key env w Hkey Hw) as (He & Hq & Hr).
  repeat split; try assumption;
    eapply extract_configuration_error_late; eassumption.
Qed.

(** Without the credential, a document that the third request brings: two
    failed requests, then the configuration error. *)
Lemma C9_witness :
  let env := without_key (Runs.run Runs.arrives_late Runs.answers) in
  unset (GEMINI_API_KEY env) = true
  /\ no_provider_request world0
  /\ fst (extract_pdf_data (H := SampleHost.host) env world0)
     = inl ConfigurationError
  /\ fetched (snd (extract_pdf_data (H := SampleHost.host) env world0)) = 3%nat.
Proof.
  intros env.
  split; [ reflexivity | split; [ constructor | ] ].
  refine (proj2 (proj2 (proj2 (C9_no_provider_request_without_key
                                 (H := SampleHost.host) env world0
                                 eq_refl (Forall_nil _))))
                2%nat Sample.pdf _ _ eq_refl _ eq_refl).
  - lia.
  - intros [ | [ | i ] ] Hi; [ eexists; reflexivity .. | lia ].
  - discriminate.
Defined.

(** C9 as stated fails on a run without the credential: the configuration
    error is thrown after the document has been fetched over the network. *)
Lemma C9_counterexample :
  extract_pdf_data (H := SampleHost.host) (Sample.env None (inr "user_1") (inr tt)) world0
  = (inl ConfigurationError,
     {| trace :=
          [ Console Log "Fetching PDF from: https://x/receipt.pdf";
            FetchDocument "https://x/receipt.pdf";
            Console Log "PDF fetched successfully";
            ImportSdk;
            Console Err "PDF extraction step failed: GEMINI_API_KEY environment variable is not configured. Set it in .env.local" ];
        fetched := 1;
        generated := 0 |}).
Proof. reflexivity. Qed.


Section FirstStepReach.

Context `{Host}.
Variable env : Env.

Lemma retry_generate_fetched model pdf w :
  fetched (snd (retry (generate_content env model pdf) w)) = fetched w.
Proof.
  unfold retry, retryWithBackoff.
  apply (retry_loop_preserves _ _ _ _ _ (fun w' => fetched w' = fetched w));
    [ intros d w1 <- | intros t w1 <- | intros w1 <- | ]; reflexivity.
Qed.

(** With the document, the SDK and the key, the step gets to the choice of
    the model. *)
Lemma extract_reaches_model w k pdf :
  fetched w = 0%nat -> (k < 5)%nat ->
  (forall i, (i < k)%nat -> exists e, fetch_outcome env i = inl e) ->
  fetch_outcome env k = inr pdf ->
  pdf <> [] -> sdk env = inr tt -> unset (GEMINI_API_KEY env) = false ->
  exists wp,
    extract_pdf_data env w = after_probe env pdf wp
    /\ fetched wp = S k /\ generated wp = generated w.
Proof.
  intros Hw Hk Hfail Hok Hpdf Hsdk Hkey.
  rewrite extract_unfold.
  set (w1 := emit (Console Log ("Fetching PDF from: " ++ url env)) w).
  pose proof (retry_fetch_generated env w1) as Hg.
  destruct (fetch_phase_succeeds env w1 k pdf Hw Hk Hfail Hok)
    as (w2 & E & Hf2 & _).
  rewrite E in *. cbn [snd] in Hg. cbv zeta.
  replace (List.length pdf =? 0)%nat with false
    by (destruct pdf; [ congruence | reflexivity ]).
  rewrite Hsdk, Hkey.
  eexists. split; [ reflexivity | ].
  match goal with
  | |- context [probe env ?w4] => pose proof (probe_counters env w4) as Hp
  end.
  unfold counters in Hp. injection Hp as Hpf Hpg. rewrite Hpf, Hpg.
  destruct (pdf_signature pdf); cbn; auto.
Qed.

End FirstStepReach.

(** ** The first step as a whole *)

(** One run of the first step asks for the document at most five times,
    loads the SDK and tests the connectivity at most once each, calls the
    model at most five times, and neither writes to the database nor reports
    usage. *)
Theorem extract_requests_are_bounded {H : Host} (env : Env) (w : World) :
  (seen is_fetch (snd (extract_pdf_data env w)) <= seen is_fetch w + 5)%nat
  /\ (seen is_import (snd (extract_pdf_data env w)) <= seen is_import w + 1)%nat
  /\ (seen is_probe (snd (extract_pdf_data env w)) <= seen is_probe w + 1)%nat
  /\ (seen is_generate (snd (extract_pdf_data env w))
      <= seen is_generate w + 5)%nat
  /\ seen is_mutation (snd (extract_pdf_data env w)) = seen is_mutation w
  /\ seen is_track (snd (extract_pdf_data env w)) = seen is_track w.
Proof.
  repeat split.
  - pose proof (extract_seen env is_fetch true false false false w) as B.
    cbn in B. rewrite B; try reflexivity; [ lia | ].
    intros [] E; try discriminate; reflexivity.
  - pose proof (extract_seen env is_import false true false false w) as B.
    cbn in B. rewrite B; try reflexivity; [ lia | ].
    intros [] E; try discriminate; reflexivity.
  - pose proof (extract_seen env is_probe false false true false w) as B.
    cbn in B. rewrite B; try reflexivity; [ lia | ].
    intros [] E; try discriminate; reflexivity.
  - pose proof (extract_seen env is_generate false false false true w) as B.
    cbn in B. rewrite B; try reflexivity; [ lia | ].
    intros [] E; try discriminate; reflexivity.
  - apply extract_unseen; try reflexivity.
    intros [] E; try discriminate; reflexivity.
  - apply extract_unseen; try reflexivity.
    intros [] E; try discriminate; reflexivity.
Qed.

(** The rest of the step after two connectivity tests that were answered
    differently and took different times. *)
Lemma after_probe_clock {H : Host} (env : Env) (answer : response unit)
      (readings : Clock) (pdf : list byte) (w w' : World) :
  counters w = counters w' ->
  map_result without_clock_fields
             (fst (after_probe (with_models env answer readings) pdf w))
  = map_result without_clock_fields (fst (after_probe env pdf w')).
Proof.
  intros Hw. rewrite !after_probe_unfold. cbv zeta.
  change (model_name (with_models env answer readings)) with (model_name env).
  change (clock (with_models env answer readings)) with readings.
  change (generate_content (with_models env answer readings))
    with (generate_content env).
  set (w3 := emit _ (emit _ (emit _ w))).
  set (w3' := emit _ (emit _ (emit _ w'))).
  assert (counters w3 = counters w3') as H3 by exact Hw.
  clearbody w3 w3'.
  destruct (retry_loop_related
              (fun d => emit (Sleep d)) (fun t => emit (Console Warn t))
              (generate_content env (model_name env) pdf)
              (fun d => emit (Sleep d)) (fun t => emit (Console Warn t))
              (generate_content env (model_name env) pdf)
              5 2000 (fun a b => counters a = counters b)
              ltac:(intros d a b E; exact E)
              ltac:(intros t a b E; exact E)
              ltac:(intros a b E; injection E as Ef Eg;
                    unfold generate_content, counters; cbn; rewrite Ef, Eg;
                    split; reflexivity)
              5%nat 0 None w3 w3' H3) as [Er _].
  change (retry_loop _ _ _ 5 2000 5 0 None w3)
    with (retry (generate_content env (model_name env) pdf) w3) in Er.
  change (retry_loop _ _ _ 5 2000 5 0 None w3')
    with (retry (generate_content env (model_name env) pdf) w3') in Er.
  destruct (retry (generate_content env (model_name env) pdf) w3)
    as [ r4 w4 ],
    (retry (generate_content env (model_name env) pdf) w3') as [ r4' w4' ].
  cbn [fst] in Er. subst r4'.
  destruct r4 as [ e | [ e | text ] ]; try reflexivity.
  destruct (JSON_parse (Fence.clean text)) as [ pe | v ]; [ reflexivity | ].
  pose proof (proj1 (validate_two_clocks readings (clock env) v)) as Hv.
  destruct (validateReceiptData readings v),
    (validateReceiptData (clock env) v); exact Hv.
Qed.

(** The connectivity test is not fatal.  Whatever it is answered, a
    rejection, a refusal of the key or a rate limit, and whatever the clock
    reads when it is over (a rate-limited test waits five seconds), the
    first step throws the same exception, or returns the same value but for
    the date and the receipt number, the two fields that the clock fills
    when the answer of the model has none; with the same readings of the
    clock it ends the same way in everything. *)
Theorem extract_ignores_the_connectivity_test {H : Host} (env : Env)
        (answer : response unit) (readings : Clock) (w : World) :
  map_result without_clock_fields
             (fst (extract_pdf_data (with_models env answer readings) w))
  = map_result without_clock_fields (fst (extract_pdf_data env w))
  /\ fst (extract_pdf_data (with_models env answer (clock env)) w)
     = fst (extract_pdf_data env w).
Proof.
  split.
  - rewrite !extract_unfold.
    change (fetch_document (with_models env answer readings))
      with (fetch_document env).
    change (url (with_models env answer readings)) with (url env).
    change (sdk (with_models env answer readings)) with (sdk env).
    change (GEMINI_API_KEY (with_models env answer readings))
      with (GEMINI_API_KEY env).
    destruct (retry (fetch_document env) _) as [ [ e | pdf ] w2 ];
      [ reflexivity | ].
    cbv zeta. destruct (List.length pdf =? 0)%nat; [ reflexivity | ].
    destruct (sdk env) as [ e | [] ]; [ reflexivity | ].
    destruct (unset (GEMINI_API_KEY env)); [ reflexivity | ].
    apply after_probe_clock. rewrite !probe_counters. reflexivity.
  - rewrite !extract_unfold.
    change (fetch_document (with_models env answer (clock env)))
      with (fetch_document env).
    change (url (with_models env answer (clock env))) with (url env).
    change (sdk (with_models env answer (clock env))) with (sdk env).
    change (GEMINI_API_KEY (with_models env answer (clock env)))
      with (GEMINI_API_KEY env).
    change (after_probe (with_models env answer (clock env)))
      with (after_probe env).
    destruct (retry (fetch_document env) _) as [ [ e | pdf ] w2 ];
      [ reflexivity | ].
    cbv zeta. destruct (List.length pdf =? 0)%nat; [ reflexivity | ].
    destruct (sdk env) as [ e | [] ]; [ reflexivity | ].
    destruct (unset (GEMINI_API_KEY env)); [ reflexivity | ].
    apply after_probe_counters. rewrite !probe_counters. reflexivity.
Qed.

(** When the document arrives within the five requests, is not empty, the
    SDK loads, the key is set and the model answers within the five calls,
    the first step ends as the normalization of the parsed answer, stripped
    of its code fences, does: with its result, with its exception, or with
    "AI response is not valid JSON" when the answer does not parse. *)
Theorem extract_returns_the_normalized_answer {H : Host} (env : Env) (w : World)
        (k j : nat) (pdf : list byte) (text : string) :
  fetched w = 0%nat -> generated w = 0%nat ->
  (k < 5)%nat ->
  (forall i, (i < k)%nat -> exists e, fetch_outcome env i = inl e) ->
  fetch_outcome env k = inr pdf ->
  pdf <> [] -> sdk env = inr tt -> unset (GEMINI_API_KEY env) = false ->
  (j < 5)%nat ->
  (forall i, (i < j)%nat -> exists e, generation env i = inl e) ->
  generation env j = inr (inr text) ->
  fst (extract_pdf_data env w)
  = match JSON_parse (Fence.clean text) with
    | inl parseError =>
        inl (Error ("AI response is not valid JSON: " ++ message parseError))
    | inr v => validateReceiptData (clock env) v
    end
  /\ fetched (snd (extract_pdf_data env w)) = S k
  /\ generated (snd (extract_pdf_data env w)) = S j.
Proof.
  intros Hw Hg Hk Hfail Hok Hpdf Hsdk Hkey Hj Hgfail Hgok.
  destruct (extract_reaches_model env w k pdf Hw Hk Hfail Hok Hpdf Hsdk Hkey)
    as (wp & -> & Hpf & Hpg).
  rewrite after_probe_unfold. cbv zeta.
  set (w3 := emit _ (emit _ (emit _ wp))).
  assert (generated w3 = 0%nat) as H3 by (subst w3; cbn; congruence).
  assert (fetched w3 = S k) as F3 by (subst w3; cbn; congruence).
  pose proof (retry_generate_fetched env (model_name env) pdf w3) as F4.
  destruct (generate_phase_succeeds env (model_name env) pdf w3 j (inr text)
              H3 Hj Hgfail Hgok) as (w4 & E & G4 & _).
  rewrite E in *. cbn [snd] in F4.
  destruct (JSON_parse (Fence.clean text)) as [ pe | v ].
  - cbn. repeat split; congruence.
  - destruct (validateReceiptData (clock env) v); cbn; repeat split; congruence.
Qed.

Lemma extract_returns_the_normalized_answer_witness :
  fetched world0 = 0%nat /\ generated world0 = 0%nat
  /\ fetch_outcome (Runs.run Runs.arrives_late Runs.answers_late) 2 = inr Sample.pdf
  /\ generation (Runs.run Runs.arrives_late Runs.answers_late) 1
     = inr (inr "```json{}```")
  /\ (fst (extract_pdf_data (H := SampleHost.host)
                            (Runs.run Runs.arrives_late Runs.answers_late) world0)
      = validateReceiptData (H := SampleHost.host) Sample.clock1 (JObj [])
      /\ fetched (snd (extract_pdf_data (H := SampleHost.host)
                         (Runs.run Runs.arrives_late Runs.answers_late) world0))
         = 3%nat
      /\ generated (snd (extract_pdf_data (H := SampleHost.host)
                           (Runs.run Runs.arrives_late Runs.answers_late) world0))
         = 2%nat).
Proof.
  assert (forall i, (i < 2)%nat ->
            exists e, fetch_outcome (Runs.run Runs.arrives_late Runs.answers_late) i
                      = inl e) as Hfail.
  { intros [ | [ | i ] ] Hi; [ eexists; reflexivity .. | lia ]. }
  assert (forall i, (i < 1)%nat ->
            exists e, generation (Runs.run Runs.arrives_late Runs.answers_late) i
                      = inl e) as Hgfail.
  { intros [ | i ] Hi; [ eexists; reflexivity | lia ]. }
  do 4 (split; [ reflexivity | ]).
  refine (extract_returns_the_normalized_answer
            (H := SampleHost.host)
            (Runs.run Runs.arrives_late Runs.answers_late) world0 2 1
            Sample.pdf "```json{}```" eq_refl eq_refl _ Hfail eq_refl _
            eq_refl eq_refl _ Hgfail eq_refl); [ lia | discriminate | lia ].
Defined.

(** A document of no bytes fails the first step with "PDF file is empty"
    before the SDK is loaded and before any request to the provider. *)
Theorem extract_rejects_an_empty_document {H : Host} (env : Env) (w : World)
        (k : nat) :
  fetched w = 0%nat -> (k < 5)%nat ->
  (forall i, (i < k)%nat -> exists e, fetch_outcome env i = inl e) ->
  fetch_outcome env k = inr [] ->
  fst (extract_pdf_data env w) = inl (Error "PDF file is empty")
  /\ seen is_import (snd (extract_pdf_data env w)) = seen is_import w
  /\ seen provider_request (snd (extract_pdf_data env w))
     = seen provider_request w.
Proof.
  intros Hw Hk Hfail Hok. rewrite extract_unfold.
  set (w1 := emit (Console Log ("Fetching PDF from: " ++ url env)) w).
  assert (forall kind,
             (forall ev, kind ev = true -> chatter ev = false) ->
             (forall l t, kind (Console l t) = false) ->
             kind (FetchDocument (url env)) = false ->
             seen kind (snd (retry (fetch_document env) w1)) = seen kind w) as S.
  { intros kind Hc Hl Hf.
    rewrite (proj2 (retry_fetch_seen env kind w1 Hc) Hf).
    subst w1. rewrite seen_emit, Hl. lia. }
  destruct (fetch_phase_succeeds env w1 k [] Hw Hk Hfail Hok) as (w2 & E & _).
  rewrite E in *. cbn [snd fst List.length Nat.eqb] in *. cbv zeta.
  rewrite failed_run. cbn [fst snd]. rewrite !seen_emit. cbn [is_import provider_request].
  repeat split.
  - rewrite S; [ lia | | reflexivity | reflexivity ].
    intros [] K; try discriminate; reflexivity.
  - rewrite S; [ lia | | reflexivity | reflexivity ].
    intros [] K; try discriminate; reflexivity.
Qed.

Lemma extract_rejects_an_empty_document_witness :
  fetched world0 = 0%nat
  /\ fetch_outcome (Runs.run Runs.arrives_empty Runs.answers) 0 = inr []
  /\ fst (extract_pdf_data (H := SampleHost.host)
                           (Runs.run Runs.arrives_empty Runs.answers) world0)
     = inl (Error "PDF file is empty").
Proof.
  split; [ reflexivity | split; [ reflexivity | ] ].
  refine (proj1 (extract_rejects_an_empty_document
                   (H := SampleHost.host)
                   (Runs.run Runs.arrives_empty Runs.answers) world0 0
                   eq_refl _ _ eq_refl)); [ lia | intros i Hi; lia ].
Defined.

(** A document that none of the five requests brings fails the first step
    with the error of the fifth request, after the four waits computed from
    the first four errors; the SDK is not loaded and the provider is not
    contacted. *)
Theorem extract_gives_up_on_the_document {H : Host} (env : Env) (w : World) :
  fetched w = 0%nat ->
  (forall i, (i < 5)%nat -> exists e, fetch_outcome env i = inl e) ->
  fst (extract_pdf_data env w) = inl (as_Error (failure (fetch_outcome env 4)))
  /\ fetched (snd (extract_pdf_data env w)) = 5%nat
  /\ sleeps (trace (snd (extract_pdf_data env w)))
     = (sleeps (trace w) ++ delays (fetch_outcome env) 2000 0 4)%list
  /\ seen is_import (snd (extract_pdf_data env w)) = seen is_import w
  /\ seen provider_request (snd (extract_pdf_data env w))
     = seen provider_request w.
Proof.
  intros Hw Hfail. rewrite extract_unfold.
  set (w1 := emit (Console Log ("Fetching PDF from: " ++ url env)) w).
  assert (forall kind,
             (forall ev, kind ev = true -> chatter ev = false) ->
             (forall l t, kind (Console l t) = false) ->
             kind (FetchDocument (url env)) = false ->
             seen kind (snd (retry (fetch_document env) w1)) = seen kind w) as S.
  { intros kind Hc Hl Hf.
    rewrite (proj2 (retry_fetch_seen env kind w1 Hc) Hf).
    subst w1. rewrite seen_emit, Hl. lia. }
  destruct (fetch_phase_exhausted env w1 Hw Hfail) as (w2 & E & F2 & S2).
  rewrite E in *. cbn [snd fst] in *.
  rewrite failed_run. cbn [fst snd].
  split; [ reflexivity | split; [ exact F2 | split; [ | split ] ] ].
  - cbn [emit trace]. rewrite sleeps_app, S2. subst w1. cbn [emit trace].
    rewrite sleeps_app. cbn [sleeps]. rewrite !app_nil_r. reflexivity.
  - rewrite seen_emit. cbn [is_import].
    rewrite S; [ lia | | reflexivity | reflexivity ].
    intros [] K; try discriminate; reflexivity.
  - rewrite seen_emit. cbn [provider_request].
    rewrite S; [ lia | | reflexivity | reflexivity ].
    intros [] K; try discriminate; reflexivity.
Qed.

Lemma extract_gives_up_on_the_document_witness :
  fetched world0 = 0%nat
  /\ fst (extract_pdf_data (H := SampleHost.host)
                           (Runs.run Runs.never_arrives Runs.answers) world0)
     = inl (Error "fetch failed")
  /\ sleeps (trace (snd (extract_pdf_data (H := SampleHost.host)
                           (Runs.run Runs.never_arrives Runs.answers) world0)))
     = [2000; 4000; 8000; 16000].
Proof.
  assert (forall i, (i < 5)%nat ->
            exists e, fetch_outcome (Runs.run Runs.never_arrives Runs.answers) i
                      = inl e) as Hfail
    by (intros i _; eexists; reflexivity).
  destruct (extract_gives_up_on_the_document
              (H := SampleHost.host)
              (Runs.run Runs.never_arrives Runs.answers) world0 eq_refl Hfail)
    as (Hr & _ & Hs & _).
  split; [ reflexivity | split; [ exact Hr | exact Hs ] ].
Defined.

(** When the model fails at each of the five calls, the first step throws
    the explanation of the fifth error: the key, the permissions or the
    quota, the rate limit or the network when its message names one of them,
    the error itself otherwise. *)
Theorem extract_explains_a_failed_extraction {H : Host} (env : Env) (w : World)
        (k : nat) (pdf : list byte) :
  fetched w = 0%nat -> generated w = 0%nat ->
  (k < 5)%nat ->
  (forall i, (i < k)%nat -> exists e, fetch_outcome env i = inl e) ->
  fetch_outcome env k = inr pdf ->
  pdf <> [] -> sdk env = inr tt -> unset (GEMINI_API_KEY env) = false ->
  (forall i, (i < 5)%nat -> exists e, generation env i = inl e) ->
  fst (extract_pdf_data env w)
  = inl (explain (as_Error (failure (generation env 4))))
  /\ generated (snd (extract_pdf_data env w)) = 5%nat.
Proof.
  intros Hw Hg Hk Hfail Hok Hpdf Hsdk Hkey Hgfail.
  destruct (extract_reaches_model env w k pdf Hw Hk Hfail Hok Hpdf Hsdk Hkey)
    as (wp & -> & Hpf & Hpg).
  rewrite after_probe_unfold. cbv zeta.
  set (w3 := emit _ (emit _ (emit _ wp))).
  assert (generated w3 = 0%nat) as H3 by (subst w3; cbn; congruence).
  destruct (generate_phase_exhausted env (model_name env) pdf w3 H3 Hgfail)
    as (w4 & E & G4 & _).
  rewrite E. split; [ reflexivity | exact G4 ].
Qed.

Lemma extract_explains_a_failed_extraction_witness :
  fetched world0 = 0%nat /\ generated world0 = 0%nat
  /\ fst (extract_pdf_data (H := SampleHost.host)
                           (Runs.run Runs.arrives Runs.refuses) world0)
     = inl (Error "GEMINI_API_KEY lacks permissions or quota is exhausted. Check your API quota.").
Proof.
  assert (forall i, (i < 5)%nat ->
            exists e, generation (Runs.run Runs.arrives Runs.refuses) i = inl e)
    as Hgfail by (intros i _; eexists; reflexivity).
  split; [ reflexivity | split; [ reflexivity | ] ].
  refine (proj1 (extract_explains_a_failed_extraction
                   (H := SampleHost.host)
                   (Runs.run Runs.arrives Runs.refuses) world0 0 Sample.pdf
                   eq_refl eq_refl _ _ eq_refl _ eq_refl eq_refl Hgfail));
    [ lia | intros i Hi; lia | discriminate ].
Defined.

(** ** validateReceiptData on tame inputs *)

Lemma lookup_In k props v :
  JS.lookup k props = Some v -> exists k', In (k', v) props.
Proof.
  induction props as [ | [k' v'] props IH ]; cbn; [ discriminate | ].
  destruct (String.eqb k k').
  - intros E. injection E as <-. eauto.
  - intros E. destruct (IH E) as [k'' Hin]. eauto.
Qed.

Lemma tame_opt_prop v k : tame v = true -> tame_opt (JS.prop v k) = true.
Proof.
  destruct v as [ | | | | elems | props ]; cbn [JS.prop tame_opt];
    try reflexivity.
  cbn [tame]. destruct (JS.lookup "toString" props); [ discriminate | ].
  intros All. destruct (JS.lookup k props) as [ x | ] eqn:E; [ | reflexivity ].
  destruct (lookup_In _ _ _ E) as [k' Hin].
  rewrite forallb_forall in All. exact (All _ Hin).
Qed.

Lemma tame_or_empty_object v :
  tame_opt v = true -> tame (JS.or_empty_object v) = true.
Proof.
  destruct v as [ x | ]; cbn [tame_opt JS.or_empty_object]; [ | reflexivity ].
  destruct (JS.truthy (Some x)); auto.
Qed.

Section TameFacts.

Context `{Host}.

Lemma ToString_tame v : tame v = true -> exists s, JS.ToString v = inr s.
Proof.
  induction v as [ | b | x | s | elems IH | props ] using json_ind';
    intros Hv; try (eexists; reflexivity).
  - destruct b; eexists; reflexivity.
  - cbn [tame] in Hv. cbn [JS.ToString].
    induction IH as [ | v rest Hhead _ IHrest ]; [ eexists; reflexivity | ].
    cbn [forallb] in Hv. apply andb_true_iff in Hv as [Hv Hrest].
    destruct (IHrest Hrest) as [sr Er].
    assert (exists sx, match v with
                       | JNull => ret EmptyString
                       | _ => JS.ToString v
                       end = inr sx) as [sx Ex]
      by (destruct v; try (eexists; reflexivity); apply Hhead; exact Hv).
    rewrite Ex. cbn [bind].
    destruct rest as [ | v' rest' ]; [ eexists; reflexivity | ].
    rewrite Er. eexists; reflexivity.
  - cbn [tame] in Hv. cbn [JS.ToString]. unfold JS.object_to_primitive.
    destruct (JS.lookup "toString" props); [ discriminate | eexists; reflexivity ].
Qed.

Lemma String_tame v : tame_opt v = true -> exists s, JS.String_ v = inr s.
Proof.
  destruct v; cbn; [ apply ToString_tame | eexists; reflexivity ].
Qed.

Lemma Number_tame v : tame_opt v = true -> exists n, JS.Number_ v = inr n.
Proof.
  destruct v as [ [ | b | x | s | elems | props ] | ]; intros Hv;
    try (eexists; reflexivity).
  - destruct (ToString_tame (JArr elems) Hv) as [s Es].
    cbn [JS.Number_]. rewrite Es. eexists; reflexivity.
  - cbn [tame_opt tame] in Hv. cbn [JS.Number_]. unfold JS.object_to_primitive.
    destruct (JS.lookup "toString" props); [ discriminate | eexists; reflexivity ].
Qed.

Lemma String_or_tame v dflt :
  tame_opt v = true -> exists s, JS.String_or v dflt = inr s.
Proof.
  intros Hv. unfold JS.String_or.
  destruct (JS.truthy v); [ apply String_tame; exact Hv | eexists; reflexivity ].
Qed.

Lemma Number_or_tame v dflt :
  tame_opt v = true -> exists n, JS.Number_or v dflt = inr n.
Proof.
  intros Hv. unfold JS.Number_or. destruct (Number_tame v Hv) as [n ->].
  eexists; reflexivity.
Qed.

Lemma normalize_item_tame item :
  is_null item = false -> tame item = true ->
  exists it, normalize_item item = inr it.
Proof.
  intros Hn Ht.
  assert (item <> JNull) as Hi by (intros ->; discriminate).
  unfold normalize_item. rewrite !(get_not_null item _ Hi). cbn [bind ret].
  destruct (String_or_tame (JS.prop item "name") "Item"
              (tame_opt_prop _ _ Ht)) as [s ->].
  destruct (Number_or_tame (JS.prop item "quantity") Num.one
              (tame_opt_prop _ _ Ht)) as [q ->].
  destruct (Number_or_tame (JS.prop item "unitPrice") Num.zero
              (tame_opt_prop _ _ Ht)) as [u ->].
  destruct (Number_or_tame (JS.prop item "totalPrice") Num.zero
              (tame_opt_prop _ _ Ht)) as [t ->].
  eexists; reflexivity.
Qed.

Lemma map_items_tame elems :
  forallb (fun x => negb (is_null x)) elems = true ->
  forallb tame elems = true ->
  exists its, map_items elems = inr its.
Proof.
  induction elems as [ | x rest IH ]; cbn [forallb map_items];
    [ eexists; reflexivity | ].
  intros Hn Ht. apply andb_true_iff in Hn as [Hx Hn], Ht as [Htx Ht].
  destruct (normalize_item_tame x) as [it ->];
    [ destruct (is_null x); [ discriminate | reflexivity ] | exact Htx | ].
  destruct (IH Hn Ht) as [its ->]. eexists; reflexivity.
Qed.

Lemma validate_tame c d :
  primitive_root d = false -> tame d = true -> items_not_null d = true ->
  exists r, validateReceiptData c d = inr r.
Proof.
  intros P Ht Hn.
  destruct (validate_structured d P) as [G Hd].
  unfold validateReceiptData. rewrite G.
  rewrite !(get_not_null d _ Hd). cbn [bind ret].
  rewrite !(get_not_null _ _ (or_empty_object_not_null _)). cbn [bind ret].
  pose proof (tame_or_empty_object _ (tame_opt_prop d "merchant" Ht)) as Hm.
  pose proof (tame_or_empty_object _ (tame_opt_prop d "transaction" Ht)) as Htr.
  pose proof (tame_or_empty_object _ (tame_opt_prop d "totals" Ht)) as Hto.
  destruct (String_or_tame _ "Unknown Merchant" (tame_opt_prop _ "name" Hm))
    as [s1 ->].
  destruct (String_or_tame _ EmptyString (tame_opt_prop _ "address" Hm))
    as [s2 ->].
  destruct (String_or_tame _ EmptyString (tame_opt_prop _ "contact" Hm))
    as [s3 ->].
  cbn [bind].
  set (tx := JS.or_empty_object (JS.prop d "transaction")) in *.
  assert (exists s, (if JS.truthy (JS.prop tx "date")
                     then JS.String_ (JS.prop tx "date")
                     else ret (Date.iso_date (new_Date c))) = inr s) as [s4 ->]
    by (destruct (JS.truthy (JS.prop tx "date"));
        [ apply String_tame, tame_opt_prop, Htr | eexists; reflexivity ]).
  assert (exists s, (if JS.truthy (JS.prop tx "receipt_number")
                     then JS.String_ (JS.prop tx "receipt_number")
                     else ret ("REC" ++ Str.of_Z (Date_now c))) = inr s) as [s5 ->]
    by (destruct (JS.truthy (JS.prop tx "receipt_number"));
        [ apply String_tame, tame_opt_prop, Htr | eexists; reflexivity ]).
  destruct (String_or_tame _ "Unknown" (tame_opt_prop _ "payment_method" Htr))
    as [s6 ->].
  cbn [bind].
  assert (exists its, match JS.prop d "items" with
                      | Some (JArr elems) => map_items elems
                      | _ => ret []
                      end = inr its) as [its ->].
  { unfold items_not_null in Hn. pose proof (tame_opt_prop d "items" Ht) as Hi.
    destruct (JS.prop d "items") as [ [ | | | | elems | ] | ];
      try (eexists; reflexivity).
    apply map_items_tame; assumption. }
  destruct (Number_or_tame _ Num.zero (tame_opt_prop _ "subtotal" Hto)) as [n1 ->].
  destruct (Number_or_tame _ Num.zero (tame_opt_prop _ "tax" Hto)) as [n2 ->].
  destruct (Number_or_tame _ Num.zero (tame_opt_prop _ "total" Hto)) as [n3 ->].
  destruct (String_or_tame _ "USD" (tame_opt_prop _ "currency" Hto)) as [s7 ->].
  eexists; reflexivity.
Qed.

(** The numbers and the currency of the totals, read off a result. *)
Lemma validate_totals c d r :
  validateReceiptData c d = inr r ->
  coerced (JS.prop (totals_of d) "subtotal") Num.zero (subtotal (totals r))
  /\ coerced (JS.prop (totals_of d) "tax") Num.zero (tax (totals r))
  /\ coerced (JS.prop (totals_of d) "total") Num.zero (total (totals r))
  /\ exists s, JS.String_or (JS.prop (totals_of d) "currency") "USD" = inr s
               /\ currency (totals r) = JS.toUpperCase s.
Proof.
  intros E. pose proof (validate_root c d r E) as P.
  destruct (validate_structured d P) as [G Hd].
  unfold validateReceiptData in E. rewrite G in E.
  rewrite !(get_not_null d _ Hd) in E. cbn [bind ret] in E.
  rewrite !(get_not_null _ _ (or_empty_object_not_null _)) in E.
  cbn [bind ret] in E.
  repeat inv_bind E. injection E as <-. cbn [totals subtotal tax total currency].
  unfold totals_of.
  repeat match goal with
         | Hn : JS.Number_or _ _ = inr _ |- _ => apply Number_or_inr in Hn
         end.
  repeat split; eauto.
Qed.

End TameFacts.

(** [validateReceiptData] returns a result on every object or array in which
    no element of [items] is [null] and no object has an own property
    [toString]; what it throws otherwise is "Invalid receipt data structure"
    on a primitive root, and a TypeError on such an input. *)
Theorem validate_returns_on_tame_input {H : Host} (c : Clock) (d : json) :
  (primitive_root d = false -> tame d = true -> items_not_null d = true ->
   exists r, validateReceiptData c d = inr r)
  /\ (forall e, validateReceiptData c d = inl e ->
                (primitive_root d = true /\ e = InvalidShape)
                \/ (primitive_root d = false
                    /\ (tame d = false \/ items_not_null d = false)
                    /\ exists m, e = TypeError m)).
Proof.
  split; [ apply validate_tame | ].
  intros e E. destruct (primitive_root d) eqn:P.
  - left. rewrite (validate_primitive_root c d P) in E. injection E as <-. auto.
  - right. split; [ reflexivity | split ].
    + destruct (tame d) eqn:T; [ | auto ].
      destruct (items_not_null d) eqn:I; [ | auto ].
      destruct (validate_tame c d P T I) as [r Er]. congruence.
    + exact (validate_structured_root c d P e E).
Qed.

Lemma validate_returns_on_tame_input_witness :
  primitive_root Sample.no_items = false
  /\ tame Sample.no_items = true
  /\ items_not_null Sample.no_items = true
  /\ exists r,
       validateReceiptData (H := SampleHost.host) Sample.clock2 Sample.no_items
       = inr r.
Proof.
  do 3 (split; [ reflexivity | ]).
  exact (proj1 (validate_returns_on_tame_input
                  (H := SampleHost.host) Sample.clock2 Sample.no_items)
               eq_refl eq_refl eq_refl).
Defined.

(** In every result the subtotal, the tax and the total are the numbers the
    fields of [d.totals] coerce to, 0 in place of zero and NaN, so that none
    is NaN or a negative zero; the currency is the text of its field in
    upper case, "USD" when the field is missing or empty. *)
Theorem validate_totals_are_numbers {H : Host} (c : Clock) (d : json)
        (r : ReceiptData) :
  validateReceiptData c d = inr r ->
  (coerced (JS.prop (totals_of d) "subtotal") Num.zero (subtotal (totals r))
   /\ coerced (JS.prop (totals_of d) "tax") Num.zero (tax (totals r))
   /\ coerced (JS.prop (totals_of d) "total") Num.zero (total (totals r)))
  /\ (forall x, In x [subtotal (totals r); tax (totals r); total (totals r)] ->
                x <> S754_nan /\ x <> S754_zero true)
  /\ (exists s, JS.String_or (JS.prop (totals_of d) "currency") "USD" = inr s
                /\ currency (totals r) = JS.toUpperCase s)
  /\ (JS.truthy (JS.prop (totals_of d) "currency") = false ->
      currency (totals r) = "USD").
Proof.
  intros E. destruct (validate_totals c d r E) as (Hs & Ht & Hto & Hc).
  split; [ auto | split; [ | split; [ exact Hc | ] ] ].
  - intros x [ <- | [ <- | [ <- | [] ] ] ];
      [ destruct Hs as (y & _ & ->) | destruct Ht as (y & _ & ->)
        | destruct Hto as (y & _ & ->) ];
      destruct y as [ [ | ] | | | ]; split; discriminate.
  - intros Hf. destruct Hc as (s & Es & ->).
    unfold JS.String_or in Es. rewrite Hf in Es. injection Es as <-. reflexivity.
Qed.

Lemma validate_totals_are_numbers_witness :
  validateReceiptData (H := SampleHost.host) Sample.clock1 Sample.no_items
  = inr Sample.no_items_normalized
  /\ coerced (H := SampleHost.host)
             (JS.prop (totals_of Sample.no_items) "total") Num.zero
             (total (totals Sample.no_items_normalized))
  /\ total (totals Sample.no_items_normalized) = Parse.StringToNumber "108.5".
Proof.
  split; [ reflexivity | split; [ | reflexivity ] ].
  exact (proj2 (proj2 (proj1 (validate_totals_are_numbers
                                (H := SampleHost.host) Sample.clock1
                                Sample.no_items Sample.no_items_normalized
                                eq_refl)))).
Defined.

(** ** The summary, the second step and the job *)

(** In the financial breakdown of the summary each amount that is finite and
    below 10^21 is printed after the currency as a sign, an integer, a point
    and two digits, and what is printed is within half a hundredth of the
    amount. *)
Theorem summary_amounts_have_two_decimals {H : Host} (r : ReceiptData) :
  let t := totals r in
  let fb := financialBreakdown (aiSummary r) in
  (positional (subtotal t) = true ->
   exists s, fb_subtotal fb = currency t ++ " " ++ s
             /\ two_decimals (subtotal t) s)
  /\ (positional (tax t) = true ->
      exists s, fb_tax fb = currency t ++ " " ++ s /\ two_decimals (tax t) s)
  /\ (positional (total t) = true ->
      exists s, fb_total fb = currency t ++ " " ++ s
                /\ two_decimals (total t) s).
Proof.
  cbv zeta. repeat split; intros Hp; eexists; (split; [ reflexivity | ]);
    apply toFixed2_two_decimals; exact Hp.
Qed.

Lemma summary_amounts_have_two_decimals_witness :
  positional (total (totals Sample.no_items_normalized)) = true
  /\ fb_total (financialBreakdown
                 (aiSummary (H := SampleHost.host) Sample.no_items_normalized))
     = "USD 108.50"
  /\ exists s,
       fb_total (financialBreakdown
                   (aiSummary (H := SampleHost.host) Sample.no_items_normalized))
       = "USD" ++ " " ++ s
       /\ two_decimals (total (totals Sample.no_items_normalized)) s.
Proof.
  split; [ reflexivity | split; [ reflexivity | ] ].
  exact (proj2 (proj2 (summary_amounts_have_two_decimals
                         (H := SampleHost.host) Sample.no_items_normalized))
               eq_refl).
Defined.

(** The second step calls the mutation once, with the arguments built from
    the normalized receipt, and reports one "scan" after it exactly when the
    mutation succeeded, for the user the mutation named; when the step
    returns, its value carries that user and the merchant, the total, the
    currency and the number of items of the receipt. *)
Theorem save_writes_once_then_reports {H : Host} (env : Env)
        (extractedData : ReceiptData) (w : World) :
  let args := mutation_args env extractedData in
  (exists evs,
      snd (save_to_database env extractedData w) = emits evs w
      /\ filter (fun ev => is_mutation ev || is_track ev) evs
         = Mutation args :: match mutation env args with
                            | inr u => [Track "scan" u]
                            | inl _ => []
                            end)
  /\ (forall s,
         fst (save_to_database env extractedData w) = inr s ->
         mutation env args = inr (userId s)
         /\ track env (userId s) = inr tt
         /\ success s = true
         /\ saved_receiptId s = receiptId env
         /\ saved_merchantName s = merchant_name (merchant extractedData)
         /\ totalAmount s = total (totals extractedData)
         /\ saved_currency s = currency (totals extractedData)
         /\ itemCount s = Z.of_nat (List.length (items extractedData))).
Proof.
  intros args. rewrite save_to_database_run. fold args.
  destruct (mutation env args) as [ e | u ] eqn:Em.
  - split; [ eexists; split; reflexivity | intros s E; discriminate ].
  - destruct (track env u) as [ e | [] ] eqn:Et.
    + split; [ eexists; split; reflexivity | intros s E; discriminate ].
    + split; [ eexists; split; reflexivity | ].
      intros s E. cbn [fst] in E. injection E as <-. cbn [userId].
      split; [ reflexivity | split; [ exact Et | repeat split ] ].
Qed.

Lemma save_writes_once_then_reports_witness :
  let env := Sample.env None (inr "user_1") (inr tt) in
  exists s,
    fst (save_to_database (H := SampleHost.host) env Sample.receipt world0) = inr s
    /\ mutation env (mutation_args (H := SampleHost.host) env Sample.receipt)
       = inr (userId s)
    /\ userId s = "user_1".
Proof.
  eexists. split; [ reflexivity | split; [ | reflexivity ] ].
  exact (proj1 (proj2 (save_writes_once_then_reports
                         (H := SampleHost.host)
                         (Sample.env None (inr "user_1") (inr tt))
                         Sample.receipt world0)
                      _ eq_refl)).
Defined.

(** The job writes to the database only what the first step returned: when
    the first step throws, the job throws the same and stops there, without
    a mutation or a usage report; when it returns, the second step runs on
    its value, and the job returns "completed" with that value, the value of
    the second step and the summary of the first. *)
Theorem job_saves_what_was_extracted {H : Host} (env : Env) (w : World) :
  (forall e,
      fst (extract_pdf_data env w) = inl e ->
      extractAndSavePDF env w = (inl e, snd (extract_pdf_data env w))
      /\ seen is_mutation (snd (extractAndSavePDF env w)) = seen is_mutation w
      /\ seen is_track (snd (extractAndSavePDF env w)) = seen is_track w)
  /\ (forall r,
         fst (extract_pdf_data env w) = inr r ->
         fst (extractAndSavePDF env w)
         = match fst (save_to_database env r (snd (extract_pdf_data env w))) with
           | inl e => inl e
           | inr s => inr {| status := "completed";
                             job_extractedData := r;
                             saveResult := s;
                             job_aiSummary := aiSummary r |}
           end).
Proof.
  pose proof (extract_unseen env is_mutation w) as Hm.
  pose proof (extract_unseen env is_track w) as Ht.
  unfold extractAndSavePDF, StepM.bind.
  destruct (extract_pdf_data env w) as [ [ e | r ] w1 ]; cbn [fst snd] in *.
  - split; [ | intros r E; discriminate ].
    intros e' E. injection E as <-. split; [ reflexivity | ]. cbn [snd]. split.
    + apply Hm; try reflexivity. intros [] K; try discriminate; reflexivity.
    + apply Ht; try reflexivity. intros [] K; try discriminate; reflexivity.
  - split; [ intros e E; discriminate | ].
    intros r' E. injection E as <-.
    destruct (save_to_database env r w1) as [ [ e | s ] w2 ]; reflexivity.
Qed.

Lemma job_saves_what_was_extracted_witness :
  let env := Runs.run Runs.arrives_empty Runs.answers in
  fst (extract_pdf_data (H := SampleHost.host) env world0)
  = inl (Error "PDF file is empty")
  /\ fst (extractAndSavePDF (H := SampleHost.host) env world0)
     = inl (Error "PDF file is empty")
  /\ seen is_mutation (snd (extractAndSavePDF (H := SampleHost.host) env world0))
     = 0%nat.
Proof.
  split; [ reflexivity | ].
  destruct (proj1 (job_saves_what_was_extracted
                     (H := SampleHost.host)
                     (Runs.run Runs.arrives_empty Runs.answers) world0)
                  (Error "PDF file is empty") eq_refl) as (E & Hm & _).
  split; [ exact (f_equal fst E) | exact Hm ].
Defined.

(** A run that goes through: the document arrives at the third request, the
    model answers at the second call, the receipt is stored and the scan
    reported. *)
Example job_completes :
  let run := extractAndSavePDF (H := SampleHost.host)
               (Runs.run Runs.arrives_late Runs.answers_late) world0 in
  (exists res, fst run = inr res /\ status res = "completed")
  /\ filter (fun ev => negb (chatter ev || is_mutation ev)) (trace (snd run))
     = [ FetchDocument "https://x/receipt.pdf";
         FetchDocument "https://x/receipt.pdf";
         FetchDocument "https://x/receipt.pdf";
         ImportSdk;
         ProbeProvider "k";
         GenerateContent "models/gemini-2.5-flash" Sample.pdf;
         GenerateContent "models/gemini-2.5-flash" Sample.pdf;
         Track "scan" "user_1" ]
  /\ seen is_mutation (snd run) = 1%nat
  /\ sleeps (trace (snd run)) = [2000; 4000; 5000; 10000].
Proof.
  cbv zeta. split; [ eexists; split; vm_compute; reflexivity | ].
  repeat split; vm_compute; reflexivity.
Qed.

(** ** retryWithBackoff, whatever the operation does *)

Section RetryShape.

Context {T : Type}.
Variable outcome : nat -> result T.
Variables maxRetries base : Z.

Local Abbreviation loop :=
  (retry_loop meter_sleep (fun _ w => w) (scripted outcome) maxRetries base).

Lemma loop_shape :
  forall r a ws last,
    Z.of_nat (a + r) = maxRetries ->
    let run := loop r (Z.of_nat a) last {| calls := a; waits := ws |} in
    (a <= calls (snd run) <= a + r)%nat
    /\ ((0 < r)%nat -> (a < calls (snd run))%nat)
    /\ List.length (waits (snd run))
       = (List.length ws + pred (calls (snd run) - a))%nat
    /\ (forall e, (0 < r)%nat -> fst run = inl e ->
                  calls (snd run) = (a + r)%nat)
    /\ (forall v, fst run = inr v ->
                  exists k, (k < r)%nat /\ outcome (a + k)%nat = inr v
                            /\ (forall i, (i < k)%nat ->
                                          exists e, outcome (a + i)%nat = inl e)).
Proof.
  induction r as [ | r IH ]; intros a ws last Hm; cbv zeta;
    cbn [retry_loop scripted calls waits].
  - cbn [fst snd calls waits].
    split; [ lia | split; [ lia | split; [ lia | split ] ] ].
    + intros e Hr; lia.
    + intros v E; discriminate.
  - destruct (outcome a) as [ e | v ] eqn:Ea.
    + replace (Z.of_nat a + 1) with (Z.of_nat (S a)) by lia.
      destruct r as [ | r ].
      * replace (Z.of_nat a <? maxRetries - 1) with false
          by (symmetry; apply Z.ltb_ge; lia).
        cbn [retry_loop fst snd calls waits].
        split; [ lia | split; [ lia | split; [ | split ] ] ].
        -- replace (S a - a)%nat with 1%nat by lia. cbn [pred]. lia.
        -- intros e' _ _. lia.
        -- intros v E; discriminate.
      * replace (Z.of_nat a <? maxRetries - 1) with true
          by (symmetry; apply Z.ltb_lt; lia).
        destruct (IH (S a) (ws ++ [delayMs base (Z.of_nat a) (as_Error e)])%list
                     (Some (as_Error e)) ltac:(lia))
          as (Hc & Hpos & Hlen & Hfail & Hok).
        cbv zeta in *. specialize (Hpos ltac:(lia)).
        match type of Hc with
        | (_ <= calls (snd ?t) <= _)%nat =>
            set (rest := t) in *;
            match goal with
            | |- context [snd ?g] => change g with rest
            end
        end.
        split; [ lia | split; [ lia | split; [ | split ] ] ].
        -- etransitivity; [ exact Hlen | ]. rewrite length_app. cbn [List.length].
           lia.
        -- intros e' _ E. rewrite (Hfail e' ltac:(lia) E). lia.
        -- intros v E. destruct (Hok v E) as (k & Hk & Hv & Hbefore).
           exists (S k). split; [ lia | split ].
           ++ replace (a + S k)%nat with (S a + k)%nat by lia. exact Hv.
           ++ intros [ | i ] Hi.
              ** rewrite Nat.add_0_r. eauto.
              ** replace (a + S i)%nat with (S a + i)%nat by lia.
                 apply Hbefore. lia.
    + cbn [fst snd calls waits].
      split; [ lia | split; [ lia | split; [ | split ] ] ].
      * replace (S a - a)%nat with 1%nat by lia. cbn [pred]. lia.
      * intros e _ E; discriminate.
      * intros v' E. injection E as <-. exists 0%nat.
        rewrite Nat.add_0_r. split; [ lia | split; [ exact Ea | lia ] ].
Qed.

Lemma delays_length a k : List.length (delays outcome base a k) = k.
Proof. unfold delays. rewrite length_map, length_seq. reflexivity. Qed.

End RetryShape.

Lemma sum_prefix_le (f ub : nat -> Z) :
  (forall i, 0 <= ub i) -> (forall i, f i <= ub i) ->
  forall m M a,
    (m <= M)%nat ->
    fold_right Z.add 0 (map f (seq a m)) <= fold_right Z.add 0 (map ub (seq a M)).
Proof.
  intros Hub Hf. induction m as [ | m IH ]; intros M a Hm.
  - cbn. clear Hm. revert a. induction M as [ | M IHM ]; intros a; cbn; [ lia | ].
    specialize (IHM (S a)). specialize (Hub a). lia.
  - destruct M as [ | M ]; [ lia | ]. cbn.
    specialize (IH M (S a) ltac:(lia)). specialize (Hf a). lia.
Qed.

Lemma run_metered_shape {T : Type} (outcome : nat -> result T)
      (maxRetries baseDelayMs : Z) :
  let run := run_metered outcome maxRetries baseDelayMs in
  (calls (snd run) <= Z.to_nat maxRetries)%nat
  /\ (0 < maxRetries -> (1 <= calls (snd run))%nat)
  /\ List.length (waits (snd run)) = pred (calls (snd run))
  /\ (forall e, fst run = inl e -> calls (snd run) = Z.to_nat maxRetries)
  /\ (maxRetries <= 0 ->
      fst run = inl (Error "Max retries exceeded") /\ calls (snd run) = 0%nat).
Proof.
  cbv zeta. unfold run_metered, retryWithBackoff, meter0.
  destruct (Z.leb_spec maxRetries 0) as [ Hle | Hpos ].
  - replace (Z.to_nat maxRetries) with 0%nat by lia.
    cbn. repeat split; try lia.
  - destruct (loop_shape outcome maxRetries baseDelayMs (Z.to_nat maxRetries)
                0%nat [] None ltac:(cbn [Nat.add]; lia))
      as (Hc & Hp & Hlen & Hfail & _).
    cbv zeta in *. change (Z.of_nat 0) with 0 in *. cbn [Nat.add] in *.
    split; [ lia | split; [ lia | split; [ | split ] ] ].
    + rewrite Hlen. cbn [List.length]. lia.
    + intros e E. apply (Hfail e); [ lia | exact E ].
    + lia.
Qed.

(** Whatever the operation does, it is invoked at most [maxRetries] times, at
    least once when [maxRetries] is positive and that many times when the
    call ends in an exception; the call waits once between two invocations
    and never after the last; and with no attempt to make it throws "Max
    retries exceeded" without invoking the operation. *)
Theorem retry_invokes_and_waits_in_turn {T : Type} (outcome : nat -> result T)
        (maxRetries baseDelayMs : Z) :
  let run := run_metered outcome maxRetries baseDelayMs in
  (calls (snd run) <= Z.to_nat maxRetries)%nat
  /\ (0 < maxRetries -> (1 <= calls (snd run))%nat)
  /\ List.length (waits (snd run)) = pred (calls (snd run))
  /\ (forall e, fst run = inl e -> calls (snd run) = Z.to_nat maxRetries)
  /\ (maxRetries <= 0 ->
      fst run = inl (Error "Max retries exceeded") /\ calls (snd run) = 0%nat).
Proof. apply run_metered_shape. Qed.

Lemma retry_invokes_and_waits_in_turn_witness :
  0 < 5
  /\ (1 <= calls (snd (run_metered (Sample.fails_then 3 (Error "x") 7) 5 2000)))%nat
  /\ run_metered (Sample.fails_then 3 (Error "x") 7) 0 2000
     = (inl (Error "Max retries exceeded"), meter0).
Proof.
  split; [ lia | split; [ | reflexivity ] ].
  refine (proj1 (proj2 (retry_invokes_and_waits_in_turn
                          (Sample.fails_then 3 (Error "x") 7) 5 2000)) _).
  lia.
Defined.

(** The call returns a value exactly when one of the first [maxRetries]
    invocations succeeds, and the value is that of the first one to
    succeed. *)
Theorem retry_returns_the_first_success {T : Type} (outcome : nat -> result T)
        (maxRetries baseDelayMs : Z) (v : T) :
  fst (run_metered outcome maxRetries baseDelayMs) = inr v
  <-> exists k, Z.of_nat k < maxRetries /\ outcome k = inr v
                /\ forall i, (i < k)%nat -> exists e, outcome i = inl e.
Proof.
  unfold run_metered, retryWithBackoff, meter0. split.
  - intros E. destruct (Z.leb_spec maxRetries 0) as [ Hle | Hpos ].
    + replace (Z.to_nat maxRetries) with 0%nat in E by lia. discriminate.
    + destruct (loop_shape outcome maxRetries baseDelayMs (Z.to_nat maxRetries)
                  0%nat [] None ltac:(cbn [Nat.add]; lia))
        as (_ & _ & _ & _ & Hok).
      cbv zeta in Hok. change (Z.of_nat 0) with 0 in Hok.
      destruct (Hok v E) as (k & Hk & Hv & Hbefore). cbn [Nat.add] in *.
      exists k. split; [ lia | auto ].
  - intros (k & Hk & Hv & Hbefore).
    assert (L := loop_succeeds outcome maxRetries baseDelayMs v k
                   (Z.to_nat maxRetries) 0%nat [] None
                   ltac:(lia) ltac:(cbn [Nat.add]; lia) Hbefore Hv).
    change (Z.of_nat 0) with 0 in L. rewrite L. reflexivity.
Qed.

Lemma retry_returns_the_first_success_witness :
  fst (run_metered (Sample.fails_then 3 (Error "x") 7) 5 2000) = inr 7
  /\ exists k, Z.of_nat k < 5
               /\ Sample.fails_then 3 (Error "x") 7 k = inr 7
               /\ forall i, (i < k)%nat ->
                            exists e, Sample.fails_then 3 (Error "x") 7 i = inl e.
Proof.
  split; [ reflexivity | ].
  exact (proj1 (retry_returns_the_first_success
                  (Sample.fails_then 3 (Error "x") 7) 5 2000 7) eq_refl).
Defined.

(** With a delay base that is not negative, a call never waits longer in all
    than the sum, over the attempts but the last, of the larger of the
    exponential delay and ten seconds; with the default five attempts and
    two seconds that is 46 seconds, and 30 seconds when no failure is a rate
    limit. *)
Theorem retry_total_wait_is_bounded {T : Type} (outcome : nat -> result T)
        (maxRetries baseDelayMs : Z) :
  0 <= baseDelayMs ->
  0 <= total_wait (snd (run_metered outcome maxRetries baseDelayMs))
       <= longest_wait maxRetries baseDelayMs
  /\ longest_wait 5 2000 = 46000
  /\ ((forall i e, outcome i = inl e -> isRateLimit e = false) ->
      maxRetries = 5 -> baseDelayMs = 2000 ->
      total_wait (snd (run_metered outcome maxRetries baseDelayMs)) <= 30000).
Proof.
  intros Hbase.
  pose proof (run_metered_shape outcome maxRetries baseDelayMs)
    as (Hc & _ & Hlen & _).
  cbv zeta in Hc, Hlen.
  unfold run_metered, retryWithBackoff, meter0 in *.
  destruct (loop_waits outcome maxRetries baseDelayMs
              (Z.to_nat maxRetries) 0%nat [] None) as (m & Hw & Hf).
  change (Z.of_nat 0) with 0 in Hw. cbn [app] in Hw.
  assert (m <= Z.to_nat (maxRetries - 1))%nat as Hm.
  { rewrite Hw, delays_length in Hlen. lia. }
  unfold total_wait. rewrite Hw. unfold delays.
  assert (forall i, 0 <= delay_after outcome baseDelayMs i
                    <= Z.max (baseDelayMs * 2 ^ Z.of_nat i) 10000) as Hd.
  { intros i. unfold delay_after, delayMs.
    assert (0 <= baseDelayMs * 2 ^ Z.of_nat i)
      by (apply Z.mul_nonneg_nonneg; [ lia | apply Z.pow_nonneg; lia ]).
    destruct (isRateLimit _); lia. }
  split; [ split | split; [ reflexivity | ] ].
  - clear - Hd. generalize 0%nat as a. induction m as [ | m IH ]; intros a; cbn.
    + lia.
    + specialize (IH (S a)). specialize (Hd a). lia.
  - unfold longest_wait. apply sum_prefix_le; [ intros i; lia | apply Hd | exact Hm ].
  - intros Hrate -> ->. change (Z.to_nat (5 - 1)) with 4%nat in Hm.
    assert (forall i, (i < m)%nat ->
                      delay_after outcome 2000 i = 2000 * 2 ^ Z.of_nat i) as Hx.
    { intros i Hi. destruct (Hf i Hi) as [e He]. cbn [Nat.add] in He.
      unfold delay_after. rewrite He. cbn [failure].
      apply delayMs_other. rewrite isRateLimit_as_Error. eauto. }
    destruct m as [ | [ | [ | [ | [ | m ] ] ] ] ]; try lia; cbn [seq map fold_right];
      rewrite ?Hx by lia; cbn; lia.
Qed.

Lemma retry_total_wait_is_bounded_witness :
  0 <= 2000
  /\ total_wait (snd (run_metered
                        (Sample.fails_then 9 (Error "429 quota exceeded") 7)
                        5 2000))
     <= longest_wait 5 2000
  /\ total_wait (snd (run_metered (Sample.fails_then 9 (Error "timeout") 7)
                                  5 2000))
     <= 30000.
Proof.
  split; [ lia | split ].
  - exact (proj2 (proj1 (retry_total_wait_is_bounded
                           (Sample.fails_then 9 (Error "429 quota exceeded") 7)
                           5 2000 ltac:(lia)))).
  - refine (proj2 (proj2 (retry_total_wait_is_bounded
                            (Sample.fails_then 9 (Error "timeout") 7)
                            5 2000 ltac:(lia)))
                  _ eq_refl eq_refl).
    intros i e. unfold Sample.fails_then.
    destruct (i <? 9)%nat; intros E; [ injection E as <-; reflexivity | discriminate ].
Defined.


(** * The upload *)

Ltac run_action :=
  unfold uploadPDF, getFileDownloadUrl, ActM.try_catch, ActM.bind, ActM.ask,
    ActM.say, ActM.ret, ActM.throw in *;
  cbn beta iota in *.

Ltac split_on x :=
  lazymatch x with
  | context [match ?y with _ => _ end] => split_on y
  | _ => destruct x eqn:?
  end.

Ltac split_action :=
  repeat (match goal with
          | |- context [match ?x with _ => _ end] => split_on x
          | |- context [if ?x then _ else _] => split_on x
          end; cbn [fst snd] in *).

(** The lookup of the download URL never throws; it finds a URL exactly
    when the database gave a non-empty string, which it returns. *)
Theorem download_url_lookup_never_throws
        (up : Upstream) (fileId : option json) (t : list call) :
  exists r,
    fst (getFileDownloadUrl up fileId t) = inr r /\
    forall u, r = Found u <->
              (getReceiptDownloadUrl up fileId = inr (Some u) /\ u <> EmptyString).
Proof.
  run_action.
  destruct (getReceiptDownloadUrl up fileId) as [e | [u | ]]; cbn [fst].
  - eexists; split; [ reflexivity | ].
    intros u; split; [ discriminate | intros [? _]; discriminate ].
  - destruct u as [ | c u]; cbn [Str.truthy fst];
      (eexists; split; [ reflexivity | ]); intros u'; split.
    + discriminate.
    + intros [E Hn]. injection E as <-. congruence.
    + intros E. injection E as <-. split; [ reflexivity | discriminate ].
    + intros [E _]. injection E as <-. reflexivity.
  - eexists; split; [ reflexivity | ].
    intros u; split; [ discriminate | intros [? _]; discriminate ].
Qed.

Section UploadFacts.

Context `{Casing}.

(** Once the user is known, [uploadPDF] never throws: whatever fails
    afterwards comes back as a value. *)
Theorem upload_reports_every_failure
        (up : Upstream) (file : option entry) (t : list call) (u : option User) :
  currentUser up = inr u ->
  exists r, fst (uploadPDF up file t) = inr r.
Proof.
  intros Hu. run_action. rewrite Hu.
  split_action; eexists; reflexivity.
Qed.

End UploadFacts.

Section UploadRuns.

Context `{Casing}.

Lemma filter_outbound_say (t : list call) (l : level) (text : string) :
  filter outbound (t ++ [Say l text]) = filter outbound t.
Proof. rewrite filter_app. cbn. apply app_nil_r. Qed.

(** [uploadPDF] reaches the storage, the database or the event service
    only for a signed-in user and a file that passes its PDF check. *)
Theorem upload_calls_need_a_signed_in_pdf
        (up : Upstream) (file : option entry) (t : list call) :
  filter outbound (snd (uploadPDF up file t)) <> filter outbound t ->
  exists user f,
    currentUser up = inr (Some user) /\ file = Some (FileEntry f) /\
    is_pdf_on_server f = true.
Proof.
  run_action.
  destruct (currentUser up) as [e | [user | ]]; cbn [snd];
    [ congruence | | congruence ].
  destruct file as [[f | [ | c s]] | ]; cbn [snd];
    rewrite ?filter_outbound_say; try congruence.
  destruct (is_pdf_on_server f) eqn:E; cbn [negb snd]; [ | congruence ].
  intros _. exists user, f. auto.
Qed.

(** The value of [uploadPDF] does not depend on the download URL query
    nor on the event service. *)
Theorem upload_result_ignores_the_dispatch
        (up : Upstream) (query : option json -> result (option string))
        (event_service : option string -> string -> result unit)
        (file : option entry) (t t' : list call) :
  fst (uploadPDF (with_dispatch up query event_service) file t)
  = fst (uploadPDF up file t').
Proof.
  run_action. cbn [with_dispatch currentUser generateUploadUrl post storeReceipt
                   getReceiptDownloadUrl send].
  destruct (currentUser up) as [e | [user | ]]; [ reflexivity | | reflexivity ].
  destruct file as [[f | [ | c s]] | ]; try reflexivity.
  destruct (negb (is_pdf_on_server f)); [ reflexivity | ].
  destruct (generateUploadUrl up) as [e | uploadUrl]; [ reflexivity | ].
  destruct (arrayBuffer f) as [e | bytes]; [ reflexivity | ].
  destruct (post up uploadUrl (file_type f) bytes) as [e | [ | ] status text body];
    try reflexivity.
  destruct body as [e | body]; [ reflexivity | ].
  destruct (JS.get body "storageId") as [e | storageId]; [ reflexivity | ].
  destruct (storeReceipt up _) as [e | rid]; [ reflexivity | ].
  split_action; reflexivity.
Qed.

End UploadRuns.

Section UploadOutcome.

Context `{Casing}.



(** A successful [uploadPDF] sends the extraction event once, after the
    receipt is stored, with the id of the receipt and with the download URL
    that the query gave for the stored file; when the query fails, or gives
    null or an empty string, the event goes out without a URL. *)
Theorem upload_dispatches_the_found_url
        (up : Upstream) (file : option entry) (t : list call)
        (rid name : string) :
  fst (uploadPDF up file t) = inr (Uploaded rid name) ->
  exists args before after,
    snd (uploadPDF up file t) = (t ++ before ++ StoreReceipt args :: after)%list /\
    filter sends before = [] /\
    filter sends after
    = [SendEvent (found_url (getReceiptDownloadUrl up (fileId args))) rid].
Proof.
  run_action.
  destruct (currentUser up) as [e | [user | ]]; [ discriminate | | discriminate ].
  destruct file as [[f | [ | c s]] | ]; try discriminate.
  destruct (negb (is_pdf_on_server f)); [ discriminate | ].
  destruct (generateUploadUrl up) as [e | uploadUrl]; [ discriminate | ].
  destruct (arrayBuffer f) as [e | bytes]; [ discriminate | ].
  destruct (post up uploadUrl (file_type f) bytes) as [e | [ | ] status text body];
    try discriminate.
  destruct body as [e | body]; [ discriminate | ].
  destruct (JS.get body "storageId") as [e | storageId]; [ discriminate | ].
  match goal with
  | |- context [storeReceipt up ?a] =>
      set (args := a); destruct (storeReceipt up args) as [e | rid'] eqn:Hstore
  end; [ discriminate | ].
  exists args, [GenerateUploadUrl; Post uploadUrl (file_type f) bytes].
  change (fileId args) with storageId.
  destruct (getReceiptDownloadUrl up storageId) as [e | [[ | c u] | ]];
    cbn [fst snd Str.truthy downloadUrl_of found_url] in *;
    split_action;
    match goal with E : inr _ = inr _ |- _ => injection E as -> _ end;
    rewrite <- ?app_assoc; cbn [app];
    (eexists; split; [ reflexivity | split; reflexivity ]).
Qed.

End UploadOutcome.

(** * The drop zone *)

Section DropzoneFacts.

Context `{Casing}.
Variable user : option User.
Variable uploadPDF_result : nat -> File -> result UploadResult.

Lemma upload_each_all (pdfFiles : list File) :
  forall (i : nat) (names : list string),
    (forall j f, nth_error pdfFiles j = Some f ->
                 accepted (uploadPDF_result (i + j) f) = true) ->
    upload_each uploadPDF_result i pdfFiles names
    = (inr (names ++ map file_name pdfFiles)%list, map CallUploadPDF pdfFiles).
Proof.
  induction pdfFiles as [ | file rest IH]; intros i names Hall; cbn [upload_each map].
  - rewrite app_nil_r. reflexivity.
  - pose proof (Hall 0%nat file eq_refl) as H0. rewrite Nat.add_0_r in H0.
    destruct (uploadPDF_result i file) as [e | [rid name | error]];
      try discriminate.
    rewrite IH.
    + rewrite <- app_assoc. reflexivity.
    + intros j f Hj. specialize (Hall (S j) f Hj).
      rewrite Nat.add_succ_r in Hall. exact Hall.
Qed.

Lemma upload_each_stops (pdfFiles : list File) :
  forall (i k : nat) (names : list string) (file : File) (e : exn),
    nth_error pdfFiles k = Some file ->
    (forall j f, (j < k)%nat -> nth_error pdfFiles j = Some f ->
                 accepted (uploadPDF_result (i + j) f) = true) ->
    refusal (uploadPDF_result (i + k) file) = Some e ->
    upload_each uploadPDF_result i pdfFiles names
    = (inl e, map CallUploadPDF (firstn (S k) pdfFiles)).
Proof.
  induction pdfFiles as [ | first rest IH]; intros i k names file e Hk Hbefore He.
  - destruct k; discriminate.
  - destruct k as [ | k]; cbn [upload_each].
    + injection Hk as <-. rewrite Nat.add_0_r in He.
      destruct (uploadPDF_result i first) as [e' | [rid name | error]];
        cbn [refusal] in He; try discriminate; injection He as <-;
        destruct rest; reflexivity.
    + pose proof (Hbefore 0%nat first ltac:(lia) eq_refl) as H0.
      rewrite Nat.add_0_r in H0.
      destruct (uploadPDF_result i first) as [e' | [rid name | error]];
        try discriminate.
      rewrite (IH (S i) k _ file e).
      * reflexivity.
      * exact Hk.
      * intros j f Hj Hf. specialize (Hbefore (S j) f ltac:(lia) Hf).
        rewrite Nat.add_succ_r in Hbefore. exact Hbefore.
      * rewrite Nat.add_succ_r in He. exact He.
Qed.

Lemma upload_each_done (pdfFiles : list File) :
  forall (i : nat) (names newUploadedFiles : list string) (effects : list effect),
    upload_each uploadPDF_result i pdfFiles names = (inr newUploadedFiles, effects) ->
    forall j f, nth_error pdfFiles j = Some f ->
                accepted (uploadPDF_result (i + j) f) = true.
Proof.
  induction pdfFiles as [ | first rest IH];
    intros i names new effects Hrun j f Hj.
  - destruct j; discriminate.
  - cbn [upload_each] in Hrun.
    destruct (uploadPDF_result i first) as [e' | [rid name | error]] eqn:E;
      try discriminate.
    destruct (upload_each uploadPDF_result (S i) rest _) as [r effs] eqn:Erest.
    injection Hrun as -> _.
    destruct j as [ | j].
    + injection Hj as <-. rewrite Nat.add_0_r, E. reflexivity.
    + rewrite Nat.add_succ_r. exact (IH _ _ _ _ Erest j f Hj).
Qed.

Lemma upload_each_sent (pdfFiles : list File) :
  forall (i : nat) (names : list string) (f : File),
    In f (sent_files (snd (upload_each uploadPDF_result i pdfFiles names))) ->
    In f pdfFiles.
Proof.
  induction pdfFiles as [ | first rest IH]; intros i names f; cbn [upload_each].
  - intros [].
  - destruct (uploadPDF_result i first) as [e' | [rid name | error]];
      cbn [snd sent_files flat_map app].
    + intros [-> | []]. left. reflexivity.
    + specialize (IH (S i) (names ++ [file_name first])%list f).
      destruct (upload_each uploadPDF_result (S i) rest _) as [r effs].
      cbn [snd sent_files flat_map app] in *.
      intros [-> | Hin]; [ left; reflexivity | right; exact (IH Hin) ].
    + intros [-> | []]. left. reflexivity.
Qed.

Lemma sent_files_app (a b : list effect) :
  sent_files (a ++ b) = (sent_files a ++ sent_files b)%list.
Proof. apply flat_map_app. Qed.

Lemma upload_each_stays (pdfFiles : list File) :
  forall (i : nat) (names : list string),
    navigates (snd (upload_each uploadPDF_result i pdfFiles names)) = false.
Proof.
  induction pdfFiles as [ | first rest IH]; intros i names; cbn [upload_each].
  - reflexivity.
  - destruct (uploadPDF_result i first) as [e' | [rid name | error]];
      try reflexivity.
    specialize (IH (S i) (names ++ [file_name first])%list).
    destruct (upload_each uploadPDF_result (S i) rest _) as [r effs].
    exact IH.
Qed.

(** [handleUpload] sends the PDF files one after the other and stops at
    the first one that the server action does not take: the files after it
    are never sent, the failure is shown in a dialog, nothing is listed as
    uploaded, the page does not change, and the spinner is cleared. *)
Theorem handleUpload_stops_at_the_first_failure
        (u : User) (files : list File) (k : nat) (file : File) (e : exn) :
  user = Some u ->
  nth_error (filter is_pdf_on_client files) k = Some file ->
  (forall j f, (j < k)%nat ->
               nth_error (filter is_pdf_on_client files) j = Some f ->
               accepted (uploadPDF_result j f) = true) ->
  refusal (uploadPDF_result k file) = Some e ->
  handleUpload user uploadPDF_result files
  = (SetIsUploading true
     :: map CallUploadPDF (firstn (S k) (filter is_pdf_on_client files))
     ++ [ConsoleError ("Upload failed: " ++ message e);
         Alert ("Upload failed: " ++ message_or "Unknown error" e);
         SetIsUploading false])%list.
Proof.
  intros -> Hk Hbefore He. unfold handleUpload.
  destruct (filter is_pdf_on_client files) as [ | first rest] eqn:Epdf.
  - destruct k; discriminate.
  - rewrite (upload_each_stops (first :: rest) 0 k [] file e Hk Hbefore He).
    rewrite <- app_assoc. reflexivity.
Qed.

(** [handleUpload] opens the list of receipts only when the server action
    took every PDF file of the batch; then each of them was sent once, in
    the order of the selection, and their names are listed. *)
Theorem handleUpload_navigates_after_every_upload (files : list File) :
  navigates (handleUpload user uploadPDF_result files) = true ->
  (forall j f, nth_error (filter is_pdf_on_client files) j = Some f ->
               accepted (uploadPDF_result j f) = true) /\
  handleUpload user uploadPDF_result files
  = (SetIsUploading true
     :: map CallUploadPDF (filter is_pdf_on_client files)
     ++ [AppendUploadedFiles (map file_name (filter is_pdf_on_client files));
         ClearUploadedFilesAfter 5000;
         RouterPush "/receipts";
         SetIsUploading false])%list.
Proof.
  unfold handleUpload. destruct user as [u | ]; [ | discriminate ].
  destruct (filter is_pdf_on_client files) as [ | first rest] eqn:Epdf;
    [ discriminate | ].
  destruct (upload_each uploadPDF_result 0 (first :: rest) []) as [[e | new] effs]
    eqn:Erun.
  - pose proof (upload_each_stays (first :: rest) 0 []) as Hstay.
    rewrite Erun in Hstay. cbn [snd] in Hstay.
    unfold navigates in *. cbn [existsb orb].
    rewrite !existsb_app, Hstay. cbn. discriminate.
  - intros _.
    pose proof (upload_each_done _ _ _ _ _ Erun) as Hall.
    split; [ exact Hall | ].
    rewrite (upload_each_all (first :: rest) 0 [] Hall) in Erun.
    injection Erun as <- <-. rewrite <- app_assoc. reflexivity.
Qed.

(** Whatever is dropped on the zone, a file reaches the server action
    only when a user is signed in and entitled to scans, and the file is one
    of the dropped files that passes the PDF check of the server action
    too. *)
Theorem drop_sends_only_what_the_server_takes
        (isFeatureEnabled : bool) (files : list File) (f : File) :
  In f (sent_files (onDrop user uploadPDF_result isFeatureEnabled files)) ->
  user <> None /\ isFeatureEnabled = true /\ In f files /\
  is_pdf_on_server f = true.
Proof.
  unfold onDrop, handleDrop, handleUpload.
  destruct user as [u | ]; cbn [andb]; [ | intros [] ].
  destruct isFeatureEnabled; [ | intros [] ].
  cbn [sent_files flat_map app]. fold sent_files.
  destruct files as [ | f0 files']; [ intros [] | ].
  set (files := f0 :: files').
  destruct (filter is_pdf_on_client files) as [ | first rest] eqn:Epdf;
    [ intros [] | ].
  cbn [sent_files flat_map app]. fold sent_files.
  rewrite sent_files_app.
  pose proof (upload_each_sent (first :: rest) 0 [] f) as Hsent.
  destruct (upload_each uploadPDF_result 0 (first :: rest) []) as [[e | new] effs];
    cbn [snd] in Hsent; rewrite sent_files_app;
    cbn [sent_files flat_map app]; rewrite !app_nil_r;
    intros Hin; specialize (Hsent Hin); rewrite <- Epdf in Hsent;
    apply filter_In in Hsent; destruct Hsent as [Hfile Hclient];
    (split; [ discriminate | split; [ reflexivity | split; [ exact Hfile | ] ] ]);
    unfold is_pdf_on_client in Hclient; unfold is_pdf_on_server;
    apply orb_true_iff in Hclient; apply orb_true_iff;
    (destruct Hclient as [Htype | Hname];
     [ left; apply String.eqb_eq in Htype; rewrite Htype; reflexivity
     | right; exact Hname ]).
Qed.

End DropzoneFacts.

Lemma upload_reports_every_failure_witness :
  currentUser Upload.refusing = inr (Some Upload.ada) /\
  exists r,
    fst (uploadPDF (H := Upload.casing) Upload.refusing
                   (Some (FileEntry Upload.scan)) []) = inr r.
Proof.
  split; [ reflexivity | ].
  exact (upload_reports_every_failure
           (H := Upload.casing) Upload.refusing (Some (FileEntry Upload.scan)) []
           (Some Upload.ada) eq_refl).
Defined.

Lemma upload_calls_need_a_signed_in_pdf_witness :
  exists user f,
    currentUser Upload.upstream = inr (Some user) /\
    Some (FileEntry Upload.invoice) = Some (FileEntry f) /\
    is_pdf_on_server (H := Upload.casing) f = true.
Proof.
  apply (upload_calls_need_a_signed_in_pdf
           (H := Upload.casing) Upload.upstream
           (Some (FileEntry Upload.invoice)) []).
  vm_compute. discriminate.
Defined.

Lemma upload_dispatches_the_found_url_witness :
  exists args before after,
    snd (uploadPDF (H := Upload.casing) Upload.upstream
                   (Some (FileEntry Upload.scan)) [])
    = ([] ++ before ++ StoreReceipt args :: after)%list /\
    filter sends before = [] /\
    filter sends after
    = [SendEvent (found_url (getReceiptDownloadUrl Upload.upstream (fileId args)))
                 "receipt_1"].
Proof.
  apply (upload_dispatches_the_found_url
           (H := Upload.casing) Upload.upstream
           (Some (FileEntry Upload.scan)) [] "receipt_1" "Scan.PDF").
  vm_compute. reflexivity.
Defined.

Lemma handleUpload_stops_at_the_first_failure_witness :
  let files := [Upload.scan; Upload.notes; Upload.invoice; Upload.scan] in
  handleUpload (H := Upload.casing) (Some Upload.ada) Upload.second_fails files
  = [SetIsUploading true;
     CallUploadPDF Upload.scan;
     CallUploadPDF Upload.invoice;
     ConsoleError "Upload failed: Failed to upload file :Payload Too Large";
     Alert "Upload failed: Failed to upload file :Payload Too Large";
     SetIsUploading false].
Proof.
  intros files.
  refine (eq_trans
            (handleUpload_stops_at_the_first_failure
               (H := Upload.casing) (Some Upload.ada) Upload.second_fails
               Upload.ada files 1 Upload.invoice
               (Error "Failed to upload file :Payload Too Large")
               eq_refl _ _ eq_refl) _).
  - vm_compute. reflexivity.
  - intros [ | j] f Hj Hf; [ reflexivity | lia ].
  - vm_compute. reflexivity.
Defined.

Lemma handleUpload_navigates_after_every_upload_witness :
  let files := [Upload.scan; Upload.notes; Upload.invoice] in
  handleUpload (H := Upload.casing) (Some Upload.ada) Upload.all_pass files
  = [SetIsUploading true;
     CallUploadPDF Upload.scan;
     CallUploadPDF Upload.invoice;
     AppendUploadedFiles ["Scan.PDF"; "invoice"];
     ClearUploadedFilesAfter 5000;
     RouterPush "/receipts";
     SetIsUploading false].
Proof.
  intros files.
  refine (eq_trans
            (proj2 (handleUpload_navigates_after_every_upload
                      (H := Upload.casing) (Some Upload.ada) Upload.all_pass
                      files _)) _).
  - vm_compute. reflexivity.
  - vm_compute. reflexivity.
Defined.

Lemma drop_sends_only_what_the_server_takes_witness :
  Some Upload.ada <> None /\ true = true /\
  In Upload.scan [Upload.notes; Upload.scan] /\
  is_pdf_on_server (H := Upload.casing) Upload.scan = true.
Proof.
  apply (drop_sends_only_what_the_server_takes
           (H := Upload.casing) (Some Upload.ada) Upload.all_pass
           true [Upload.notes; Upload.scan] Upload.scan).
  vm_compute. left. reflexivity.
Defined.


(** * The code fences *)

Lemma includes_tail (pat : string) (c : ascii) (r : string) :
  Str.includes pat (String c r) = false -> Str.includes pat r = false.
Proof.
  cbn [Str.includes]. destruct (prefix pat (String c r)); [ discriminate | auto ].
Qed.

Lemma prefix_nil (s : string) : prefix EmptyString s = true.
Proof. destruct s; reflexivity. Qed.

#[local] Arguments ascii_dec : simpl never.

Ltac by_heads :=
  repeat (cbn;
          match goal with
          | |- context [ascii_dec ?a ?x] =>
              destruct (ascii_dec a x); try contradiction; try congruence
          end);
  rewrite ?prefix_nil; try reflexivity.

Lemma fence_kept (c : ascii) (r : string) :
  prefix Fence.fence (String c r) = false ->
  prefix Fence.fence (String c (Fence.remove Fence.fence Fence.Copy r)) = false.
Proof.
  unfold Fence.fence. intros Hp.
  destruct (ascii_dec "`" c) as [<- | Ec]; [ | by_heads ].
  destruct r as [ | c2 r2]; [ reflexivity | ].
  destruct (ascii_dec "`" c2) as [<- | Ec2]; [ | by_heads ].
  destruct r2 as [ | c3 r3]; [ reflexivity | ].
  destruct (ascii_dec "`" c3) as [<- | Ec3]; [ cbn in Hp; rewrite prefix_nil in Hp; discriminate | ].
  destruct r3 as [ | c4 r4]; by_heads.
Qed.

Lemma remove_leaves_no_fence (s : string) :
  forall st, Str.includes Fence.fence (Fence.remove Fence.fence st s) = false.
Proof.
  induction s as [ | c r IH]; intros st; [ reflexivity | ].
  assert (Hcopy :
            Str.includes Fence.fence
              (if prefix Fence.fence (String c r)
               then Fence.remove Fence.fence (Fence.Skip 1) r
               else String c (Fence.remove Fence.fence Fence.Copy r)) = false).
  { destruct (prefix Fence.fence (String c r)) eqn:Ep; [ apply IH | ].
    cbn [Str.includes]. rewrite (fence_kept c r Ep).
    destruct (Fence.remove Fence.fence Fence.Copy r) eqn:E;
      rewrite <- E; apply IH. }
  destruct st as [ | [ | n] | ]; cbn [Fence.remove]; try apply IH.
  - exact Hcopy.
  - destruct (Str.code c =? 10); [ apply IH | exact Hcopy ].
Qed.

Lemma prefix_app (pat : string) :
  forall a b, prefix pat a = true -> prefix pat (a ++ b) = true.
Proof.
  induction pat as [ | p pat IH]; intros a b; [ intros _; apply prefix_nil | ].
  destruct a as [ | c a]; cbn [prefix append]; [ discriminate | ].
  destruct (ascii_dec p c); [ apply IH | discriminate ].
Qed.

Lemma includes_prefix (pat : string) (a b : string) :
  Str.includes pat (a ++ b) = false -> Str.includes pat a = false.
Proof.
  induction a as [ | c a IH].
  - destruct pat; [ destruct b; cbn; discriminate | reflexivity ].
  - cbn [append Str.includes].
    destruct (prefix pat (String c a)) eqn:Ep.
    + change (String c (a ++ b)) with (String c a ++ b).
      rewrite (prefix_app pat _ b Ep). discriminate.
    + destruct (prefix pat (String c (a ++ b))); [ discriminate | exact IH ].
Qed.

Lemma includes_suffix (pat : string) (a b : string) :
  Str.includes pat (a ++ b) = false -> Str.includes pat b = false.
Proof.
  induction a as [ | c a IH]; [ auto | ].
  intros Hi. apply IH. exact (includes_tail pat c _ Hi).
Qed.

Lemma trimStart_suffix (n : nat) :
  forall s, (String.length s <= n)%nat -> exists a, s = a ++ Str.trimStart s.
Proof.
  induction n as [ | n IH]; intros s Hn;
    (destruct s as [ | c1 r1]; [ exists EmptyString; reflexivity | ]);
    cbn [String.length] in Hn; [ lia | ].
  cbn [Str.trimStart].
  destruct (Str.ws1 c1).
  { destruct (IH r1 ltac:(lia)) as [a Ha]. exists (String c1 a).
    cbn [append]. f_equal. exact Ha. }
  destruct r1 as [ | c2 r2]; [ exists EmptyString; reflexivity | ].
  cbn [String.length] in Hn.
  destruct (Str.ws2 c1 c2).
  { destruct (IH r2 ltac:(lia)) as [a Ha]. exists (String c1 (String c2 a)).
    cbn [append]. do 2 f_equal. exact Ha. }
  destruct r2 as [ | c3 r3]; [ exists EmptyString; reflexivity | ].
  cbn [String.length] in Hn.
  destruct (Str.ws3 c1 c2 c3); [ | exists EmptyString; reflexivity ].
  destruct (IH r3 ltac:(lia)) as [a Ha].
  exists (String c1 (String c2 (String c3 a))).
  cbn [append]. do 3 f_equal. exact Ha.
Qed.

Lemma trimStart_rev_suffix (n : nat) :
  forall s, (String.length s <= n)%nat -> exists a, s = a ++ Str.trimStart_rev s.
Proof.
  induction n as [ | n IH]; intros s Hn;
    (destruct s as [ | c1 r1]; [ exists EmptyString; reflexivity | ]);
    cbn [String.length] in Hn; [ lia | ].
  cbn [Str.trimStart_rev].
  destruct (Str.ws1 c1).
  { destruct (IH r1 ltac:(lia)) as [a Ha]. exists (String c1 a).
    cbn [append]. f_equal. exact Ha. }
  destruct r1 as [ | c2 r2]; [ exists EmptyString; reflexivity | ].
  cbn [String.length] in Hn.
  destruct (Str.ws2 c2 c1).
  { destruct (IH r2 ltac:(lia)) as [a Ha]. exists (String c1 (String c2 a)).
    cbn [append]. do 2 f_equal. exact Ha. }
  destruct r2 as [ | c3 r3]; [ exists EmptyString; reflexivity | ].
  cbn [String.length] in Hn.
  destruct (Str.ws3 c3 c2 c1); [ | exists EmptyString; reflexivity ].
  destruct (IH r3 ltac:(lia)) as [a Ha].
  exists (String c1 (String c2 (String c3 a))).
  cbn [append]. do 3 f_equal. exact Ha.
Qed.

Lemma list_of_append (a b : string) :
  list_ascii_of_string (a ++ b)
  = (list_ascii_of_string a ++ list_ascii_of_string b)%list.
Proof. induction a as [ | c a IH]; cbn; [ | rewrite IH ]; reflexivity. Qed.

Lemma string_of_app (l m : list ascii) :
  string_of_list_ascii (l ++ m)
  = string_of_list_ascii l ++ string_of_list_ascii m.
Proof. induction l as [ | c l IH]; cbn; [ | rewrite IH ]; reflexivity. Qed.

Lemma rev_append (a b : string) : Str.rev (a ++ b) = Str.rev b ++ Str.rev a.
Proof.
  unfold Str.rev. rewrite list_of_append, rev_app_distr. apply string_of_app.
Qed.

Lemma rev_rev (s : string) : Str.rev (Str.rev s) = s.
Proof.
  unfold Str.rev.
  rewrite list_ascii_of_string_of_list_ascii, rev_involutive.
  apply string_of_list_ascii_of_string.
Qed.

Lemma trimEnd_prefix (s : string) : exists b, s = Str.trimEnd s ++ b.
Proof.
  unfold Str.trimEnd.
  destruct (trimStart_rev_suffix _ (Str.rev s) (le_n _)) as [a Ha].
  exists (Str.rev a).
  rewrite <- rev_append, <- Ha. symmetry. apply rev_rev.
Qed.

Lemma trim_keeps_out (pat s : string) :
  Str.includes pat s = false -> Str.includes pat (Str.trim s) = false.
Proof.
  intros Hs. unfold Str.trim.
  destruct (trimStart_suffix _ s (le_n _)) as [a Ha].
  destruct (trimEnd_prefix (Str.trimStart s)) as [b Hb].
  rewrite Ha in Hs. apply includes_suffix in Hs.
  rewrite Hb in Hs. exact (includes_prefix _ _ _ Hs).
Qed.

(** Whatever the model answers, the text given to [JSON.parse] holds no
    code fence: no three grave accents in a row are left in it. *)
Theorem cleaned_text_has_no_fence (text : string) :
  Str.includes Fence.fence (Fence.clean text) = false.
Proof.
  unfold Fence.clean. apply trim_keeps_out, remove_leaves_no_fence.
Qed.

Lemma remove_plain (p : string) (s t : string) :
  no_backtick s = true ->
  Fence.remove (String "`" p) Fence.Copy (s ++ t)
  = s ++ Fence.remove (String "`" p) Fence.Copy t.
Proof.
  induction s as [ | c s IH]; [ reflexivity | ].
  unfold no_backtick. cbn [list_ascii_of_string forallb].
  intros Hs. apply andb_true_iff in Hs. destruct Hs as [Hc Hs].
  cbn [append Fence.remove prefix].
  destruct (ascii_dec "`" c) as [<- | _]; [ discriminate | ].
  f_equal. exact (IH Hs).
Qed.

Lemma append_nil (x : string) : x ++ EmptyString = x.
Proof. induction x as [ | c x IH]; cbn; [ | rewrite IH ]; reflexivity. Qed.

Lemma append_associative (a b c : string) : a ++ b ++ c = (a ++ b) ++ c.
Proof. induction a as [ | x a IH]; cbn; [ | rewrite IH ]; reflexivity. Qed.

Lemma remove_plain_all (p : string) (s : string) :
  no_backtick s = true -> Fence.remove (String "`" p) Fence.Copy s = s.
Proof.
  intros Hs. pose proof (remove_plain p s EmptyString Hs) as E.
  cbn [Fence.remove] in E. rewrite !append_nil in E. exact E.
Qed.

Lemma ws3_newline (c1 c2 : ascii) : Str.ws3 c1 c2 "010" = false.
Proof.
  unfold Str.ws3. change (Str.code "010") with 10.
  change (10 =? 128) with false. change (10 =? 159) with false.
  change (10 =? 191) with false. change (10 =? 168) with false.
  change (10 =? 169) with false. change (10 =? 175) with false.
  change (128 <=? 10) with false.
  cbn [andb orb]. rewrite !andb_false_r. reflexivity.
Qed.

Lemma trimStart_newline (n : nat) :
  forall b, (String.length b <= n)%nat ->
            Str.trimStart (b ++ String "010" EmptyString)
            = match Str.trimStart b with
              | EmptyString => EmptyString
              | x => x ++ String "010" EmptyString
              end.
Proof.
  induction n as [ | n IH]; intros b Hn;
    (destruct b as [ | c1 r1]; [ reflexivity | ]);
    cbn [String.length] in Hn; [ lia | ].
  cbn [append Str.trimStart].
  destruct (Str.ws1 c1); [ apply IH; lia | ].
  destruct r1 as [ | c2 r2]; cbn [append].
  { unfold Str.ws2. change (Str.code "010" =? 160) with false.
    rewrite andb_false_r. reflexivity. }
  cbn [String.length] in Hn.
  destruct (Str.ws2 c1 c2); [ apply IH; lia | ].
  destruct r2 as [ | c3 r3]; cbn [append].
  { rewrite ws3_newline. reflexivity. }
  cbn [String.length] in Hn.
  destruct (Str.ws3 c1 c2 c3); [ apply IH; lia | reflexivity ].
Qed.

Lemma trim_newline (b : string) :
  Str.trim (b ++ String "010" EmptyString) = Str.trim b.
Proof.
  unfold Str.trim. rewrite (trimStart_newline _ b (le_n _)).
  destruct (Str.trimStart b) as [ | c x]; [ reflexivity | ].
  unfold Str.trimEnd. rewrite rev_append. reflexivity.
Qed.

(** An answer without grave accents is only trimmed, and the same answer
    wrapped in a code fence, with or without the [json] tag, is cleaned to
    the same text. *)
Theorem clean_unwraps_a_fenced_answer (body : string) :
  no_backtick body = true ->
  let nl := String "010" EmptyString in
  Fence.clean body = Str.trim body
  /\ Fence.clean ("```json" ++ nl ++ body ++ nl ++ "```") = Str.trim body
  /\ Fence.clean ("```" ++ nl ++ body ++ nl ++ "```") = Str.trim body.
Proof.
  intros Hb nl.
  assert (Hnl : no_backtick (body ++ nl) = true).
  { unfold no_backtick in *. rewrite list_of_append, forallb_app, Hb.
    reflexivity. }
  pose proof append_nil as Hnil.
  pose proof (append_associative body nl "```") as Hassoc.
  unfold Fence.clean, Fence.fence_json, Fence.fence.
  split; [ | split ].
  - rewrite (remove_plain_all _ body Hb), (remove_plain_all _ body Hb).
    reflexivity.
  - change (Fence.remove "```json" Fence.Copy ("```json" ++ nl ++ body ++ nl ++ "```"))
      with (Fence.remove "```json" Fence.Copy (body ++ nl ++ "```")).
    rewrite Hassoc, (remove_plain _ _ _ Hnl).
    change (Fence.remove "```json" Fence.Copy "```") with "```".
    rewrite (remove_plain _ _ _ Hnl).
    change (Fence.remove "```" Fence.Copy "```") with EmptyString.
    rewrite Hnil. apply trim_newline.
  - change (Fence.remove "```json" Fence.Copy ("```" ++ nl ++ body ++ nl ++ "```"))
      with ("```" ++ nl ++ Fence.remove "```json" Fence.Copy (body ++ nl ++ "```")).
    rewrite Hassoc, (remove_plain _ _ _ Hnl).
    change (Fence.remove "```json" Fence.Copy "```") with "```".
    change (Fence.remove "```" Fence.Copy ("```" ++ nl ++ (body ++ nl) ++ "```"))
      with (Fence.remove "```" Fence.Copy ((body ++ nl) ++ "```")).
    rewrite (remove_plain _ _ _ Hnl).
    change (Fence.remove "```" Fence.Copy "```") with EmptyString.
    rewrite Hnil. apply trim_newline.
Qed.

Lemma clean_unwraps_a_fenced_answer_witness :
  Fence.clean ("```json" ++ String "010" EmptyString ++ "[1, 2]  "
               ++ String "010" EmptyString ++ "```")
  = "[1, 2]".
Proof.
  exact (eq_trans
           (proj1 (proj2 (clean_unwraps_a_fenced_answer "[1, 2]  " eq_refl)))
           eq_refl).
Defined.


(** * The trimmed text fields *)

Lemma trimStart_starts (n : nat) :
  forall s, (String.length s <= n)%nat ->
            starts_with_space (Str.trimStart s) = false.
Proof.
  induction n as [ | n IH]; intros s Hn;
    (destruct s as [ | c1 r1]; [ reflexivity | ]);
    cbn [String.length] in Hn; [ lia | ].
  cbn [Str.trimStart].
  destruct (Str.ws1 c1) eqn:E1; [ apply IH; lia | ].
  destruct r1 as [ | c2 r2].
  { cbn [starts_with_space]. rewrite E1. reflexivity. }
  cbn [String.length] in Hn.
  destruct (Str.ws2 c1 c2) eqn:E2; [ apply IH; lia | ].
  destruct r2 as [ | c3 r3].
  { cbn [starts_with_space]. rewrite E1, E2. reflexivity. }
  cbn [String.length] in Hn.
  destruct (Str.ws3 c1 c2 c3) eqn:E3; [ apply IH; lia | ].
  cbn [starts_with_space]. rewrite E1, E2, E3. reflexivity.
Qed.

Lemma trimStart_rev_ends (n : nat) :
  forall s, (String.length s <= n)%nat ->
            ends_with_space (Str.rev (Str.trimStart_rev s)) = false.
Proof.
  unfold ends_with_space.
  induction n as [ | n IH]; intros s Hn; rewrite rev_rev;
    (destruct s as [ | c1 r1]; [ reflexivity | ]);
    cbn [String.length] in Hn; [ lia | ].
  cbn [Str.trimStart_rev].
  destruct (Str.ws1 c1) eqn:E1;
    [ rewrite <- (rev_rev (Str.trimStart_rev r1)); apply IH; lia | ].
  destruct r1 as [ | c2 r2].
  { rewrite E1. reflexivity. }
  cbn [String.length] in Hn.
  destruct (Str.ws2 c2 c1) eqn:E2;
    [ rewrite <- (rev_rev (Str.trimStart_rev r2)); apply IH; lia | ].
  destruct r2 as [ | c3 r3].
  { rewrite E1, E2. reflexivity. }
  cbn [String.length] in Hn.
  destruct (Str.ws3 c3 c2 c1) eqn:E3;
    [ rewrite <- (rev_rev (Str.trimStart_rev r3)); apply IH; lia | ].
  rewrite E1, E2, E3. reflexivity.
Qed.

Lemma starts_prefix (p q : string) :
  starts_with_space (p ++ q) = false -> starts_with_space p = false.
Proof.
  destruct p as [ | c1 [ | c2 [ | c3 p]]]; cbn [append starts_with_space];
    try reflexivity; auto.
  - intros Hs. apply orb_false_iff in Hs. destruct Hs as [-> _]. reflexivity.
  - intros Hs. apply orb_false_iff in Hs. destruct Hs as [-> Hs].
    apply orb_false_iff in Hs. destruct Hs as [-> _]. reflexivity.
Qed.

Lemma trim_is_trimmed (s : string) :
  starts_with_space (Str.trim s) = false /\ ends_with_space (Str.trim s) = false.
Proof.
  unfold Str.trim. split.
  - destruct (trimEnd_prefix (Str.trimStart s)) as [b Hb].
    apply (starts_prefix _ b). rewrite <- Hb.
    exact (trimStart_starts _ s (le_n _)).
  - unfold Str.trimEnd. exact (trimStart_rev_ends _ _ (le_n _)).
Qed.

Section TrimmedFacts.

Context `{Host}.

Lemma map_items_trimmed (l : list json) :
  forall its, map_items l = inr its ->
              forall x, In x (map item_name its) ->
                        starts_with_space x = false /\ ends_with_space x = false.
Proof.
  induction l as [ | item rest IH]; cbn [map_items]; intros its E x Hx.
  - injection E as <-. destruct Hx.
  - inv_bind E. inv_bind E. injection E as <-.
    destruct Hx as [<- | Hx]; [ | eauto ].
    match goal with
    | Hi : normalize_item item = inr _ |- _ =>
        apply normalize_item_inr in Hi;
        destruct Hi as (_ & (s & _ & ->) & _)
    end.
    apply trim_is_trimmed.
Qed.

(** In every result of [validateReceiptData] the merchant's name, address
    and contact, the date, the receipt number, the payment method and the
    name of each item neither begin nor end with a white space or a line
    terminator. *)
Theorem validate_texts_are_trimmed (c : Clock) (d : json) (r : ReceiptData) :
  validateReceiptData c d = inr r ->
  forall x, In x (trimmed_texts r) ->
            starts_with_space x = false /\ ends_with_space x = false.
Proof.
  intros E x Hx. unfold trimmed_texts in Hx. apply in_app_or in Hx.
  destruct Hx as [Hx | Hx].
  - pose proof (validate_root c d r E) as P.
    destruct (validate_structured d P) as [G Hd].
    unfold validateReceiptData in E. rewrite G in E.
    repeat inv_bind E. injection E as <-.
    cbn [merchant transaction merchant_name address contact date receipt_number
         payment_method] in Hx.
    repeat destruct Hx as [<- | Hx]; try apply trim_is_trimmed.
    destruct Hx.
  - pose proof (validate_items c d r E) as Hi.
    destruct (JS.prop d "items") as [ [ | | | | elems | ] | ];
      try (rewrite Hi in Hx; destruct Hx).
    exact (map_items_trimmed elems _ Hi x Hx).
Qed.

End TrimmedFacts.

Lemma validate_texts_are_trimmed_witness :
  let name := merchant_name (merchant Sample.two_items_normalized) in
  starts_with_space name = false /\ ends_with_space name = false.
Proof.
  exact (validate_texts_are_trimmed
           (H := SampleHost.host) Sample.clock1 Sample.two_items
           Sample.two_items_normalized eq_refl _ (or_introl eq_refl)).
Defined.
